(** * Simulated_OS: a processor process and a main-memory process joined by pipes

    A shallow embedding of [src/include/program.h], [src/src/memory.cc],
    [src/src/processor.cc] and the command-line checks of [src/src/main.cc].

    - a C++ [int] is a [Z]; arithmetic on registers is wrapped to 32 bits
      ([int32]), which is what the usual targets do on signed overflow;
    - a pipe is the list of every integer ever written to it together with
      the number of integers already read from it;
    - the processor's globals and the main-memory process form one [Machine];
      [kill(process[MAIN_MEMORY], SIGINT)] runs [signalhandler] on the
      main-memory part, after which the processor reads the answer;
    - a routine of the processor is a function from the machine to an
      [Outcome]: it returns, or the process exits through [endProcess], or it
      blocks on a pipe, or it divides by zero. *)

From Stdlib Require Import ZArith String Ascii Lia Bool DecimalString.
From Stdlib Require Import DecimalFacts DecimalPos DecimalZ.
From stdpp Require Import base list.

Local Open Scope Z_scope.

(** ** program.h *)

Definition MEMORY_SIZE : Z := 2000.
Definition SYS_INDEX : Z := 1000.
Definition INT_INDEX : Z := 1500.

(** [enum register_values]: indices into [registers]. *)
Definition PC : nat := 0.
Definition IR : nat := 1.
Definition AC : nat := 2.
Definition X : nat := 3.
Definition Y : nat := 4.
Definition SP : nat := 5.
Definition REGCOUNT : nat := 6.

(** [enum mem_codes] *)
Definition READ : Z := 0.
Definition WRITE : Z := 1.

(** [enum error_codes] *)
Definition SUCCESS : Z := 0.
Definition CLI_FAILURE : Z := 1.
Definition FORK_FAILURE : Z := 2.
Definition PIPE_FAILURE : Z := 3.
Definition FILE_PARSE_FAILURE : Z := 4.
Definition INVALID_OPCODE : Z := 5.
Definition PROGRAM_PATH_FAILURE : Z := 6.
Definition READ_FAILURE : Z := 7.
Definition WRITE_FAILURE : Z := 8.
Definition INVALID_MEM_ACTION : Z := 9.
Definition MEMORY_OUT_OF_BOUNDS : Z := 10.
Definition KERNEL_MEM_ACCESS_DENIED : Z := 11.
Definition USER_MEM_ACCESS_DENIED : Z := 12.
Definition INVALID_PORT_CALL : Z := 13.

(** [enum instruction] *)
Inductive instruction : Set :=
  | LOAD_VAL | LOAD_ADDR | LOAD_IND_ADDR | LOAD_IDX_X_ADDR | LOAD_IDX_Y_ADDR
  | LOAD_SPX | STORE | GET | PUT | ADDX | ADDY | SUBX | SUBY
  | COPY_TO_X | COPY_FR_X | COPY_TO_Y | COPY_FR_Y | COPY_TO_SP | COPY_FR_SP
  | JUMP | JUMP_IF_EQ | JUMP_IF_NEQ | JUMP_RETURN | RETURN | INCX | DECX
  | PUSH | POP | SYSCALL | SYSRETURN | END.

#[global] Instance instruction_eq_dec : EqDecision instruction.
Proof. solve_decision. Defined.

Definition opcode (i : instruction) : Z :=
  match i with
  | LOAD_VAL => 1 | LOAD_ADDR => 2 | LOAD_IND_ADDR => 3
  | LOAD_IDX_X_ADDR => 4 | LOAD_IDX_Y_ADDR => 5 | LOAD_SPX => 6
  | STORE => 7 | GET => 8 | PUT => 9 | ADDX => 10 | ADDY => 11
  | SUBX => 12 | SUBY => 13 | COPY_TO_X => 14 | COPY_FR_X => 15
  | COPY_TO_Y => 16 | COPY_FR_Y => 17 | COPY_TO_SP => 18 | COPY_FR_SP => 19
  | JUMP => 20 | JUMP_IF_EQ => 21 | JUMP_IF_NEQ => 22 | JUMP_RETURN => 23
  | RETURN => 24 | INCX => 25 | DECX => 26 | PUSH => 27 | POP => 28
  | SYSCALL => 29 | SYSRETURN => 30 | END => 50
  end.

Definition instruction_set : list instruction :=
  [LOAD_VAL; LOAD_ADDR; LOAD_IND_ADDR; LOAD_IDX_X_ADDR; LOAD_IDX_Y_ADDR;
   LOAD_SPX; STORE; GET; PUT; ADDX; ADDY; SUBX; SUBY;
   COPY_TO_X; COPY_FR_X; COPY_TO_Y; COPY_FR_Y; COPY_TO_SP; COPY_FR_SP;
   JUMP; JUMP_IF_EQ; JUMP_IF_NEQ; JUMP_RETURN; RETURN; INCX; DECX;
   PUSH; POP; SYSCALL; SYSRETURN; END].

(** The [case] label that the value of [IR] selects; [None] is [default]. *)
Definition decode (ir : Z) : option instruction :=
  List.find (fun i => opcode i =? ir) instruction_set.

(** ** Machine integers *)

Definition INT_MAX : Z := 2147483647.
Definition INT_MIN : Z := -2147483648.

Definition int32 (z : Z) : Z := (z + 2147483648) mod 4294967296 - 2147483648.

(** ** Pipes *)

Record Pipe : Set := mkPipe { stream : list Z; consumed : nat }.

Definition empty_pipe : Pipe := mkPipe [] 0.

(** [write(fd, &v, sizeof(int))] *)
Definition pipe_write (v : Z) (p : Pipe) : Pipe :=
  mkPipe (stream p ++ [v]) (consumed p).

(** [read(fd, &v, sizeof(int))]; [None] when no integer is waiting, in which
    case the caller stays blocked. *)
Definition pipe_read (p : Pipe) : option (Z * Pipe) :=
  match stream p !! consumed p with
  | Some v => Some (v, mkPipe (stream p) (S (consumed p)))
  | None => None
  end.

(** The integers written and not read yet. *)
Definition pending (p : Pipe) : list Z := drop (consumed p) (stream p).

(** ** memory.cc *)

Record MainMemory : Set := mkMainMemory {
  memory : list Z;
  readpipe : Pipe;
  writepipe : Pipe
}.

Definition cell (mem : list Z) (address : Z) : Z :=
  default 0 (mem !! Z.to_nat address).

Definition respond (v : Z) (mm : MainMemory) : MainMemory :=
  mkMainMemory (memory mm) (readpipe mm) (pipe_write v (writepipe mm)).

Definition signalhandler (mm : MainMemory) : option MainMemory :=
  match pipe_read (readpipe mm) with
  | None => None
  | Some (action, rp1) =>
    match pipe_read rp1 with
    | None => None
    | Some (address, rp2) =>
      let mm := mkMainMemory (memory mm) rp2 (writepipe mm) in
      if action =? READ then
        if (address >=? 0) && (address <? MEMORY_SIZE) then
          Some (respond (cell (memory mm) address) (respond SUCCESS mm))
        else
          Some (respond READ_FAILURE mm)
      else if action =? WRITE then
        if (address >=? 0) && (address <? MEMORY_SIZE) then
          match pipe_read (readpipe mm) with
          | None => None
          | Some (value, rp3) =>
            Some (respond SUCCESS
                    (mkMainMemory (<[Z.to_nat address := value]> (memory mm))
                                  rp3 (writepipe mm)))
          end
        else
          Some (respond WRITE_FAILURE mm)
      else
        Some (respond INVALID_MEM_ACTION mm)
    end
  end.

(** ** processor.cc: state *)

(** [int registers[REGCOUNT]] *)
Record RegisterFile : Set := mkRegisters {
  r_pc : Z; r_ir : Z; r_ac : Z; r_x : Z; r_y : Z; r_sp : Z
}.

(** [registers[i]] *)
Definition reg (i : nat) (r : RegisterFile) : Z :=
  match i with
  | 0%nat => r_pc r | 1%nat => r_ir r | 2%nat => r_ac r
  | 3%nat => r_x r | 4%nat => r_y r | 5%nat => r_sp r
  | _ => 0
  end.

(** [registers[i] = v] *)
Definition set_reg (i : nat) (v : Z) (r : RegisterFile) : RegisterFile :=
  match i with
  | 0%nat => mkRegisters v (r_ir r) (r_ac r) (r_x r) (r_y r) (r_sp r)
  | 1%nat => mkRegisters (r_pc r) v (r_ac r) (r_x r) (r_y r) (r_sp r)
  | 2%nat => mkRegisters (r_pc r) (r_ir r) v (r_x r) (r_y r) (r_sp r)
  | 3%nat => mkRegisters (r_pc r) (r_ir r) (r_ac r) v (r_y r) (r_sp r)
  | 4%nat => mkRegisters (r_pc r) (r_ir r) (r_ac r) (r_x r) v (r_sp r)
  | 5%nat => mkRegisters (r_pc r) (r_ir r) (r_ac r) (r_x r) (r_y r) v
  | _ => r
  end.

(** The globals of the processor process, the main-memory process behind the
    two pipes, what has been printed on standard output, and the values
    that the coming calls of [rand()] return. *)
Record Machine : Type := mkMachine {
  registers : RegisterFile;
  interrupt_timer : Z;
  instruction_counter : Z;
  inactive_sys_stack : Z;
  inactive_proc_stack : Z;
  interruptEnabledFlag : bool;
  kernelMode : bool;
  main_memory : MainMemory;
  console : string;
  rand_source : nat -> Z;
  rand_calls : nat
}.

Definition with_registers (r : RegisterFile) (m : Machine) : Machine :=
  mkMachine r (interrupt_timer m) (instruction_counter m)
    (inactive_sys_stack m) (inactive_proc_stack m) (interruptEnabledFlag m)
    (kernelMode m) (main_memory m) (console m) (rand_source m) (rand_calls m).

Definition with_interrupt_timer (t : Z) (m : Machine) : Machine :=
  mkMachine (registers m) t (instruction_counter m)
    (inactive_sys_stack m) (inactive_proc_stack m) (interruptEnabledFlag m)
    (kernelMode m) (main_memory m) (console m) (rand_source m) (rand_calls m).

Definition with_instruction_counter (c : Z) (m : Machine) : Machine :=
  mkMachine (registers m) (interrupt_timer m) c
    (inactive_sys_stack m) (inactive_proc_stack m) (interruptEnabledFlag m)
    (kernelMode m) (main_memory m) (console m) (rand_source m) (rand_calls m).

Definition with_inactive_sys_stack (v : Z) (m : Machine) : Machine :=
  mkMachine (registers m) (interrupt_timer m) (instruction_counter m)
    v (inactive_proc_stack m) (interruptEnabledFlag m)
    (kernelMode m) (main_memory m) (console m) (rand_source m) (rand_calls m).

Definition with_inactive_proc_stack (v : Z) (m : Machine) : Machine :=
  mkMachine (registers m) (interrupt_timer m) (instruction_counter m)
    (inactive_sys_stack m) v (interruptEnabledFlag m)
    (kernelMode m) (main_memory m) (console m) (rand_source m) (rand_calls m).

Definition with_interruptEnabledFlag (b : bool) (m : Machine) : Machine :=
  mkMachine (registers m) (interrupt_timer m) (instruction_counter m)
    (inactive_sys_stack m) (inactive_proc_stack m) b
    (kernelMode m) (main_memory m) (console m) (rand_source m) (rand_calls m).

Definition with_kernelMode (b : bool) (m : Machine) : Machine :=
  mkMachine (registers m) (interrupt_timer m) (instruction_counter m)
    (inactive_sys_stack m) (inactive_proc_stack m) (interruptEnabledFlag m)
    b (main_memory m) (console m) (rand_source m) (rand_calls m).

Definition with_main_memory (mm : MainMemory) (m : Machine) : Machine :=
  mkMachine (registers m) (interrupt_timer m) (instruction_counter m)
    (inactive_sys_stack m) (inactive_proc_stack m) (interruptEnabledFlag m)
    (kernelMode m) mm (console m) (rand_source m) (rand_calls m).

Definition with_console (s : string) (m : Machine) : Machine :=
  mkMachine (registers m) (interrupt_timer m) (instruction_counter m)
    (inactive_sys_stack m) (inactive_proc_stack m) (interruptEnabledFlag m)
    (kernelMode m) (main_memory m) s (rand_source m) (rand_calls m).

Definition with_rand_calls (n : nat) (m : Machine) : Machine :=
  mkMachine (registers m) (interrupt_timer m) (instruction_counter m)
    (inactive_sys_stack m) (inactive_proc_stack m) (interruptEnabledFlag m)
    (kernelMode m) (main_memory m) (console m) (rand_source m) n.

(** ** processor.cc: control *)

Inductive Outcome (A : Type) : Type :=
  | Returns (a : A) (m : Machine)     (* the call returns [a] *)
  | Exits (code : Z) (m : Machine)    (* [exit(code)] inside [endProcess] *)
  | Blocks (m : Machine)              (* [read] on a pipe nobody feeds *)
  | Traps (m : Machine).              (* integer division by zero *)

Arguments Returns {A} a m.
Arguments Exits {A} code m.
Arguments Blocks {A} m.
Arguments Traps {A} m.

Definition Proc (A : Type) : Type := Machine -> Outcome A.

Definition ret {A} (a : A) : Proc A := fun m => Returns a m.

Definition bind {A B} (c : Proc A) (k : A -> Proc B) : Proc B :=
  fun m =>
    match c m with
    | Returns a m' => k a m'
    | Exits code m' => Exits code m'
    | Blocks m' => Blocks m'
    | Traps m' => Traps m'
    end.

Declare Scope proc_scope.
Delimit Scope proc_scope with proc.
Notation "x <- c ;; k" := (bind c (fun x => k))
  (at level 100, c at next level, k at level 200, right associativity)
  : proc_scope.
Notation "c ;; k" := (bind c (fun _ => k))
  (at level 100, k at level 200, right associativity) : proc_scope.
Local Open Scope proc_scope.

Definition gets {A} (f : Machine -> A) : Proc A := fun m => Returns (f m) m.
Definition modify (f : Machine -> Machine) : Proc unit :=
  fun m => Returns tt (f m).
Definition when (b : bool) (c : Proc unit) : Proc unit :=
  if b then c else ret tt.

Definition get_reg (i : nat) : Proc Z := gets (fun m => reg i (registers m)).
Definition put_reg (i : nat) (v : Z) : Proc unit :=
  modify (fun m => with_registers (set_reg i v (registers m)) m).

(** [cout << s] *)
Definition print (s : string) : Proc unit :=
  modify (fun m => with_console (String.append (console m) s) m).

Definition endl : string := String (ascii_of_nat 10) EmptyString.

(** [cout << n] for an [int] *)
Definition string_of_Z (z : Z) : string := NilZero.string_of_int (Z.to_int z).

(** [(char) n] *)
Definition char_of_Z (z : Z) : ascii := ascii_of_N (Z.to_N (z mod 256)).

Definition exit_code_name (exitCode : Z) : string :=
  if exitCode =? SUCCESS then "SUCCESS"
  else if exitCode =? CLI_FAILURE then "CLI FAILURE"
  else if exitCode =? FORK_FAILURE then "FORK FAILURE"
  else if exitCode =? PIPE_FAILURE then "PIPE FAILURE"
  else if exitCode =? FILE_PARSE_FAILURE then "FILE PARSE FAILURE"
  else if exitCode =? INVALID_OPCODE then "INVALID OPCODE"
  else if exitCode =? PROGRAM_PATH_FAILURE then "PROGRAM PATH FAILURE"
  else if exitCode =? READ_FAILURE then "READ FAILURE"
  else if exitCode =? WRITE_FAILURE then "WRITE FAILURE"
  else if exitCode =? INVALID_MEM_ACTION then "INVALID MEM ACTION"
  else if exitCode =? MEMORY_OUT_OF_BOUNDS then "MEMORY OUT OF BOUNDS"
  else if exitCode =? KERNEL_MEM_ACCESS_DENIED then "KERNEL_MEM_ACCESS_DENIED"
  else if exitCode =? USER_MEM_ACCESS_DENIED then "USER_MEM_ACCESS_DENIED"
  else if exitCode =? INVALID_PORT_CALL then "INVALID PORT CALL"
  else "MISSING EXIT CODE".

(** [endProcess]: the main-memory process is killed, the exit status is
    printed and the processor process exits; the call never returns. *)
Definition endProcess {A} (exitCode : Z) : Proc A :=
  fun m =>
    match (print "EXIT CODE: " ;; print (exit_code_name exitCode) ;;
           print endl ;; print endl) m with
    | Returns _ m' => Exits exitCode m'
    | _ => Exits exitCode m
    end.

Definition verifyAccess (address : Z) : Proc unit :=
  when ((address <? 0) || (address >=? MEMORY_SIZE))
       (endProcess MEMORY_OUT_OF_BOUNDS) ;;
  kernel <- gets kernelMode ;;
  when ((address >=? SYS_INDEX) && negb kernel)
       (endProcess KERNEL_MEM_ACCESS_DENIED) ;;
  kernel <- gets kernelMode ;;
  when ((address <? SYS_INDEX) && kernel)
       (endProcess USER_MEM_ACCESS_DENIED).

(** [write(writeToMem[1], &v, sizeof(int))] *)
Definition send (v : Z) : Proc unit :=
  modify (fun m =>
    let mm := main_memory m in
    with_main_memory
      (mkMainMemory (memory mm) (pipe_write v (readpipe mm)) (writepipe mm)) m).

(** [kill(process[MAIN_MEMORY], SIGINT)]: the handler of the main-memory
    process runs to completion before the processor reads the answer. *)
Definition kill_SIGINT : Proc unit :=
  fun m =>
    match signalhandler (main_memory m) with
    | Some mm => Returns tt (with_main_memory mm m)
    | None => Blocks m
    end.

(** [read(readFromMem[0], &v, sizeof(int))] *)
Definition receive : Proc Z :=
  fun m =>
    let mm := main_memory m in
    match pipe_read (writepipe mm) with
    | Some (v, p) =>
        Returns v (with_main_memory (mkMainMemory (memory mm) (readpipe mm) p) m)
    | None => Blocks m
    end.

Definition readMemory (address : Z) : Proc Z :=
  verifyAccess address ;;
  send READ ;;
  send address ;;
  kill_SIGINT ;;
  status <- receive ;;
  when (negb (status =? SUCCESS)) (endProcess status) ;;
  receive.

Definition writeMemory (address value : Z) : Proc unit :=
  verifyAccess address ;;
  send WRITE ;;
  send address ;;
  send value ;;
  kill_SIGINT ;;
  status <- receive ;;
  when (negb (status =? SUCCESS)) (endProcess status).

(** [for (int i = 1; i < REGCOUNT; i++) body], over the values [i] takes. *)
Fixpoint for_each (l : list nat) (body : nat -> Proc unit) : Proc unit :=
  match l with
  | [] => ret tt
  | i :: l' => body i ;; for_each l' body
  end.

Definition pushStack (value : Z) : Proc unit :=
  sp <- get_reg SP ;;
  put_reg SP (int32 (sp - 1)) ;;
  sp <- get_reg SP ;;
  writeMemory sp value.

Definition popStack : Proc Z :=
  sp <- get_reg SP ;;
  put_reg SP (int32 (sp + 1)) ;;
  readMemory sp.

Definition pushRegistersOnStack : Proc unit :=
  for_each (seq 1 (REGCOUNT - 1)) (fun i =>
    sp <- get_reg SP ;;
    v <- get_reg (i - 1) ;;
    writeMemory (int32 (sp - Z.of_nat i)) v) ;;
  sp <- get_reg SP ;;
  put_reg SP (int32 (sp - (Z.of_nat REGCOUNT - 1))).

Definition popRegistersOnStack : Proc unit :=
  for_each (seq 1 (REGCOUNT - 1)) (fun i =>
    sp <- get_reg SP ;;
    v <- readMemory (int32 (sp + Z.of_nat REGCOUNT - 1 - Z.of_nat i)) ;;
    put_reg (i - 1) v) ;;
  sp <- get_reg SP ;;
  put_reg SP (int32 (sp + (Z.of_nat REGCOUNT - 1))).

Definition syscall (address : Z) : Proc unit :=
  enabled <- gets interruptEnabledFlag ;;
  if enabled then
    kernel <- gets kernelMode ;;
    if negb kernel then
      modify (with_kernelMode true) ;;
      modify (with_interruptEnabledFlag false) ;;
      sp <- get_reg SP ;;
      modify (with_inactive_proc_stack sp) ;;
      ksp <- gets inactive_sys_stack ;;
      put_reg SP ksp ;;
      pushRegistersOnStack ;;
      put_reg PC address
    else
      ret tt
  else
    ret tt.

Definition return_syscall : Proc unit :=
  popRegistersOnStack ;;
  sp <- get_reg SP ;;
  modify (with_inactive_sys_stack sp) ;;
  usp <- gets inactive_proc_stack ;;
  put_reg SP usp ;;
  modify (with_interruptEnabledFlag true) ;;
  modify (with_kernelMode false).

(** [a % b] on [int]: the quotient is truncated, and the division traps on
    a zero divisor and on [INT_MIN % -1]. *)
Definition int_rem (a b : Z) : Proc Z :=
  if (b =? 0) || ((a =? INT_MIN) && (b =? -1)) then Traps
  else ret (Z.rem a b).

Definition checkInterrupt : Proc unit :=
  counter <- gets instruction_counter ;;
  timer <- gets interrupt_timer ;;
  r <- int_rem counter timer ;;
  when (r =? 0) (syscall SYS_INDEX).

Definition fetchInstruction : Proc unit :=
  pc <- get_reg PC ;;
  v <- readMemory pc ;;
  put_reg IR v.

(** [readMemory(registers[PC]++)] *)
Definition readNext : Proc Z :=
  pc <- get_reg PC ;;
  put_reg PC (int32 (pc + 1)) ;;
  readMemory pc.

(** [rand()] *)
Definition rand : Proc Z :=
  n <- gets rand_calls ;;
  src <- gets rand_source ;;
  modify (with_rand_calls (S n)) ;;
  ret (src n).

(** The body of one [case] of the [switch] in [executeInstruction]. *)
Definition execute (i : instruction) : Proc unit :=
  match i with
  | LOAD_VAL =>
      v <- readNext ;; put_reg AC v
  | LOAD_ADDR =>
      temp <- readNext ;; v <- readMemory temp ;; put_reg AC v
  | LOAD_IND_ADDR =>
      temp <- readNext ;; temp <- readMemory temp ;;
      v <- readMemory temp ;; put_reg AC v
  | LOAD_IDX_X_ADDR =>
      temp <- readNext ;; x <- get_reg X ;;
      v <- readMemory (int32 (temp + x)) ;; put_reg AC v
  | LOAD_IDX_Y_ADDR =>
      temp <- readNext ;; y <- get_reg Y ;;
      v <- readMemory (int32 (temp + y)) ;; put_reg AC v
  | LOAD_SPX =>
      sp <- get_reg SP ;; x <- get_reg X ;;
      v <- readMemory (int32 (sp + x)) ;; put_reg AC v
  | STORE =>
      temp <- readNext ;; ac <- get_reg AC ;; writeMemory temp ac
  | GET =>
      r <- rand ;; put_reg AC (int32 (Z.rem r 100 + 1))
  | PUT =>
      temp <- readNext ;;
      ac <- get_reg AC ;;
      if temp =? 1 then print (string_of_Z ac)
      else if temp =? 2 then print (String (char_of_Z ac) EmptyString)
      else endProcess INVALID_PORT_CALL
  | ADDX => ac <- get_reg AC ;; x <- get_reg X ;; put_reg AC (int32 (ac + x))
  | ADDY => ac <- get_reg AC ;; y <- get_reg Y ;; put_reg AC (int32 (ac + y))
  | SUBX => ac <- get_reg AC ;; x <- get_reg X ;; put_reg AC (int32 (ac - x))
  | SUBY => ac <- get_reg AC ;; y <- get_reg Y ;; put_reg AC (int32 (ac - y))
  | COPY_TO_X => ac <- get_reg AC ;; put_reg X ac
  | COPY_FR_X => x <- get_reg X ;; put_reg AC x
  | COPY_TO_Y => ac <- get_reg AC ;; put_reg Y ac
  | COPY_FR_Y => y <- get_reg Y ;; put_reg AC y
  | COPY_TO_SP => ac <- get_reg AC ;; put_reg SP ac
  | COPY_FR_SP => sp <- get_reg SP ;; put_reg AC sp
  | JUMP =>
      pc <- get_reg PC ;; v <- readMemory pc ;; put_reg PC v
  | JUMP_IF_EQ =>
      temp <- readNext ;; ac <- get_reg AC ;;
      when (ac =? 0) (put_reg PC temp)
  | JUMP_IF_NEQ =>
      temp <- readNext ;; ac <- get_reg AC ;;
      when (negb (ac =? 0)) (put_reg PC temp)
  | JUMP_RETURN =>
      pc <- get_reg PC ;; pushStack (int32 (pc + 1)) ;;
      pc <- get_reg PC ;; v <- readMemory pc ;; put_reg PC v
  | RETURN => v <- popStack ;; put_reg PC v
  | INCX => x <- get_reg X ;; put_reg X (int32 (x + 1))
  | DECX => x <- get_reg X ;; put_reg X (int32 (x - 1))
  | PUSH => ac <- get_reg AC ;; pushStack ac
  | POP => v <- popStack ;; put_reg AC v
  | SYSCALL => syscall INT_INDEX
  | SYSRETURN => return_syscall
  | END => endProcess SUCCESS
  end.

Definition executeInstruction : Proc unit :=
  ir <- get_reg IR ;;
  match decode ir with
  | Some i => execute i
  | None => endProcess INVALID_OPCODE
  end.

(** One turn of the [while(true)] loop of [run_execution_cycle]. *)
Definition execution_cycle : Proc unit :=
  fetchInstruction ;;
  pc <- get_reg PC ;; put_reg PC (int32 (pc + 1)) ;;
  executeInstruction ;;
  counter <- gets instruction_counter ;;
  modify (with_instruction_counter (int32 (counter + 1))) ;;
  checkInterrupt.

(** The first [turns] turns of the loop; the loop itself has no exit, so
    [Returns] here only says that it is still running after that many. *)
Fixpoint run_execution_cycle (turns : nat) : Proc unit :=
  match turns with
  | O => ret tt
  | S n => execution_cycle ;; run_execution_cycle n
  end.

(** The assignments of [run_processor] before it enters the loop. *)
Definition initialize (timer : Z) : Proc unit :=
  modify (with_interrupt_timer timer) ;;
  put_reg PC 0 ;;
  modify (with_inactive_sys_stack MEMORY_SIZE) ;;
  modify (with_inactive_proc_stack SYS_INDEX) ;;
  put_reg SP SYS_INDEX ;;
  modify (with_instruction_counter 0) ;;
  modify (with_interruptEnabledFlag true) ;;
  modify (with_kernelMode false).

(** [run_processor] with [debugMode] off. *)
Definition run_processor (timer : Z) (turns : nat) : Proc unit :=
  initialize timer ;;
  run_execution_cycle turns.

(** The two processes when [run_processor] is entered: the globals of the
    processor are zero, main memory holds the loaded image, and the start-up
    flag has crossed the pipe from main memory. *)
Definition power_on (image : list Z) (rnd : nat -> Z) : Machine :=
  mkMachine (mkRegisters 0 0 0 0 0 0) 0 0 0 0 false false
    (mkMainMemory image empty_pipe (mkPipe [1] 1))
    EmptyString rnd 0.

(** ** main.cc: the checks on the command line *)

Local Open Scope string_scope.

Definition isspace (c : ascii) : bool :=
  let n := nat_of_ascii c in
  (n =? 32)%nat || ((9 <=? n)%nat && (n <=? 13)%nat).

(** The value of a character as a digit, in any base up to 36. *)
Definition digit_value (c : ascii) : option Z :=
  let n := Z.of_nat (nat_of_ascii c) in
  if (48 <=? n)%Z && (n <=? 57)%Z then Some (n - 48)%Z
  else if (97 <=? n)%Z && (n <=? 122)%Z then Some (n - 87)%Z
  else if (65 <=? n)%Z && (n <=? 90)%Z then Some (n - 55)%Z
  else None.

Definition is_digit (base : Z) (c : ascii) : bool :=
  match digit_value c with
  | Some d => (d <? base)%Z
  | None => false
  end.

Fixpoint skip_spaces (s : string) : string :=
  match s with
  | String c t => if isspace c then skip_spaces t else s
  | EmptyString => s
  end.

(** The longest prefix of digits of [s], read in [base]; [acc] is [None]
    until a digit has been read. *)
Fixpoint read_digits (base : Z) (s : string) (acc : option Z) : option Z :=
  match s with
  | String c t =>
      match digit_value c with
      | Some d =>
          if (d <? base)%Z
          then read_digits base t (Some (default 0 acc * base + d))%Z
          else acc
      | None => acc
      end
  | EmptyString => acc
  end.

(** [strtol(s, &end, base)]; [None] when no conversion is performed. *)
Definition strtol (s : string) (base : Z) : option Z :=
  let s := skip_spaces s in
  let '(negative, s) :=
    match s with
    | String "-" t => (true, t)
    | String "+" t => (false, t)
    | _ => (false, s)
    end in
  let '(base, s) :=
    match s with
    | String "0" (String x (String h t)) =>
        if ((base =? 0) || (base =? 16))%Z
           && (Ascii.eqb x "x" || Ascii.eqb x "X") && is_digit 16 h
        then (16%Z, String h t)
        else if (base =? 0)%Z then (8%Z, s) else (base, s)
    | String "0" _ => if (base =? 0)%Z then (8%Z, s) else (base, s)
    | _ => if (base =? 0)%Z then (10%Z, s) else (base, s)
    end in
  match read_digits base s None with
  | Some v => Some (if negative : bool then (- v)%Z else v)
  | None => None
  end.

Inductive stoi_result : Set :=
  | stoi_value (v : Z)
  | invalid_argument
  | out_of_range.

(** [std::stoi(s, NULL, base)] *)
Definition stoi (s : string) (base : Z) : stoi_result :=
  match strtol s base with
  | None => invalid_argument
  | Some v =>
      if (v <? INT_MIN)%Z || (INT_MAX <? v)%Z then out_of_range
      else stoi_value v
  end.

(** How the command-line checks of [main] end: [throw;] with no exception
    in flight ends the program through [std::terminate]; an exception
    thrown by [stoi] reaches [catch(...)], which returns [CLI_FAILURE];
    otherwise the timer and the debug flag are set. *)
Inductive Startup : Set :=
  | Terminated (printed : list string)
  | Returned (code : Z)
  | Configured (timer : Z) (debugMode : bool).

Definition usage : string :=
  "Usage: program1.exe <program_file> <timer_value> [--debug]".

Definition command_line (argv : list string) (existingFile : string -> bool)
  : Startup :=
  let argc := length argv in
  let arg (i : nat) : string := List.nth i argv EmptyString in
  if (argc <? 3)%nat || (4 <? argc)%nat then
    Terminated ["ERROR: Invalid options"; usage]
  else
    match stoi (arg 2%nat) 10 with
    | invalid_argument | out_of_range => Returned CLI_FAILURE
    | stoi_value v =>
      if (v <? 0)%Z then
        Terminated ["ERROR: Invalid options.";
                    "Timer value must be integer greater than zero."; usage]
      else if negb (existingFile (arg 1%nat)) then
        Terminated ["ERROR: Program file does not exist!"; usage]
      else if (argc =? 4)%nat && negb (String.eqb "--debug" (arg 3%nat)) then
        Terminated ["ERROR: Invalid options"; usage]
      else
        match stoi (arg 2%nat) 0 with
        | invalid_argument | out_of_range => Returned CLI_FAILURE
        | stoi_value timer => Configured timer (argc =? 4)%nat
        end
    end.

(** [main] once the pipes and the two processes exist and main memory has
    loaded [image]: the processor side, with [debugMode] off. *)
Definition main (argv : list string) (existingFile : string -> bool)
    (image : list Z) (rnd : nat -> Z) (turns : nat)
  : Startup + Outcome unit :=
  match command_line argv existingFile with
  | Configured timer false => inr (run_processor timer turns (power_on image rnd))
  | s => inl s
  end.

Local Close Scope string_scope.

(** ** processor.cc: the test routine of debug mode *)

Local Open Scope string_scope.

(** The operands of [<<] are evaluated from left to right, so that the text
    before a [readMemory] is printed before main memory is asked. *)
Definition printRegistersAndStack : Proc unit :=
  print ("Registers: " ++ endl) ;;
  pc <- get_reg PC ;; print ("PC: " ++ string_of_Z pc ++ endl) ;;
  sp <- get_reg SP ;; print ("SP: " ++ string_of_Z sp ++ endl) ;;
  ir <- get_reg IR ;; print ("IR: " ++ string_of_Z ir ++ endl) ;;
  ac <- get_reg AC ;; print ("AC: " ++ string_of_Z ac ++ endl) ;;
  x <- get_reg X ;; print ("X: " ++ string_of_Z x ++ endl) ;;
  y <- get_reg Y ;; print ("Y: " ++ string_of_Z y ++ endl) ;;
  for_each (seq 0 10) (fun i =>
    print ("Mem Address " ++ string_of_Z (1999 - Z.of_nat i) ++ ": ") ;;
    v <- readMemory (1999 - Z.of_nat i) ;;
    print (string_of_Z v ++ endl)).

Definition debugProgram : Proc unit :=
  print ("TESTING MEMORY READ/WRITE" ++ endl) ;;
  print "Read address 10: " ;;
  v <- readMemory 10 ;;
  print (string_of_Z v ++ endl) ;;
  print ("Write 1337 to address 10" ++ endl) ;;
  writeMemory 10 1337 ;;
  print "Read address 10: " ;;
  v <- readMemory 10 ;;
  print (string_of_Z v ++ endl ++ endl ++ endl) ;;
  print ("TESTING STACK PUSH/POP" ++ endl ++ endl) ;;
  print ("INITIAL:" ++ endl) ;;
  modify (with_kernelMode true) ;;
  ksp <- gets inactive_sys_stack ;;
  put_reg SP ksp ;;
  put_reg IR 10 ;;
  put_reg AC 20 ;;
  put_reg X 30 ;;
  put_reg Y 40 ;;
  printRegistersAndStack ;;
  print (endl ++ "Pushing stack..." ++ endl) ;;
  pushRegistersOnStack ;;
  printRegistersAndStack ;;
  print (endl ++ "Overwriting register values..." ++ endl) ;;
  put_reg IR 99 ;;
  put_reg AC 88 ;;
  put_reg X 77 ;;
  put_reg Y 66 ;;
  printRegistersAndStack ;;
  print (endl ++ "Popping stack..." ++ endl) ;;
  popRegistersOnStack ;;
  printRegistersAndStack ;;
  print (endl ++ "END OF TESTING SECTION" ++ endl ++ endl) ;;
  endProcess SUCCESS.

(** [run_processor] with [debugMode] on. *)
Definition run_processor_debug (timer : Z) : Proc unit :=
  initialize timer ;;
  debugProgram ;;
  endProcess PROGRAM_PATH_FAILURE.

Local Close Scope string_scope.

(** ** memory.cc: loading the program file *)

Local Open Scope string_scope.

(** [enum parse_op] *)
Inductive parse_op : Set := JUMP_AHEAD | LOAD | SKIP.

(** [isdigit] in the C locale. *)
Definition isdigit (c : ascii) : bool :=
  let n := nat_of_ascii c in (48 <=? n)%nat && (n <=? 57)%nat.

(** The [for] loop over the characters of a line: the operation it selects
    and the line from [startIndex] on.  [None] when the loop ends without a
    [break]: [operation] then has no value. *)
Fixpoint select_operation (line : string) : option (parse_op * string) :=
  match line with
  | EmptyString => None
  | String c t =>
      if Ascii.eqb c " " then select_operation t
      else if Ascii.eqb c "." then Some (JUMP_AHEAD, t)
      else if isdigit c then Some (LOAD, line)
      else Some (SKIP, line)
  end.

(** The [while] loop that collects the digits from [startIndex] on. *)
Fixpoint leading_digits (s : string) : string :=
  match s with
  | String c t => if isdigit c then String c (leading_digits t) else EmptyString
  | EmptyString => EmptyString
  end.

(** How reading the file goes on: [Loaded] to the next line, [Thrown] when
    [stoi] throws, which [catch(...)] receives, and [Undefined] where C++
    gives the program no meaning: [operation] read without a value, or a
    store outside [memory]. *)
Inductive Load (A : Type) : Type :=
  | Loaded (a : A)
  | Thrown (a : A)
  | Undefined.
Arguments Loaded {A} a.
Arguments Thrown {A} a.
Arguments Undefined {A}.

(** The body of [while(getline(file_stream, line))], on [memory] and
    [address].  In [memory[address] = stoi(loadValue)] the call of [stoi]
    comes first, so that an exception leaves the cell alone. *)
Definition load_line (line : string) (st : list Z * Z) : Load (list Z * Z) :=
  let '(mem, address) := st in
  match line with
  | EmptyString => Loaded st
  | _ =>
    match select_operation line with
    | None => Undefined
    | Some (JUMP_AHEAD, rest) =>
        match stoi (leading_digits rest) 10 with
        | stoi_value v => Loaded (mem, v)
        | _ => Thrown st
        end
    | Some (LOAD, rest) =>
        match stoi (leading_digits rest) 10 with
        | stoi_value v =>
            if (0 <=? address)%Z && (address <? MEMORY_SIZE)%Z
            then Loaded (<[Z.to_nat address := v]> mem, (address + 1)%Z)
            else Undefined
        | _ => Thrown st
        end
    | Some (SKIP, _) => Loaded st
    end
  end.

Fixpoint load_lines (lines : list string) (st : list Z * Z)
  : Load (list Z * Z) :=
  match lines with
  | [] => Loaded st
  | line :: rest =>
      match load_line line st with
      | Loaded st' => load_lines rest st'
      | Thrown st' => Thrown st'
      | Undefined => Undefined
      end
  end.

(** [run_main_memory] with [debugMode] off, for a file that opens and holds
    [lines], up to [pause()]: what it prints, and main memory with the flag
    written for the processor. *)
Definition run_main_memory (lines : list string)
  : option (string * MainMemory) :=
  match load_lines lines (replicate 2000 0%Z, 0%Z) with
  | Loaded (mem, _) =>
      Some ("", mkMainMemory mem empty_pipe (pipe_write 1 empty_pipe))
  | Thrown (mem, _) =>
      Some ("ERROR PARSING FILE!!!!" ++ endl,
            mkMainMemory mem empty_pipe (pipe_write 0 empty_pipe))
  | Undefined => None
  end.

(** ** memory.cc: loading, with variables that a line leaves unset *)

Local Open Scope string_scope.

(** The value of a [parse_op] as an [int]. *)
Definition parse_op_value (op : parse_op) : Z :=
  match op with
  | JUMP_AHEAD => 0
  | LOAD => 1
  | SKIP => 2
  end.

(** [(unsigned int) z] for an [int] [z]. *)
Definition to_unsigned (z : Z) : Z :=
  if (z <? 0)%Z then (z + 4294967296)%Z else z.

(** The characters of [s] from index [i] on. *)
Fixpoint string_from (i : nat) (s : string) : string :=
  match i, s with
  | O, _ => s
  | S n, String _ t => string_from n t
  | S _, EmptyString => EmptyString
  end.

(** The [for] loop over the characters of a line once more, now on the two
    variables it assigns: [operation] and [startIndex] are declared without
    a value, and a line of spaces leaves them as [unset] has them; a line
    that is a comment assigns [operation] only. *)
Fixpoint select_raw (line : string) (i : Z) (unset : Z * Z) : Z * Z :=
  match line with
  | EmptyString => unset
  | String c t =>
      if Ascii.eqb c " " then select_raw t (i + 1)%Z unset
      else if Ascii.eqb c "." then (parse_op_value JUMP_AHEAD, (i + 1)%Z)
      else if isdigit c then (parse_op_value LOAD, i)
      else (parse_op_value SKIP, unset.2)
  end.

(** The [while] loop that collects the digits, from [unsigned int i =
    startIndex] on while [i < line.length()]. *)
Definition digits_from (startIndex : Z) (line : string) : string :=
  let i := to_unsigned startIndex in
  if (i <? Z.of_nat (String.length line))%Z
  then leading_digits (string_from (Z.to_nat i) line)
  else "".

(** The loader with what it has done so far: [memory], [address], and the
    stores [memory[address] = value] whose address was no cell of
    [memory], latest first.  Such a store lands behind or before the array;
    it is taken to change nothing that the loop reads. *)
Record Loader : Type := mkLoader {
  array : list Z;
  next_address : Z;
  outside : list (Z * Z)
}.

(** How reading goes on after a line: to the next line, to [catch(...)]
    when [stoi] throws, or to [std::terminate] at the bare [throw;]. *)
Inductive Raw : Type :=
  | Next (l : Loader)
  | Caught (l : Loader)
  | Aborted (l : Loader).

Definition raw_loader (r : Raw) : Loader :=
  match r with
  | Next l | Caught l | Aborted l => l
  end.

(** The body of [while(getline(file_stream, line))] on every line, those
    that leave [operation] and [startIndex] unset included. *)
Definition load_line_raw (unset : Z * Z) (line : string) (l : Loader) : Raw :=
  match line with
  | EmptyString => Next l
  | _ =>
    let '(operation, startIndex) := select_raw line 0 unset in
    if (operation =? parse_op_value JUMP_AHEAD)%Z then
      match stoi (digits_from startIndex line) 10 with
      | stoi_value v => Next (mkLoader (array l) v (outside l))
      | _ => Caught l
      end
    else if (operation =? parse_op_value LOAD)%Z then
      match stoi (digits_from startIndex line) 10 with
      | stoi_value v =>
          let address := next_address l in
          if (0 <=? address)%Z && (address <? MEMORY_SIZE)%Z
          then Next (mkLoader (<[Z.to_nat address := v]> (array l))
                       (int32 (address + 1)) (outside l))
          else Next (mkLoader (array l) (int32 (address + 1))
                       ((address, v) :: outside l))
      | _ => Caught l
      end
    else if (operation =? parse_op_value SKIP)%Z then Next l
    else Aborted l
  end.

(** The lines of the file in turn; [unset n] is what the variables of the
    loop body hold when the [n]-th line is reached. *)
Fixpoint load_lines_raw (unset : nat -> Z * Z) (lines : list string)
    (l : Loader) : Raw :=
  match lines with
  | [] => Next l
  | line :: rest =>
      match load_line_raw (unset O) line l with
      | Next l' => load_lines_raw (fun n => unset (S n)) rest l'
      | r => r
      end
  end.

Local Close Scope string_scope.

(** ** main.cc: the two processes together *)

(** How the program goes on from the command line, with [debugMode] off:
    [Stopped] by the checks of the command line, [Unspecified] where loading
    has no defined behaviour, [Main_returns] for [return FILE_PARSE_FAILURE],
    and [Processor] once [run_processor] is entered; [printed] is what main
    memory has written to the console. *)
Inductive Run : Type :=
  | Stopped (s : Startup)
  | Unspecified
  | Main_returns (code : Z) (printed : string)
  | Processor (printed : string) (o : Outcome unit).

Definition program (argv : list string) (existingFile : string -> bool)
    (lines : list string) (rnd : nat -> Z) (turns : nat) : Run :=
  match command_line argv existingFile with
  | Configured timer false =>
      match run_main_memory lines with
      | None => Unspecified
      | Some (printed, mm) =>
          match pipe_read (writepipe mm) with
          | None => Unspecified
          | Some (loadSuccess, answers) =>
              if (loadSuccess =? 0)%Z
              then Main_returns FILE_PARSE_FAILURE printed
              else Processor printed
                     (run_processor timer turns
                        (mkMachine (mkRegisters 0 0 0 0 0 0) 0 0 0 0
                           false false
                           (mkMainMemory (memory mm) (readpipe mm) answers)
                           EmptyString rnd 0))
          end
      end
  | s => Stopped s
  end.

Local Close Scope string_scope.

(** ** Vocabulary of the specification *)

Inductive Mode : Set := User | Kernel.

Inductive Access : Set := Ok | OutOfBounds | KernelDenied | UserDenied.

Definition mode_of (m : Machine) : Mode :=
  if kernelMode m then Kernel else User.

Definition is_user (mode : Mode) : bool :=
  match mode with User => true | Kernel => false end.

Definition is_kernel (mode : Mode) : bool :=
  match mode with User => false | Kernel => true end.

(** The access check, rule by rule as the specification lists them. *)
Definition Check (address : Z) (mode : Mode) : Access :=
  if (address <? 0) || (address >=? 2000) then OutOfBounds
  else if (address >=? 1000) && is_user mode then KernelDenied
  else if (address <? 1000) && is_kernel mode then UserDenied
  else Ok.

(** What [verifyAccess] does for each verdict: it returns on [Ok], and any
    other verdict ends the process with the matching exit code. *)
Definition enforce (verdict : Access) : Proc unit :=
  match verdict with
  | Ok => ret tt
  | OutOfBounds => endProcess MEMORY_OUT_OF_BOUNDS
  | KernelDenied => endProcess KERNEL_MEM_ACCESS_DENIED
  | UserDenied => endProcess USER_MEM_ACCESS_DENIED
  end.

(** A pipe on which everything written has been read. *)
Definition idle (p : Pipe) : Prop := consumed p = length (stream p).

(** A pipe after the integers [l] have been written to it and read back. *)
Definition passed (l : list Z) (p : Pipe) : Pipe :=
  mkPipe (stream p ++ l) (length l + consumed p).

(** Main memory between two requests: the array has [MEMORY_SIZE] cells and
    nothing is in flight on either pipe. *)
Definition at_rest (mm : MainMemory) : Prop :=
  length (memory mm) = Z.to_nat MEMORY_SIZE
  /\ idle (readpipe mm) /\ idle (writepipe mm).

(** Main memory after it served a request: [request] crossed one pipe,
    [answer] the other, and the array is now [mem]. *)
Definition served (request answer mem : list Z) (mm : MainMemory)
  : MainMemory :=
  mkMainMemory mem (passed request (readpipe mm)) (passed answer (writepipe mm)).

(** The address is inside the array of main memory. *)
Definition in_memory (address : Z) : bool :=
  (address >=? 0) && (address <? MEMORY_SIZE).

(** The address may be accessed in the given mode. *)
Definition permitted (kernel : bool) (address : Z) : bool :=
  in_memory address
  && (if kernel then address >=? SYS_INDEX else address <? SYS_INDEX).

(** The machine after main memory answered a READ of [address]. *)
Definition after_read (address : Z) (m : Machine) : Machine :=
  let mm := main_memory m in
  with_main_memory
    (served [READ; address] [SUCCESS; cell (memory mm) address] (memory mm) mm)
    m.

(** The machine after main memory carried out a WRITE of [value] at
    [address]. *)
Definition after_write (address value : Z) (m : Machine) : Machine :=
  let mm := main_memory m in
  with_main_memory
    (served [WRITE; address; value] [SUCCESS]
       (<[Z.to_nat address := value]> (memory mm)) mm)
    m.

(** The machine after [pushRegistersOnStack] stored the five registers below
    the stack pointer and lowered it. *)
Definition frame_pushed (m : Machine) : Machine :=
  let r := registers m in
  let sp := r_sp r in
  with_registers (set_reg SP (sp - 5) r)
    (after_write (sp - 5) (r_y r)
      (after_write (sp - 4) (r_x r)
        (after_write (sp - 3) (r_ac r)
          (after_write (sp - 2) (r_ir r)
            (after_write (sp - 1) (r_pc r) m))))).

(** The machine after [popRegistersOnStack] loaded the five registers from
    the cells at the stack pointer and raised it. *)
Definition frame_popped (m : Machine) : Machine :=
  let sp := r_sp (registers m) in
  let mem := memory (main_memory m) in
  with_registers
    (mkRegisters (cell mem (sp + 4)) (cell mem (sp + 3)) (cell mem (sp + 2))
                 (cell mem (sp + 1)) (cell mem sp) (sp + 5))
    (after_read sp
      (after_read (sp + 1)
        (after_read (sp + 2)
          (after_read (sp + 3)
            (after_read (sp + 4) m))))).

(** The entry into an interrupt with its steps in the order in which the
    specification lists them: the stack pointers are swapped and the frame
    is pushed before the mode changes. *)
Definition TriggerInterrupt_as_specified (handlerAddress : Z) : Proc unit :=
  kernel <- gets kernelMode ;;
  enabled <- gets interruptEnabledFlag ;;
  if negb kernel && enabled then
    sp <- get_reg SP ;;
    modify (with_inactive_proc_stack sp) ;;
    ksp <- gets inactive_sys_stack ;;
    put_reg SP ksp ;;
    pushRegistersOnStack ;;
    modify (with_kernelMode true) ;;
    modify (with_interruptEnabledFlag false) ;;
    put_reg PC handlerAddress
  else
    ret tt.

(** The machine once [syscall] has switched to kernel mode, disabled
    interrupts and swapped the stack pointers, before it pushes the frame. *)
Definition mode_switched (m : Machine) : Machine :=
  with_registers (set_reg SP (inactive_sys_stack m) (registers m))
    (with_inactive_proc_stack (reg SP (registers m))
      (with_interruptEnabledFlag false (with_kernelMode true m))).

(** The five WRITE requests of a frame pushed below [sp]. *)
Definition frame_requests (r : RegisterFile) (sp : Z) : list Z :=
  [WRITE; sp - 1; r_pc r; WRITE; sp - 2; r_ir r; WRITE; sp - 3; r_ac r;
   WRITE; sp - 4; r_x r; WRITE; sp - 5; r_y r].

(** Memory after a frame has been stored below [sp]. *)
Definition frame_stored (r : RegisterFile) (sp : Z) (mem : list Z) : list Z :=
  <[Z.to_nat (sp - 5) := r_y r]>
    (<[Z.to_nat (sp - 4) := r_x r]>
      (<[Z.to_nat (sp - 3) := r_ac r]>
        (<[Z.to_nat (sp - 2) := r_ir r]>
          (<[Z.to_nat (sp - 1) := r_pc r]> mem)))).

(** The exit codes that the processor raises by itself: the normal end,
    the three access faults, a bad opcode and a bad port.  The codes
    READ_FAILURE, WRITE_FAILURE and INVALID_MEM_ACTION can only come back
    from main memory as the status of a request. *)
Definition processor_exit (code : Z) : bool :=
  existsb (Z.eqb code)
    [SUCCESS; INVALID_OPCODE; MEMORY_OUT_OF_BOUNDS; KERNEL_MEM_ACCESS_DENIED;
     USER_MEM_ACCESS_DENIED; INVALID_PORT_CALL].

(** Every request in the stream names a cell of the array: the stream is a
    sequence of [READ; address] and [WRITE; address; value] with
    [0 <= address < MEMORY_SIZE]. *)
Fixpoint in_range_requests (l : list Z) : bool :=
  match l with
  | [] => true
  | kind :: address :: rest =>
      if kind =? READ then in_memory address && in_range_requests rest
      else if kind =? WRITE then
        match rest with
        | _ :: rest' => in_memory address && in_range_requests rest'
        | [] => false
        end
      else false
  | _ => false
  end.

(** The property [P] of the machine holds wherever the routine stops, and
    the routine stops by returning, by dividing by zero, or by ending the
    process with an exit code of the processor's own: it does not hang on a
    pipe and does not pass on a failure status of main memory. *)
Definition holds {A} (P : Machine -> Prop) (o : Outcome A) : Prop :=
  match o with
  | Returns _ m | Traps m => P m
  | Exits code m => P m /\ processor_exit code = true
  | Blocks _ => False
  end.

(** The routine keeps the property [P]. *)
Definition preserves {A} (P : Machine -> Prop) (c : Proc A) : Prop :=
  forall m, P m -> holds P (c m).

(** The mode flag and the interrupt flag are opposite: the machine is in
    (User, enabled) or in (Kernel, disabled). *)
Definition flags_paired (kernel enabled : bool) : Prop :=
  enabled = negb kernel.

(** Between two instructions main memory is at rest, every request sent so
    far named a cell of the array, the pair
    (kernelMode, interruptEnabledFlag) satisfies [Q] and the pair
    (interrupt_timer, instruction_counter) satisfies [R]. *)
Definition inv (Q : bool -> bool -> Prop) (R : Z -> Z -> Prop) (m : Machine)
  : Prop :=
  at_rest (main_memory m)
  /\ in_range_requests (stream (readpipe (main_memory m))) = true
  /\ Q (kernelMode m) (interruptEnabledFlag m)
  /\ R (interrupt_timer m) (instruction_counter m).

(** A turn of the loop up to the end of [executeInstruction]. *)
Definition instruction_phase : Proc unit :=
  fetchInstruction ;;
  pc <- get_reg PC ;; put_reg PC (int32 (pc + 1)) ;;
  executeInstruction.

(** [instruction_counter++] *)
Definition count_instruction : Proc unit :=
  counter <- gets instruction_counter ;;
  modify (with_instruction_counter (int32 (counter + 1))).

(** The loop of [run_execution_cycle] with the call of [checkInterrupt]
    left out. *)
Fixpoint run_without_timer (turns : nat) : Proc unit :=
  match turns with
  | O => ret tt
  | S n => instruction_phase ;; count_instruction ;; run_without_timer n
  end.

(** None of the next [turns] instructions is SYSRETURN. *)
Fixpoint avoids_sysreturn (turns : nat) (m : Machine) : Prop :=
  match turns with
  | O => True
  | S n =>
      cell (memory (main_memory m)) (reg PC (registers m)) <> opcode SYSRETURN
      /\ forall m',
           (instruction_phase ;; count_instruction) m = Returns tt m' ->
           avoids_sysreturn n m'
  end.

(** A machine in user mode whose timer is 2 and which has counted three
    instructions; the next one is LOAD_VAL 5. *)
Definition timer_example : Machine :=
  with_interrupt_timer 2
    (with_instruction_counter 3
       (with_registers (mkRegisters 0 0 0 0 0 1000)
          (with_interruptEnabledFlag true
             (with_inactive_sys_stack 2000
                (power_on ([1; 5; 50] ++ replicate 1997 0) (fun _ => 0)))))).

(** The program of the end-to-end scenario: LOAD_VAL 5, STORE 10,
    LOAD_ADDR 10, PUT 1, END. *)
Definition scenario : list Z := [1; 5; 7; 10; 2; 10; 9; 1; 50].

(** A turn of the loop before its timer check. *)
Definition turn : Proc unit := instruction_phase ;; count_instruction.

(** The number of fields of a request as the specification counts them: two
    for a READ and three for a WRITE, in every case. *)
Definition fields_as_specified (kind : Z) : nat :=
  if kind =? WRITE then 3%nat else 2%nat.

(** Main memory reads the fields of the request that waits on the pipe as
    the specification counts them: whenever the handler answers a READ or a
    WRITE, it has read that many fields. *)
Definition reads_fields_as_specified (mm : MainMemory) : Prop :=
  forall (kind : Z) (rest : list Z) (mm' : MainMemory),
    kind = READ \/ kind = WRITE ->
    pending (readpipe mm) = kind :: rest ->
    signalhandler mm = Some mm' ->
    consumed (readpipe mm')
    = (fields_as_specified kind + consumed (readpipe mm))%nat.

(** ** Vocabulary of the further properties *)

(** The machine is in the mode [k], main memory is at rest and its array
    satisfies [M]. *)
Definition confined (k : bool) (M : list Z -> Prop) (m : Machine) : Prop :=
  at_rest (main_memory m) /\ kernelMode m = k /\ M (memory (main_memory m)).

(** The cells of [lo, hi) hold in [mem] what they hold in [mem0]. *)
Definition same_cells (lo hi : Z) (mem0 mem : list Z) : Prop :=
  forall a, lo <= a < hi -> cell mem a = cell mem0 a.

Local Open Scope string_scope.

(** A line of a program file: [indent] spaces, then [text]. *)
Fixpoint indented (indent : nat) (text : string) : string :=
  match indent with
  | O => text
  | S n => String " " (indented n text)
  end.

(** What may follow a number on a line: nothing, or text that does not
    start with a digit. *)
Definition ends_number (rest : string) : Prop :=
  match rest with
  | String c _ => isdigit c = false
  | EmptyString => True
  end.

(** [mem] with [values] stored from [address] on. *)
Definition place (address : Z) (values mem : list Z) : list Z :=
  take (Z.to_nat address) mem ++ values
  ++ drop (Z.to_nat address + length values) mem.

(** A numeral that starts with a digit from 1 to 9. *)
Definition nonzero_head (d : Decimal.uint) : Prop :=
  match d with
  | Decimal.Nil | Decimal.D0 _ => False
  | _ => True
  end.

(** What loading may do to [memory]: a cell keeps its value or receives a
    natural number that fits an [int]. *)
Definition loaded_from (mem0 mem : list Z) : Prop :=
  length mem = length mem0
  /\ forall a, cell mem a = cell mem0 a \/ (0 <= cell mem a <= INT_MAX)%Z.

Local Close Scope string_scope.

(** The parts of the machine that the test routine of debug mode works
    on. *)
Definition snapshot (r : RegisterFile) (k : bool) (s : Z) (mem : list Z)
    (m : Machine) : Prop :=
  at_rest (main_memory m) /\ registers m = r /\ kernelMode m = k
  /\ inactive_sys_stack m = s /\ memory (main_memory m) = mem.

(** The call returns, with a value and a machine that satisfy [P]. *)
Definition returns {A} (P : A -> Machine -> Prop) (o : Outcome A) : Prop :=
  match o with
  | Returns a m => P a m
  | _ => False
  end.

(** The call ends the process with [code], on a machine that satisfies
    [P]. *)
Definition exits {A} (code : Z) (P : Machine -> Prop) (o : Outcome A)
  : Prop :=
  match o with
  | Exits c m => c = code /\ P m
  | _ => False
  end.

(** * Properties *)

(** ** Pipes *)

Section PipeFacts.
Variable p : Pipe.

Lemma pending_read (v : Z) (rest : list Z) :
  pending p = v :: rest ->
  pipe_read p = Some (v, mkPipe (stream p) (S (consumed p))).
Proof.
  unfold pending, pipe_read. intros H.
  assert (E : stream p !! consumed p = Some v).
  { rewrite <- (Nat.add_0_r (consumed p)), <- lookup_drop, H. reflexivity. }
  now rewrite E.
Qed.

Lemma pending_next (v : Z) (rest : list Z) :
  pending p = v :: rest ->
  pending (mkPipe (stream p) (S (consumed p))) = rest.
Proof.
  unfold pending. simpl. intros H.
  assert (E : stream p !! consumed p = Some v).
  { rewrite <- (Nat.add_0_r (consumed p)), <- lookup_drop, H. reflexivity. }
  rewrite (drop_S _ _ _ E) in H. congruence.
Qed.

Lemma pending_idle : idle p -> pending p = [].
Proof. unfold idle, pending. intros ->. apply drop_all. Qed.

Lemma pending_passed (l : list Z) :
  idle p -> pending (mkPipe (stream p ++ l) (consumed p)) = l.
Proof.
  unfold idle, pending. simpl. intros ->.
  rewrite drop_app_length. reflexivity.
Qed.

Lemma idle_passed (l : list Z) : idle p -> idle (passed l p).
Proof.
  unfold idle, passed. simpl. intros ->. rewrite length_app. lia.
Qed.
End PipeFacts.

Lemma pending_at (s l1 l2 : list Z) :
  pending (mkPipe (s ++ l1 ++ l2) (length l1 + length s)) = l2.
Proof.
  unfold pending. simpl. rewrite app_assoc.
  replace (length l1 + length s)%nat with (length (s ++ l1))
    by (rewrite length_app; lia).
  apply drop_app_length.
Qed.

(** ** Main memory *)

Lemma in_memory_spec (a : Z) : in_memory a = true <-> 0 <= a < 2000.
Proof. unfold in_memory, MEMORY_SIZE. lia. Qed.

Lemma in_memory_false (a : Z) : in_memory a = false <-> a < 0 \/ 2000 <= a.
Proof. unfold in_memory, MEMORY_SIZE. lia. Qed.

(** The handler on a READ request that is waiting on the pipe. *)
Lemma signalhandler_READ (mm : MainMemory) (a : Z) (rest : list Z) :
  pending (readpipe mm) = READ :: a :: rest ->
  signalhandler mm =
    Some (mkMainMemory (memory mm)
            (mkPipe (stream (readpipe mm)) (S (S (consumed (readpipe mm)))))
            (if in_memory a
             then pipe_write (cell (memory mm) a)
                    (pipe_write SUCCESS (writepipe mm))
             else pipe_write READ_FAILURE (writepipe mm))).
Proof.
  intros H. unfold signalhandler.
  rewrite (pending_read _ _ _ H).
  rewrite (pending_read _ _ _ (pending_next _ _ _ H)). simpl.
  fold (in_memory a). destruct (in_memory a); reflexivity.
Qed.

(** The handler on a WRITE request that is waiting on the pipe. *)
Lemma signalhandler_WRITE (mm : MainMemory) (a v : Z) (rest : list Z) :
  pending (readpipe mm) = WRITE :: a :: v :: rest ->
  signalhandler mm =
    Some (if in_memory a
          then mkMainMemory (<[Z.to_nat a := v]> (memory mm))
                 (mkPipe (stream (readpipe mm))
                         (S (S (S (consumed (readpipe mm))))))
                 (pipe_write SUCCESS (writepipe mm))
          else mkMainMemory (memory mm)
                 (mkPipe (stream (readpipe mm)) (S (S (consumed (readpipe mm)))))
                 (pipe_write WRITE_FAILURE (writepipe mm))).
Proof.
  intros H. unfold signalhandler.
  rewrite (pending_read _ _ _ H).
  pose proof (pending_next _ _ _ H) as H1.
  rewrite (pending_read _ _ _ H1).
  pose proof (pending_next _ _ _ H1) as H2. simpl in H2 |- *.
  fold (in_memory a). destruct (in_memory a); [|reflexivity].
  rewrite (pending_read _ _ _ H2). reflexivity.
Qed.

(** C6. A request for an address outside [0, 2000) is refused by main
    memory: a READ is answered by the single field READ_FAILURE, a WRITE by
    WRITE_FAILURE with the array left as it was.  A request for an address
    inside [0, 2000) is answered with SUCCESS (followed by the cell for a
    READ), whatever the mode of the processor that sent the signal. *)
Theorem memory_store_bounds (mm : MainMemory) (a v : Z) (rest : list Z) :
  ((a < 0 \/ 2000 <= a) ->
   pending (readpipe mm) = READ :: a :: rest ->
   exists mm', signalhandler mm = Some mm'
     /\ stream (writepipe mm') = stream (writepipe mm) ++ [READ_FAILURE]
     /\ memory mm' = memory mm)
  /\
  ((a < 0 \/ 2000 <= a) ->
   pending (readpipe mm) = WRITE :: a :: v :: rest ->
   exists mm', signalhandler mm = Some mm'
     /\ stream (writepipe mm') = stream (writepipe mm) ++ [WRITE_FAILURE]
     /\ memory mm' = memory mm)
  /\
  (0 <= a < 2000 ->
   pending (readpipe mm) = READ :: a :: rest ->
   exists mm', signalhandler mm = Some mm'
     /\ stream (writepipe mm') =
          stream (writepipe mm) ++ [SUCCESS; cell (memory mm) a]
     /\ memory mm' = memory mm
     /\ forall m : Machine, main_memory m = mm ->
          kill_SIGINT m = Returns tt (with_main_memory mm' m))
  /\
  (0 <= a < 2000 ->
   pending (readpipe mm) = WRITE :: a :: v :: rest ->
   exists mm', signalhandler mm = Some mm'
     /\ stream (writepipe mm') = stream (writepipe mm) ++ [SUCCESS]
     /\ memory mm' = <[Z.to_nat a := v]> (memory mm)
     /\ forall m : Machine, main_memory m = mm ->
          kill_SIGINT m = Returns tt (with_main_memory mm' m)).
Proof.
  repeat split; intros Ha Hp.
  - apply in_memory_false in Ha.
    rewrite (signalhandler_READ _ _ _ Hp), Ha.
    eexists; split; [reflexivity|]. simpl. auto.
  - apply in_memory_false in Ha.
    rewrite (signalhandler_WRITE _ _ _ _ Hp), Ha.
    eexists; split; [reflexivity|]. simpl. auto.
  - apply in_memory_spec in Ha.
    pose proof (signalhandler_READ _ _ _ Hp) as E. rewrite Ha in E.
    eexists; split; [exact E|]. simpl.
    rewrite <- app_assoc. repeat split.
    intros m <-. unfold kill_SIGINT. now rewrite E.
  - apply in_memory_spec in Ha.
    pose proof (signalhandler_WRITE _ _ _ _ Hp) as E. rewrite Ha in E.
    eexists; split; [exact E|]. simpl. repeat split.
    intros m <-. unfold kill_SIGINT. now rewrite E.
Qed.

Lemma memory_store_bounds_witness :
  exists mm',
    signalhandler (mkMainMemory [4; 5; 6] (mkPipe [WRITE; 2000; 9] 0) empty_pipe)
      = Some mm'
    /\ stream (writepipe mm') = [WRITE_FAILURE]
    /\ memory mm' = [4; 5; 6].
Proof.
  apply (proj1 (proj2 (memory_store_bounds
           (mkMainMemory [4; 5; 6] (mkPipe [WRITE; 2000; 9] 0) empty_pipe)
           2000 9 []))).
  - right. lia.
  - reflexivity.
Defined.

(** ** Access control *)

Lemma verifyAccess_Check (a : Z) (m : Machine) :
  verifyAccess a m = enforce (Check a (mode_of m)) m.
Proof.
  unfold verifyAccess, Check, mode_of, bind, when, gets, ret.
  unfold MEMORY_SIZE, SYS_INDEX.
  destruct (a <? 0), (a >=? 2000), (a >=? 1000), (a <? 1000); cbn;
    destruct (kernelMode m) eqn:K; cbn; rewrite ?K; reflexivity.
Qed.

(** C1. [verifyAccess] applies the rules of [Check] in their order and stops
    at the first that matches: outside [0, 2000) the process ends with
    MEMORY_OUT_OF_BOUNDS; else from 1000 up in user mode it ends with
    KERNEL_MEM_ACCESS_DENIED; else below 1000 in kernel mode it ends with
    USER_MEM_ACCESS_DENIED; else the call returns.  In particular every
    address of [0, 1000) is refused in kernel mode with UserDenied. *)
Theorem verifyAccess_rules (a : Z) (m : Machine) :
  verifyAccess a m = enforce (Check a (mode_of m)) m
  /\ ((a < 0 \/ a >= 2000) -> Check a (mode_of m) = OutOfBounds)
  /\ (0 <= a < 2000 -> a >= 1000 -> mode_of m = User ->
      Check a (mode_of m) = KernelDenied)
  /\ (0 <= a < 2000 -> a < 1000 -> mode_of m = Kernel ->
      Check a (mode_of m) = UserDenied)
  /\ (0 <= a < 1000 -> mode_of m = User -> Check a (mode_of m) = Ok)
  /\ (1000 <= a < 2000 -> mode_of m = Kernel -> Check a (mode_of m) = Ok)
  /\ (0 <= a < 1000 -> kernelMode m = true ->
      verifyAccess a m = endProcess USER_MEM_ACCESS_DENIED m).
Proof.
  pose proof (verifyAccess_Check a m) as E.
  split; [exact E|].
  repeat split.
  - intros H. unfold Check.
    destruct (a <? 0) eqn:E1, (a >=? 2000) eqn:E2; try reflexivity; lia.
  - intros H1 H2 ->. unfold Check.
    destruct (a <? 0) eqn:E1, (a >=? 2000) eqn:E2, (a >=? 1000) eqn:E3;
      try reflexivity; lia.
  - intros H1 H2 ->. unfold Check.
    destruct (a <? 0) eqn:E1, (a >=? 2000) eqn:E2, (a >=? 1000) eqn:E3,
             (a <? 1000) eqn:E4; try reflexivity; lia.
  - intros H1 ->. unfold Check.
    destruct (a <? 0) eqn:E1, (a >=? 2000) eqn:E2, (a >=? 1000) eqn:E3,
             (a <? 1000) eqn:E4; try reflexivity; lia.
  - intros H1 ->. unfold Check.
    destruct (a <? 0) eqn:E1, (a >=? 2000) eqn:E2, (a >=? 1000) eqn:E3,
             (a <? 1000) eqn:E4; try reflexivity; lia.
  - intros H1 H2. rewrite E. unfold Check, mode_of. rewrite H2.
    destruct (a <? 0) eqn:E1, (a >=? 2000) eqn:E2, (a >=? 1000) eqn:E3,
             (a <? 1000) eqn:E4; try reflexivity; lia.
Qed.

Lemma verifyAccess_rules_witness :
  verifyAccess 10 (with_kernelMode true (power_on [] (fun _ => 0)))
  = endProcess USER_MEM_ACCESS_DENIED
      (with_kernelMode true (power_on [] (fun _ => 0))).
Proof.
  apply (verifyAccess_rules 10 (with_kernelMode true (power_on [] (fun _ => 0)))).
  - lia.
  - reflexivity.
Defined.

(** ** Memory accesses of the processor *)

Lemma permitted_Check (a : Z) (m : Machine) :
  permitted (kernelMode m) a = true <-> Check a (mode_of m) = Ok.
Proof.
  unfold permitted, in_memory, Check, mode_of, MEMORY_SIZE, SYS_INDEX.
  destruct (kernelMode m); simpl;
    destruct (a <? 0) eqn:E1, (a >=? 2000) eqn:E2, (a >=? 1000) eqn:E3,
             (a <? 1000) eqn:E4, (a >=? 0) eqn:E5, (a <? 2000) eqn:E6;
    simpl; split; intros; try reflexivity; try discriminate; lia.
Qed.

Lemma verifyAccess_permitted (a : Z) (m : Machine) :
  permitted (kernelMode m) a = true -> verifyAccess a m = Returns tt m.
Proof.
  intros H. apply permitted_Check in H.
  now rewrite verifyAccess_Check, H.
Qed.

Lemma verifyAccess_denied (a : Z) (m : Machine) :
  permitted (kernelMode m) a = false ->
  exists code,
    verifyAccess a m = endProcess code m /\ processor_exit code = true.
Proof.
  intros H. rewrite verifyAccess_Check.
  destruct (Check a (mode_of m)) eqn:E; simpl; eauto.
  apply permitted_Check in E. congruence.
Qed.

Lemma receive_pending (m : Machine) (v : Z) (rest : list Z) :
  pending (writepipe (main_memory m)) = v :: rest ->
  receive m =
    Returns v
      (with_main_memory
         (mkMainMemory (memory (main_memory m)) (readpipe (main_memory m))
            (mkPipe (stream (writepipe (main_memory m)))
                    (S (consumed (writepipe (main_memory m)))))) m).
Proof.
  intros H. unfold receive. now rewrite (pending_read _ _ _ H).
Qed.

Lemma readMemory_permitted (a : Z) (m : Machine) :
  at_rest (main_memory m) ->
  permitted (kernelMode m) a = true ->
  readMemory a m = Returns (cell (memory (main_memory m)) a) (after_read a m).
Proof.
  intros (Hlen & Hr & Hw) Hp.
  assert (Hin : in_memory a = true).
  { unfold permitted in Hp. now destruct (in_memory a). }
  unfold readMemory. unfold bind at 1.
  rewrite (verifyAccess_permitted _ _ Hp).
  destruct m as [r t c iss ips ie k [mem [s1 c1] [s2 c2]] con rs rc].
  unfold idle in Hr, Hw. simpl in Hlen, Hr, Hw, Hp |- *. subst c1 c2.
  cbn [bind send modify main_memory memory readpipe writepipe with_main_memory
       registers interrupt_timer instruction_counter inactive_sys_stack
       inactive_proc_stack interruptEnabledFlag kernelMode console rand_source
       rand_calls pipe_write stream consumed].
  unfold bind at 1. unfold kill_SIGINT.
  cbn [main_memory with_main_memory].
  rewrite (signalhandler_READ _ a []), Hin
    by (unfold pipe_write; simpl; rewrite <- app_assoc; exact (pending_at s1 [] [READ; a])).
  cbn [memory readpipe writepipe stream consumed main_memory with_main_memory
       registers interrupt_timer instruction_counter inactive_sys_stack
       inactive_proc_stack interruptEnabledFlag kernelMode console rand_source
       rand_calls pipe_write].
  unfold bind at 1.
  rewrite (receive_pending _ SUCCESS [cell mem a])
    by (unfold pipe_write; simpl; rewrite <- app_assoc; exact (pending_at s2 [] [SUCCESS; cell mem a])).
  cbn [memory readpipe writepipe stream consumed main_memory with_main_memory
       registers interrupt_timer instruction_counter inactive_sys_stack
       inactive_proc_stack interruptEnabledFlag kernelMode console rand_source
       rand_calls pipe_write].
  change (negb (SUCCESS =? SUCCESS)) with false. cbn [when bind ret].
  rewrite (receive_pending _ (cell mem a) [])
    by (unfold pipe_write; simpl; rewrite <- app_assoc; exact (pending_at s2 [SUCCESS] [cell mem a])).
  unfold after_read, served, passed. simpl. rewrite <- !app_assoc.
  reflexivity.
Qed.

Lemma writeMemory_permitted (a v : Z) (m : Machine) :
  at_rest (main_memory m) ->
  permitted (kernelMode m) a = true ->
  writeMemory a v m = Returns tt (after_write a v m).
Proof.
  intros (Hlen & Hr & Hw) Hp.
  assert (Hin : in_memory a = true).
  { unfold permitted in Hp. now destruct (in_memory a). }
  unfold writeMemory. unfold bind at 1.
  rewrite (verifyAccess_permitted _ _ Hp).
  destruct m as [r t c iss ips ie k [mem [s1 c1] [s2 c2]] con rs rc].
  unfold idle in Hr, Hw. simpl in Hlen, Hr, Hw, Hp |- *. subst c1 c2.
  cbn [bind send modify main_memory memory readpipe writepipe with_main_memory
       registers interrupt_timer instruction_counter inactive_sys_stack
       inactive_proc_stack interruptEnabledFlag kernelMode console rand_source
       rand_calls pipe_write stream consumed].
  unfold bind at 1. unfold kill_SIGINT.
  cbn [main_memory with_main_memory].
  rewrite (signalhandler_WRITE _ a v []), Hin
    by (unfold pipe_write; simpl; rewrite <- !app_assoc;
        exact (pending_at s1 [] [WRITE; a; v])).
  cbn [memory readpipe writepipe stream consumed main_memory with_main_memory
       registers interrupt_timer instruction_counter inactive_sys_stack
       inactive_proc_stack interruptEnabledFlag kernelMode console rand_source
       rand_calls pipe_write].
  unfold bind at 1.
  rewrite (receive_pending _ SUCCESS [])
    by (unfold pipe_write; simpl; exact (pending_at s2 [] [SUCCESS])).
  cbn [memory readpipe writepipe stream consumed main_memory with_main_memory
       registers interrupt_timer instruction_counter inactive_sys_stack
       inactive_proc_stack interruptEnabledFlag kernelMode console rand_source
       rand_calls pipe_write].
  change (negb (SUCCESS =? SUCCESS)) with false. cbn [when bind ret].
  unfold after_write, served, passed. simpl. rewrite <- !app_assoc.
  reflexivity.
Qed.

Lemma at_rest_after_read (a : Z) (m : Machine) :
  at_rest (main_memory m) -> at_rest (main_memory (after_read a m)).
Proof.
  intros (Hlen & Hr & Hw). unfold after_read, served, at_rest. simpl.
  auto using idle_passed.
Qed.

Lemma at_rest_after_write (a v : Z) (m : Machine) :
  at_rest (main_memory m) -> at_rest (main_memory (after_write a v m)).
Proof.
  intros (Hlen & Hr & Hw). unfold after_write, served, at_rest. simpl.
  rewrite length_insert. auto using idle_passed.
Qed.

(** A memory access that is not permitted ends the process before anything
    is written to the pipe. *)
Lemma readMemory_denied (a : Z) (m : Machine) :
  permitted (kernelMode m) a = false ->
  exists code,
    readMemory a m = endProcess code m /\ processor_exit code = true.
Proof.
  intros H. destruct (verifyAccess_denied _ _ H) as (code & E & Hc).
  exists code. split; [|exact Hc].
  unfold readMemory. unfold bind at 1. now rewrite E.
Qed.

Lemma writeMemory_denied (a v : Z) (m : Machine) :
  permitted (kernelMode m) a = false ->
  exists code,
    writeMemory a v m = endProcess code m /\ processor_exit code = true.
Proof.
  intros H. destruct (verifyAccess_denied _ _ H) as (code & E & Hc).
  exists code. split; [|exact Hc].
  unfold writeMemory. unfold bind at 1. now rewrite E.
Qed.

Lemma int32_small (z : Z) : INT_MIN <= z <= INT_MAX -> int32 z = z.
Proof.
  unfold INT_MIN, INT_MAX, int32. intros H.
  rewrite Z.mod_small; lia.
Qed.

Lemma cell_insert_eq (mem : list Z) (a v : Z) :
  (Z.to_nat a < length mem)%nat -> cell (<[Z.to_nat a := v]> mem) a = v.
Proof. intros H. unfold cell. now rewrite list_lookup_insert_eq. Qed.

Lemma cell_insert_ne (mem : list Z) (a b v : Z) :
  Z.to_nat a <> Z.to_nat b -> cell (<[Z.to_nat a := v]> mem) b = cell mem b.
Proof. intros H. unfold cell. now rewrite list_lookup_insert_ne. Qed.

(** ** Saving and restoring the register frame *)

Lemma permitted_range (k : bool) (a : Z) :
  permitted k a = true ->
  0 <= a < 2000 /\ (if k then 1000 <= a else a < 1000).
Proof.
  unfold permitted, in_memory, MEMORY_SIZE, SYS_INDEX. destruct k; lia.
Qed.

Lemma permitted_between (k : bool) (lo hi a : Z) :
  permitted k lo = true -> permitted k hi = true -> lo <= a <= hi ->
  permitted k a = true.
Proof.
  unfold permitted, in_memory, MEMORY_SIZE, SYS_INDEX. destruct k; lia.
Qed.

Lemma registers_after_write (a v : Z) (m : Machine) :
  registers (after_write a v m) = registers m.
Proof. reflexivity. Qed.

Lemma kernelMode_after_write (a v : Z) (m : Machine) :
  kernelMode (after_write a v m) = kernelMode m.
Proof. reflexivity. Qed.

Lemma registers_after_read (a : Z) (m : Machine) :
  registers (after_read a m) = registers m.
Proof. reflexivity. Qed.

Lemma kernelMode_after_read (a : Z) (m : Machine) :
  kernelMode (after_read a m) = kernelMode m.
Proof. reflexivity. Qed.

Lemma memory_after_read (a : Z) (m : Machine) :
  memory (main_memory (after_read a m)) = memory (main_memory m).
Proof. reflexivity. Qed.

Lemma pushRegistersOnStack_permitted (m : Machine) :
  at_rest (main_memory m) ->
  permitted (kernelMode m) (r_sp (registers m) - 1) = true ->
  permitted (kernelMode m) (r_sp (registers m) - 5) = true ->
  pushRegistersOnStack m = Returns tt (frame_pushed m).
Proof.
  intros Hr P1 P5.
  pose proof (permitted_range _ _ P1) as [R1 _].
  pose proof (permitted_range _ _ P5) as [R5 _].
  assert (P : forall i, 1 <= i <= 5 ->
            permitted (kernelMode m) (int32 (r_sp (registers m) - i)) = true).
  { intros i Hi. rewrite int32_small by (unfold INT_MIN, INT_MAX; lia).
    apply (permitted_between _ _ _ _ P5 P1). lia. }
  unfold pushRegistersOnStack.
  change (seq 1 (REGCOUNT - 1)) with [1; 2; 3; 4; 5]%nat.
  cbn [for_each].
  unfold bind, get_reg, gets, put_reg, modify, ret.
  cbn [Z.of_nat Pos.of_succ_nat Pos.succ Nat.sub reg SP].
  do 5 (rewrite ?registers_after_write;
        rewrite writeMemory_permitted
          by (rewrite ?kernelMode_after_write;
              auto using at_rest_after_write with zarith);
        cbv beta iota).
  rewrite ?registers_after_write.
  change (Z.of_nat REGCOUNT - 1) with 5.
  rewrite !int32_small by (unfold INT_MIN, INT_MAX; lia).
  reflexivity.
Qed.

Lemma main_memory_with_registers (r : RegisterFile) (m : Machine) :
  main_memory (with_registers r m) = main_memory m.
Proof. reflexivity. Qed.

Lemma at_rest_with_registers (r : RegisterFile) (m : Machine) :
  at_rest (main_memory m) -> at_rest (main_memory (with_registers r m)).
Proof. exact (fun H => H). Qed.

Lemma kernelMode_with_registers (r : RegisterFile) (m : Machine) :
  kernelMode (with_registers r m) = kernelMode m.
Proof. reflexivity. Qed.

Lemma popRegistersOnStack_permitted (m : Machine) :
  at_rest (main_memory m) ->
  permitted (kernelMode m) (r_sp (registers m)) = true ->
  permitted (kernelMode m) (r_sp (registers m) + 4) = true ->
  popRegistersOnStack m = Returns tt (frame_popped m).
Proof.
  intros Hr P0 P4.
  pose proof (permitted_range _ _ P0) as [R0 _].
  pose proof (permitted_range _ _ P4) as [R4 _].
  set (sp := r_sp (registers m)) in *.
  assert (E : forall i d, sp + 5 - i = sp + d -> 0 <= d <= 4 ->
            int32 (sp + Z.of_nat REGCOUNT - 1 - i) = sp + d).
  { intros i d Hi Hd. change (Z.of_nat REGCOUNT) with 6.
    rewrite int32_small by (unfold INT_MIN, INT_MAX; lia). lia. }
  pose proof (E 1 4 ltac:(lia) ltac:(lia)) as E1.
  pose proof (E 2 3 ltac:(lia) ltac:(lia)) as E2.
  pose proof (E 3 2 ltac:(lia) ltac:(lia)) as E3.
  pose proof (E 4 1 ltac:(lia) ltac:(lia)) as E4.
  pose proof (E 5 0 ltac:(lia) ltac:(lia)) as E5.
  rewrite Z.add_0_r in E5. clear E.
  assert (P : forall d, 0 <= d <= 4 ->
            permitted (kernelMode m) (sp + d) = true).
  { intros d Hd. apply (permitted_between _ _ _ _ P0 P4). lia. }
  unfold popRegistersOnStack.
  change (seq 1 (REGCOUNT - 1)) with [1; 2; 3; 4; 5]%nat.
  cbn [for_each].
  unfold bind, get_reg, gets, put_reg, modify, ret.
  change (Z.of_nat 1) with 1. change (Z.of_nat 2) with 2.
  change (Z.of_nat 3) with 3. change (Z.of_nat 4) with 4.
  change (Z.of_nat 5) with 5.
  cbn [Nat.sub reg SP].
  do 5 (repeat (progress cbn [registers with_registers set_reg r_sp]
                || rewrite registers_after_read);
        fold sp; rewrite ?E1, ?E2, ?E3, ?E4, ?E5;
        rewrite readMemory_permitted
          by first
            [ solve [repeat (apply at_rest_with_registers
                             || apply at_rest_after_read); assumption]
            | rewrite ?kernelMode_with_registers, ?kernelMode_after_read;
              first [ exact P0 | apply P; lia ] ];
        cbv beta iota).
  repeat (progress cbn [registers with_registers set_reg r_sp]
          || rewrite registers_after_read).
  fold sp. change (Z.of_nat REGCOUNT - 1) with 5.
  rewrite int32_small by (unfold INT_MIN, INT_MAX; lia).
  reflexivity.
Qed.

Lemma at_rest_frame_pushed (m : Machine) :
  at_rest (main_memory m) -> at_rest (main_memory (frame_pushed m)).
Proof.
  intros H. unfold frame_pushed.
  apply at_rest_with_registers. now repeat apply at_rest_after_write.
Qed.

(** C7. When the five cells below the stack pointer may be accessed in the
    current mode, [pushRegistersOnStack] followed at once by
    [popRegistersOnStack] returns with every register, the stack pointer
    included, holding the value it had before. *)
Theorem push_pop_frame (m : Machine) :
  at_rest (main_memory m) ->
  permitted (kernelMode m) (reg SP (registers m) - 1) = true ->
  permitted (kernelMode m) (reg SP (registers m) - 5) = true ->
  exists m1 m2,
    pushRegistersOnStack m = Returns tt m1
    /\ reg SP (registers m1) = reg SP (registers m) - 5
    /\ popRegistersOnStack m1 = Returns tt m2
    /\ (pushRegistersOnStack ;; popRegistersOnStack) m = Returns tt m2
    /\ registers m2 = registers m.
Proof.
  cbn [reg SP]. intros Hr P1 P5.
  pose proof (pushRegistersOnStack_permitted m Hr P1 P5) as Epush.
  assert (Epop : popRegistersOnStack (frame_pushed m)
                 = Returns tt (frame_popped (frame_pushed m))).
  { apply popRegistersOnStack_permitted.
    - now apply at_rest_frame_pushed.
    - exact P5.
    - change (r_sp (registers (frame_pushed m)))
        with (r_sp (registers m) - 5).
      replace (r_sp (registers m) - 5 + 4) with (r_sp (registers m) - 1)
        by lia.
      exact P1. }
  exists (frame_pushed m), (frame_popped (frame_pushed m)).
  repeat split; try assumption.
  - unfold bind. now rewrite Epush.
  - destruct Hr as (Hlen & _ & _).
    pose proof (permitted_range _ _ P1) as [R1 _].
    pose proof (permitted_range _ _ P5) as [R5 _].
    destruct m as [[pc ir ac x y sp] t c iss ips ie k [mem rp wp] con rs rc].
    cbn in Hlen, R1, R5 |- *. unfold MEMORY_SIZE in Hlen.
    replace (sp - 5 + 4) with (sp - 1) by lia.
    replace (sp - 5 + 3) with (sp - 2) by lia.
    replace (sp - 5 + 2) with (sp - 3) by lia.
    replace (sp - 5 + 1) with (sp - 4) by lia.
    replace (sp - 5 + 5) with sp by lia.
    f_equal;
      repeat (rewrite cell_insert_ne by lia);
      rewrite cell_insert_eq by (rewrite ?length_insert; lia);
      reflexivity.
Qed.

Lemma push_pop_frame_witness :
  exists m1 m2,
    pushRegistersOnStack
      (with_registers (mkRegisters 7 9 20 30 40 500)
         (power_on (replicate 2000 0) (fun _ => 0))) = Returns tt m1
    /\ reg SP (registers m1) = 500 - 5
    /\ popRegistersOnStack m1 = Returns tt m2
    /\ (pushRegistersOnStack ;; popRegistersOnStack)
         (with_registers (mkRegisters 7 9 20 30 40 500)
            (power_on (replicate 2000 0) (fun _ => 0))) = Returns tt m2
    /\ registers m2 = mkRegisters 7 9 20 30 40 500.
Proof.
  apply (push_pop_frame
           (with_registers (mkRegisters 7 9 20 30 40 500)
              (power_on (replicate 2000 0) (fun _ => 0)))).
  - repeat split.
  - reflexivity.
  - reflexivity.
Defined.

(** ** Entering an interrupt *)

Lemma syscall_switches (h : Z) (m : Machine) :
  kernelMode m = false -> interruptEnabledFlag m = true ->
  syscall h m = (pushRegistersOnStack ;; put_reg PC h) (mode_switched m).
Proof.
  intros Hk He. unfold syscall.
  unfold bind at 1.
  change (gets interruptEnabledFlag m)
    with (Returns (A := bool) (interruptEnabledFlag m) m).
  rewrite He. cbv beta iota. unfold bind at 1.
  change (gets kernelMode m) with (Returns (A := bool) (kernelMode m) m).
  rewrite Hk. reflexivity.
Qed.

Lemma syscall_dropped (h : Z) (m : Machine) :
  kernelMode m = true -> syscall h m = Returns tt m.
Proof.
  intros Hk. unfold syscall. unfold bind at 1.
  change (gets interruptEnabledFlag m)
    with (Returns (A := bool) (interruptEnabledFlag m) m).
  destruct (interruptEnabledFlag m); [|reflexivity].
  cbv beta iota. unfold bind at 1.
  change (gets kernelMode m) with (Returns (A := bool) (kernelMode m) m).
  now rewrite Hk.
Qed.

Lemma syscall_disabled (h : Z) (m : Machine) :
  interruptEnabledFlag m = false -> syscall h m = Returns tt m.
Proof.
  intros He. unfold syscall. unfold bind at 1.
  change (gets interruptEnabledFlag m)
    with (Returns (A := bool) (interruptEnabledFlag m) m).
  now rewrite He.
Qed.

Lemma frame_pushed_wire (m : Machine) :
  stream (readpipe (main_memory (frame_pushed m)))
  = stream (readpipe (main_memory m))
    ++ frame_requests (registers m) (r_sp (registers m))
  /\ stream (writepipe (main_memory (frame_pushed m)))
     = stream (writepipe (main_memory m))
       ++ [SUCCESS; SUCCESS; SUCCESS; SUCCESS; SUCCESS]
  /\ memory (main_memory (frame_pushed m))
     = frame_stored (registers m) (r_sp (registers m))
         (memory (main_memory m)).
Proof.
  unfold frame_pushed, frame_requests, frame_stored. cbn.
  rewrite <- !app_assoc. repeat split.
Qed.

(** C3 (amended). In user mode with interrupts enabled, [syscall] first sets
    kernel mode and disables interrupts, then saves the stack pointer as the
    inactive user stack pointer and loads the kernel one, then pushes the
    frame, and last sets PC to the handler.  The five stores of the frame are
    ordinary WRITE requests checked in kernel mode: when the five cells
    below the kernel stack pointer are kernel cells they cross the pipe in
    register order and the call returns; when the first of them is not, the
    process ends before anything is sent. *)
Theorem syscall_mode_switch (h : Z) (m : Machine) :
  kernelMode m = false ->
  interruptEnabledFlag m = true ->
  at_rest (main_memory m) ->
  let ksp := inactive_sys_stack m in
  syscall h m = (pushRegistersOnStack ;; put_reg PC h) (mode_switched m)
  /\ (permitted true (ksp - 1) = true -> permitted true (ksp - 5) = true ->
      exists m',
        syscall h m = Returns tt m'
        /\ kernelMode m' = true /\ interruptEnabledFlag m' = false
        /\ inactive_proc_stack m' = reg SP (registers m)
        /\ registers m' =
             mkRegisters h (reg IR (registers m)) (reg AC (registers m))
               (reg X (registers m)) (reg Y (registers m)) (ksp - 5)
        /\ stream (readpipe (main_memory m'))
           = stream (readpipe (main_memory m))
             ++ frame_requests (registers m) ksp
        /\ stream (writepipe (main_memory m'))
           = stream (writepipe (main_memory m))
             ++ [SUCCESS; SUCCESS; SUCCESS; SUCCESS; SUCCESS]
        /\ memory (main_memory m')
           = frame_stored (registers m) ksp (memory (main_memory m))
        /\ at_rest (main_memory m'))
  /\ (permitted true (int32 (ksp - 1)) = false ->
      exists code,
        syscall h m = endProcess code (mode_switched m)).
Proof.
  intros Hk He Hr ksp.
  pose proof (syscall_switches h m Hk He) as E.
  split; [exact E|]. split.
  - intros P1 P5.
    assert (Hpush : pushRegistersOnStack (mode_switched m)
                    = Returns tt (frame_pushed (mode_switched m))).
    { apply pushRegistersOnStack_permitted; [exact Hr | exact P1 | exact P5]. }
    set (m1 := frame_pushed (mode_switched m)) in *.
    exists (with_registers (set_reg PC h (registers m1)) m1).
    split.
    { rewrite E. unfold bind. rewrite Hpush. reflexivity. }
    rewrite main_memory_with_registers.
    destruct (frame_pushed_wire (mode_switched m)) as (W1 & W2 & W3).
    fold m1 in W1, W2, W3. rewrite W1, W2, W3.
    split; [reflexivity|]. split; [reflexivity|]. split; [reflexivity|].
    split; [reflexivity|]. split; [reflexivity|]. split; [reflexivity|].
    split; [reflexivity|].
    now apply at_rest_frame_pushed.
  - intros P1.
    destruct (writeMemory_denied (int32 (ksp - 1)) (reg PC (registers m))
                (mode_switched m) P1) as (code & Ew & _).
    exists code. rewrite E.
    unfold bind at 1, pushRegistersOnStack.
    change (seq 1 (REGCOUNT - 1)) with [1; 2; 3; 4; 5]%nat.
    cbn [for_each]. unfold bind at 1. unfold bind at 1.
    unfold bind at 1.
    change (get_reg SP (mode_switched m)) with (Returns ksp (mode_switched m)).
    cbv beta iota. unfold bind at 1.
    change (get_reg (1 - 1) (mode_switched m))
      with (Returns (reg PC (registers m)) (mode_switched m)).
    cbv beta iota. change (Z.of_nat 1) with 1.
    rewrite Ew. reflexivity.
Qed.

Lemma syscall_mode_switch_witness :
  exists m',
    syscall INT_INDEX
      (with_registers (mkRegisters 7 29 20 30 40 990)
         (with_interruptEnabledFlag true
            (with_inactive_sys_stack 2000
               (power_on (replicate 2000 0) (fun _ => 0))))) = Returns tt m'
    /\ kernelMode m' = true /\ interruptEnabledFlag m' = false
    /\ inactive_proc_stack m' = 990
    /\ registers m' = mkRegisters INT_INDEX 29 20 30 40 (2000 - 5)
    /\ stream (readpipe (main_memory m'))
       = [] ++ frame_requests (mkRegisters 7 29 20 30 40 990) 2000
    /\ stream (writepipe (main_memory m'))
       = [1] ++ [SUCCESS; SUCCESS; SUCCESS; SUCCESS; SUCCESS]
    /\ memory (main_memory m')
       = frame_stored (mkRegisters 7 29 20 30 40 990) 2000 (replicate 2000 0)
    /\ at_rest (main_memory m').
Proof.
  apply (syscall_mode_switch INT_INDEX
           (with_registers (mkRegisters 7 29 20 30 40 990)
              (with_interruptEnabledFlag true
                 (with_inactive_sys_stack 2000
                    (power_on (replicate 2000 0) (fun _ => 0)))))).
  - reflexivity.
  - reflexivity.
  - repeat split.
  - reflexivity.
  - reflexivity.
Defined.

(** C3 (as stated). With the steps in the order of the specification the
    frame would be pushed on the kernel stack while the machine is still in
    user mode, and the first store would be refused; [syscall] returns in
    kernel mode on the same machine. *)
Lemma syscall_not_in_specified_order :
  let m := with_interruptEnabledFlag true
             (with_inactive_sys_stack 2000
                (with_registers (mkRegisters 7 29 20 30 40 990)
                   (power_on (replicate 2000 0) (fun _ => 0)))) in
  mode_of m = User /\ interruptEnabledFlag m = true
  /\ (exists m', syscall INT_INDEX m = Returns tt m' /\ mode_of m' = Kernel)
  /\ (exists m', TriggerInterrupt_as_specified INT_INDEX m
                 = Exits KERNEL_MEM_ACCESS_DENIED m')
  /\ syscall INT_INDEX m <> TriggerInterrupt_as_specified INT_INDEX m.
Proof.
  cbv zeta.
  assert (E1 : exists m',
             syscall INT_INDEX
               (with_interruptEnabledFlag true
                  (with_inactive_sys_stack 2000
                     (with_registers (mkRegisters 7 29 20 30 40 990)
                        (power_on (replicate 2000 0) (fun _ => 0)))))
             = Returns tt m' /\ mode_of m' = Kernel).
  { eexists. split; vm_compute; reflexivity. }
  assert (E2 : exists m',
             TriggerInterrupt_as_specified INT_INDEX
               (with_interruptEnabledFlag true
                  (with_inactive_sys_stack 2000
                     (with_registers (mkRegisters 7 29 20 30 40 990)
                        (power_on (replicate 2000 0) (fun _ => 0)))))
             = Exits KERNEL_MEM_ACCESS_DENIED m').
  { eexists. vm_compute. reflexivity. }
  repeat split; try assumption.
  destruct E1 as (m1 & -> & _), E2 as (m2 & ->). discriminate.
Qed.

(** ** Invariants of the processor routines *)

Lemma in_range_requests_app (l1 l2 : list Z) :
  in_range_requests l1 = true -> in_range_requests l2 = true ->
  in_range_requests (l1 ++ l2) = true.
Proof.
  intros H1 H2. remember (length l1) as n eqn:Hn.
  revert l1 Hn H1. induction n as [n IH] using lt_wf_ind.
  intros [|kind [|address rest]] Hn H1; simpl in *; try discriminate.
  - exact H2.
  - destruct (kind =? READ).
    + apply andb_true_iff in H1 as [Ha Hrest]. rewrite Ha. simpl.
      apply (IH (length rest)); [lia | reflexivity | exact Hrest].
    + destruct (kind =? WRITE); [|discriminate].
      destruct rest as [|value rest]; [discriminate|]. simpl.
      apply andb_true_iff in H1 as [Ha Hrest]. rewrite Ha. simpl.
      apply (IH (length rest)); [simpl in Hn; lia | reflexivity | exact Hrest].
Qed.

Lemma permitted_in_memory (k : bool) (a : Z) :
  permitted k a = true -> in_memory a = true.
Proof. unfold permitted. now destruct (in_memory a). Qed.

Section Preservation.
Context {A B : Type}.
Variable P : Machine -> Prop.

Lemma preserves_ret (a : A) : preserves P (ret a).
Proof. intros m H. exact H. Qed.

Lemma preserves_bind (c : Proc A) (k : A -> Proc B) :
  preserves P c -> (forall a, preserves P (k a)) -> preserves P (bind c k).
Proof.
  intros Hc Hk m H. unfold bind. specialize (Hc m H).
  destruct (c m); simpl in *; try assumption. now apply Hk.
Qed.

Lemma preserves_gets (f : Machine -> A) : preserves P (gets f).
Proof. intros m H. exact H. Qed.

Lemma preserves_if (b : bool) (c1 c2 : Proc A) :
  preserves P c1 -> preserves P c2 -> preserves P (if b then c1 else c2).
Proof. now destruct b. Qed.
End Preservation.

Lemma preserves_when (P : Machine -> Prop) (b : bool) (c : Proc unit) :
  preserves P c -> preserves P (when b c).
Proof. intros H. destruct b; [exact H | apply preserves_ret]. Qed.

Lemma preserves_modify (P : Machine -> Prop) (f : Machine -> Machine) :
  (forall m, P m -> P (f m)) -> preserves P (modify f).
Proof. intros H m Hm. now apply H. Qed.

Lemma preserves_for_each (P : Machine -> Prop) (l : list nat)
    (body : nat -> Proc unit) :
  (forall i, preserves P (body i)) -> preserves P (for_each l body).
Proof.
  intros H. induction l as [|i l IH]; simpl.
  - apply preserves_ret.
  - apply preserves_bind; auto.
Qed.

Section Invariant.
(** A condition on the pair (kernelMode, interruptEnabledFlag). *)
Variable Q : bool -> bool -> Prop.
(** A condition on the pair (interrupt_timer, instruction_counter). *)
Variable R : Z -> Z -> Prop.

Lemma inv_get_reg (i : nat) : preserves (inv Q R) (get_reg i).
Proof. apply preserves_gets. Qed.

Lemma inv_put_reg (i : nat) (v : Z) : preserves (inv Q R) (put_reg i v).
Proof. apply preserves_modify. intros m H. exact H. Qed.

Lemma inv_print (s : string) : preserves (inv Q R) (print s).
Proof. apply preserves_modify. intros m H. exact H. Qed.

Lemma inv_endProcess {A} (code : Z) :
  processor_exit code = true -> preserves (inv Q R) (@endProcess A code).
Proof. intros Hc m H. split; [exact H | exact Hc]. Qed.

Lemma inv_rand : preserves (inv Q R) rand.
Proof. intros m H. exact H. Qed.

Lemma inv_set_inactive_sys (v : Z) :
  preserves (inv Q R) (modify (with_inactive_sys_stack v)).
Proof. apply preserves_modify. intros m H. exact H. Qed.

Lemma inv_set_inactive_proc (v : Z) :
  preserves (inv Q R) (modify (with_inactive_proc_stack v)).
Proof. apply preserves_modify. intros m H. exact H. Qed.

Lemma inv_readMemory (a : Z) : preserves (inv Q R) (readMemory a).
Proof.
  intros m (Hr & Hw & Hq & Ht).
  destruct (permitted (kernelMode m) a) eqn:Hp.
  - rewrite (readMemory_permitted _ _ Hr Hp). split; [|split].
    + now apply at_rest_after_read.
    + cbn. apply in_range_requests_app; [exact Hw|].
      cbn. now rewrite (permitted_in_memory _ _ Hp).
    + split; [exact Hq | exact Ht].
  - destruct (readMemory_denied _ _ Hp) as (code & -> & Hc).
    split; [exact (conj Hr (conj Hw (conj Hq Ht))) | exact Hc].
Qed.

Lemma inv_writeMemory (a v : Z) : preserves (inv Q R) (writeMemory a v).
Proof.
  intros m (Hr & Hw & Hq & Ht).
  destruct (permitted (kernelMode m) a) eqn:Hp.
  - rewrite (writeMemory_permitted _ v _ Hr Hp). split; [|split].
    + now apply at_rest_after_write.
    + cbn. apply in_range_requests_app; [exact Hw|].
      cbn. now rewrite (permitted_in_memory _ _ Hp).
    + split; [exact Hq | exact Ht].
  - destruct (writeMemory_denied _ v _ Hp) as (code & -> & Hc).
    split; [exact (conj Hr (conj Hw (conj Hq Ht))) | exact Hc].
Qed.

Hint Resolve preserves_ret preserves_gets preserves_when preserves_if
  inv_get_reg inv_put_reg inv_print inv_rand
  inv_set_inactive_sys inv_set_inactive_proc inv_readMemory inv_writeMemory
  : core.

Ltac step :=
  first [ solve [auto]
        | apply inv_endProcess; reflexivity
        | apply preserves_if
        | apply preserves_for_each; intro
        | apply preserves_bind; [|intro] ].

Lemma inv_pushStack (v : Z) : preserves (inv Q R) (pushStack v).
Proof. unfold pushStack. repeat step. Qed.

Lemma inv_popStack : preserves (inv Q R) popStack.
Proof. unfold popStack. repeat step. Qed.

Lemma inv_readNext : preserves (inv Q R) readNext.
Proof. unfold readNext. repeat step. Qed.

Lemma inv_pushRegistersOnStack : preserves (inv Q R) pushRegistersOnStack.
Proof. unfold pushRegistersOnStack. repeat step. Qed.

Lemma inv_popRegistersOnStack : preserves (inv Q R) popRegistersOnStack.
Proof. unfold popRegistersOnStack. repeat step. Qed.

Lemma inv_fetchInstruction : preserves (inv Q R) fetchInstruction.
Proof. unfold fetchInstruction. repeat step. Qed.

Hint Resolve inv_pushStack inv_popStack inv_readNext
  inv_pushRegistersOnStack inv_popRegistersOnStack : core.

(** Every instruction except SYSCALL and SYSRETURN leaves both flags
    alone. *)
Lemma inv_execute_plain (i : instruction) :
  i <> SYSCALL -> i <> SYSRETURN -> preserves (inv Q R) (execute i).
Proof.
  intros H1 H2. destruct i; try congruence; unfold execute; repeat step.
Qed.

(** Entering an interrupt needs [Q] to pass from (User, enabled) to
    (Kernel, disabled). *)
Hypothesis Q_enter : Q false true -> Q true false.

Lemma inv_syscall (h : Z) : preserves (inv Q R) (syscall h).
Proof.
  intros m (Hr & Hw & Hq & Ht).
  destruct (kernelMode m) eqn:Hk.
  - rewrite (syscall_dropped _ _ Hk).
    split; [exact Hr | split; [exact Hw | split; [now rewrite Hk | exact Ht]]].
  - destruct (interruptEnabledFlag m) eqn:He.
    + rewrite (syscall_switches _ _ Hk He).
      assert (Hs : inv Q R (mode_switched m))
        by (split; [exact Hr | split; [exact Hw | split; [auto | exact Ht]]]).
      revert Hs. generalize (mode_switched m).
      change (preserves (inv Q R) (pushRegistersOnStack ;; put_reg PC h)).
      repeat step.
    + rewrite (syscall_disabled _ _ He).
      split; [exact Hr | split; [exact Hw | split; [now rewrite Hk, He | exact Ht]]].
Qed.

Lemma inv_checkInterrupt : preserves (inv Q R) checkInterrupt.
Proof.
  unfold checkInterrupt.
  apply preserves_bind; [solve [auto] | intro counter].
  apply preserves_bind; [solve [auto] | intro timer].
  apply preserves_bind; [|intro r].
  - unfold int_rem.
    apply preserves_if; [intros m H; exact H | apply preserves_ret].
  - apply preserves_when, inv_syscall.
Qed.

Lemma inv_execute_no_return (i : instruction) :
  i <> SYSRETURN -> preserves (inv Q R) (execute i).
Proof.
  intros Hi. destruct (decide (i = SYSCALL)) as [->|Hs].
  - apply inv_syscall.
  - now apply inv_execute_plain.
Qed.

(** Leaving an interrupt ends in (User, enabled). *)
Hypothesis Q_leave : Q false true.

Lemma inv_return_syscall : preserves (inv Q R) return_syscall.
Proof.
  unfold return_syscall.
  do 5 (apply preserves_bind; [solve [auto] | intro]).
  intros m (Hr & Hw & _ & Ht).
  split; [exact Hr | split; [exact Hw | split; [exact Q_leave | exact Ht]]].
Qed.

Lemma inv_execute (i : instruction) : preserves (inv Q R) (execute i).
Proof.
  destruct (decide (i = SYSRETURN)) as [->|H2]; [apply inv_return_syscall|].
  now apply inv_execute_no_return.
Qed.

Lemma inv_executeInstruction : preserves (inv Q R) executeInstruction.
Proof.
  unfold executeInstruction. apply preserves_bind; [auto | intro ir].
  destruct (decode ir).
  - apply inv_execute.
  - now apply inv_endProcess.
Qed.

Lemma inv_instruction_phase : preserves (inv Q R) instruction_phase.
Proof.
  unfold instruction_phase.
  apply preserves_bind; [apply inv_fetchInstruction | intro].
  do 2 (apply preserves_bind; [solve [auto] | intro]).
  apply inv_executeInstruction.
Qed.

(** Counting an instruction needs [R] not to depend on the counter. *)
Hypothesis R_count : forall t c c', R t c -> R t c'.

Lemma inv_count_instruction : preserves (inv Q R) count_instruction.
Proof.
  unfold count_instruction. apply preserves_bind; [auto | intro c].
  apply preserves_modify. intros m (Hr & Hw & Hq & Ht).
  split; [exact Hr | split; [exact Hw | split; [exact Hq |]]].
  exact (R_count _ _ _ Ht).
Qed.

Lemma inv_execution_cycle : preserves (inv Q R) execution_cycle.
Proof.
  change execution_cycle
    with (fetchInstruction ;;
          pc <- get_reg PC ;; put_reg PC (int32 (pc + 1)) ;;
          executeInstruction ;; count_instruction ;; checkInterrupt).
  apply preserves_bind; [apply inv_fetchInstruction | intro].
  do 2 (apply preserves_bind; [solve [auto] | intro]).
  apply preserves_bind; [apply inv_executeInstruction | intro].
  apply preserves_bind; [apply inv_count_instruction | intro].
  apply inv_checkInterrupt.
Qed.

Lemma inv_run_execution_cycle (turns : nat) :
  preserves (inv Q R) (run_execution_cycle turns).
Proof.
  induction turns as [|n IH]; simpl.
  - apply preserves_ret.
  - apply preserves_bind; [apply inv_execution_cycle | intro; exact IH].
Qed.
End Invariant.

Lemma bind_apply {A B} (c : Proc A) (k : A -> Proc B) (m : Machine) :
  bind c k m
  = match c m with
    | Returns a m' => k a m'
    | Exits code m' => Exits code m'
    | Blocks m' => Blocks m'
    | Traps m' => Traps m'
    end.
Proof. reflexivity. Qed.

Lemma holds_bind {A B} (P : Machine -> Prop) (c : Proc A) (k : A -> Proc B)
    (m : Machine) :
  holds P (c m) -> (forall a, preserves P (k a)) -> holds P (bind c k m).
Proof.
  intros Hc Hk. unfold bind.
  destruct (c m); simpl in *; try assumption. now apply Hk.
Qed.

Lemma holds_weaken {A} (P P' : Machine -> Prop) (o : Outcome A) :
  (forall m, P m -> P' m) -> holds P o -> holds P' o.
Proof.
  intros H. destruct o; simpl; auto. intros [Hp Hc]. auto.
Qed.

Lemma inv_power_on (Q : bool -> bool -> Prop) (image : list Z)
    (rnd : nat -> Z) (timer : Z) :
  length image = 2000%nat -> Q false true ->
  exists m0, initialize timer (power_on image rnd) = Returns tt m0
             /\ inv Q (fun t _ => t = timer) m0.
Proof.
  intros Hlen Hq. eexists. split; [reflexivity|].
  repeat split; try assumption.
Qed.

Lemma inv_run_processor (Q : bool -> bool -> Prop) (image : list Z)
    (rnd : nat -> Z) (timer : Z) (turns : nat) :
  (Q false true -> Q true false) -> Q false true ->
  length image = 2000%nat ->
  holds (inv Q (fun t _ => t = timer))
        (run_processor timer turns (power_on image rnd)).
Proof.
  intros Qe Ql Hlen.
  destruct (inv_power_on Q image rnd timer Hlen Ql) as (m0 & E & H0).
  unfold run_processor, bind. rewrite E.
  now apply inv_run_execution_cycle.
Qed.

(** ** The mode flag and the interrupt flag *)

(** C9. Whatever program is loaded and however many instructions have been
    executed since [run_processor] initialised the processor, the machine
    is in (User, interrupts enabled) or in (Kernel, interrupts disabled),
    also at the moment the process ends. *)
Theorem flags_always_paired (image : list Z) (rnd : nat -> Z) (timer : Z)
    (turns : nat) :
  length image = 2000%nat ->
  holds (fun m => (mode_of m = User /\ interruptEnabledFlag m = true)
                  \/ (mode_of m = Kernel /\ interruptEnabledFlag m = false))
        (run_processor timer turns (power_on image rnd)).
Proof.
  intros Hlen.
  apply (holds_weaken (inv flags_paired (fun t _ => t = timer))).
  - intros m (_ & _ & H & _). unfold flags_paired in H. unfold mode_of.
    destruct (kernelMode m); simpl in H; auto.
  - apply inv_run_processor; [reflexivity | reflexivity | exact Hlen].
Qed.

Lemma flags_always_paired_witness :
  holds (fun m => (mode_of m = User /\ interruptEnabledFlag m = true)
                  \/ (mode_of m = Kernel /\ interruptEnabledFlag m = false))
        (run_processor 2 7
           (power_on ([1; 5; 29; 7; 10; 50] ++ replicate 1994 30)
                     (fun _ => 0))).
Proof.
  apply (flags_always_paired ([1; 5; 29; 7; 10; 50] ++ replicate 1994 30)).
  reflexivity.
Defined.

(** ** What the processor puts on the pipe *)

(** C10. [readMemory] and [writeMemory] call [verifyAccess] first: for an
    address that is not permitted the process ends there and main memory,
    pipes included, is untouched; otherwise the address lies in [0, 2000),
    the request is the only thing written and main memory answers SUCCESS.
    Hence in every run all requests on the pipe name a cell of the array,
    the processor never hangs on the pipe, and no run ends with
    READ_FAILURE, WRITE_FAILURE or INVALID_MEM_ACTION. *)
Theorem processor_requests_in_range :
  (forall (m : Machine) (a v : Z),
     at_rest (main_memory m) ->
     (permitted (kernelMode m) a = true
      /\ 0 <= a < 2000
      /\ readMemory a m
         = Returns (cell (memory (main_memory m)) a) (after_read a m)
      /\ stream (readpipe (main_memory (after_read a m)))
         = stream (readpipe (main_memory m)) ++ [READ; a]
      /\ writeMemory a v m = Returns tt (after_write a v m)
      /\ stream (readpipe (main_memory (after_write a v m)))
         = stream (readpipe (main_memory m)) ++ [WRITE; a; v])
     \/
     (permitted (kernelMode m) a = false
      /\ exists code m',
           readMemory a m = Exits code m'
           /\ writeMemory a v m = Exits code m'
           /\ main_memory m' = main_memory m
           /\ processor_exit code = true))
  /\
  (forall (image : list Z) (rnd : nat -> Z) (timer : Z) (turns : nat),
     length image = 2000%nat ->
     holds (fun m => in_range_requests (stream (readpipe (main_memory m)))
                     = true)
           (run_processor timer turns (power_on image rnd)))
  /\ processor_exit READ_FAILURE = false
  /\ processor_exit WRITE_FAILURE = false
  /\ processor_exit INVALID_MEM_ACTION = false.
Proof.
  split; [|split; [|repeat split]].
  - intros m a v Hr.
    destruct (permitted (kernelMode m) a) eqn:Hp; [left | right].
    + split; [reflexivity|]. split.
      { apply in_memory_spec. exact (permitted_in_memory _ _ Hp). }
      split; [exact (readMemory_permitted _ _ Hr Hp)|].
      split; [reflexivity|].
      split; [exact (writeMemory_permitted _ v _ Hr Hp) | reflexivity].
    + split; [reflexivity|].
      destruct (verifyAccess_denied _ _ Hp) as (code & E & Hc).
      exists code. eexists. split; [|split; [|split; [|exact Hc]]].
      * unfold readMemory. unfold bind at 1. rewrite E. reflexivity.
      * unfold writeMemory. unfold bind at 1. rewrite E. reflexivity.
      * reflexivity.
  - intros image rnd timer turns Hlen.
    apply (holds_weaken (inv (fun _ _ => True) (fun t _ => t = timer))).
    + now intros m (_ & H & _).
    + apply inv_run_processor; auto.
Qed.

Lemma processor_requests_in_range_witness :
  holds (fun m => in_range_requests (stream (readpipe (main_memory m))) = true)
        (run_processor 3 6
           (power_on ([2; 2000; 50] ++ replicate 1997 0) (fun _ => 0))).
Proof.
  apply (proj1 (proj2 processor_requests_in_range)
           ([2; 2000; 50] ++ replicate 1997 0)).
  reflexivity.
Defined.

(** ** The timer *)

Lemma execution_cycle_phases (m : Machine) :
  execution_cycle m
  = ((instruction_phase ;; count_instruction) ;; checkInterrupt) m.
Proof.
  unfold execution_cycle, instruction_phase, count_instruction, bind.
  destruct (fetchInstruction m); try reflexivity.
  cbn [get_reg gets put_reg modify].
  destruct (executeInstruction _); reflexivity.
Qed.

Lemma run_without_timer_phases (n : nat) (m : Machine) :
  run_without_timer (S n) m
  = ((instruction_phase ;; count_instruction) ;; run_without_timer n) m.
Proof.
  cbn [run_without_timer]. unfold bind.
  destruct (instruction_phase m); reflexivity.
Qed.

Lemma multiple_spec (N c : Z) :
  0 < N -> 0 < c ->
  (c mod N =? 0) = true <-> exists k, 0 < k /\ c = k * N.
Proof.
  intros HN Hc. rewrite Z.eqb_eq. split.
  - intros H. exists (c / N). split.
    + apply Z.div_str_pos. split; [exact HN|].
      apply Z.mod_divide in H; [|lia]. destruct H as [q Hq].
      assert (0 < q) by nia. nia.
    + pose proof (Z.div_mod c N ltac:(lia)). lia.
  - intros (k & Hk & ->). apply Z.mod_mul. lia.
Qed.

Lemma checkInterrupt_timer (m : Machine) :
  0 < interrupt_timer m -> 0 <= instruction_counter m ->
  checkInterrupt m
  = if instruction_counter m mod interrupt_timer m =? 0
    then syscall SYS_INDEX m else Returns tt m.
Proof.
  intros HN Hc. unfold checkInterrupt, bind, gets, int_rem.
  replace (interrupt_timer m =? 0) with false by lia.
  replace (interrupt_timer m =? -1) with false by lia.
  rewrite andb_false_r. cbn [orb ret].
  rewrite Z.rem_mod_nonneg by lia.
  destruct (_ =? 0); reflexivity.
Qed.

Lemma checkInterrupt_kernel (m : Machine) :
  kernelMode m = true -> 0 < interrupt_timer m ->
  checkInterrupt m = Returns tt m.
Proof.
  intros Hk HN. unfold checkInterrupt, bind, gets, int_rem.
  replace (interrupt_timer m =? 0) with false by lia.
  replace (interrupt_timer m =? -1) with false by lia.
  rewrite andb_false_r. cbn [orb ret].
  destruct (_ =? 0); cbn [when ret]; [|reflexivity].
  now apply syscall_dropped.
Qed.

Lemma decode_opcode (v : Z) (i : instruction) :
  decode v = Some i -> opcode i = v.
Proof.
  unfold decode. intros H. apply find_some in H as [_ H]. lia.
Qed.

(** A turn without the timer check keeps an invariant that entering an
    interrupt keeps, as long as the instruction is not SYSRETURN. *)
Lemma inv_turn_no_return (Q : bool -> bool -> Prop) (R : Z -> Z -> Prop)
    (m : Machine) :
  (Q false true -> Q true false) ->
  (forall t c c', R t c -> R t c') ->
  inv Q R m ->
  cell (memory (main_memory m)) (reg PC (registers m)) <> opcode SYSRETURN ->
  holds (inv Q R) ((instruction_phase ;; count_instruction) m).
Proof.
  intros Qe Rc Hinv Hop.
  assert (Hrest : forall m1,
            inv Q R m1 ->
            reg IR (registers m1)
              = cell (memory (main_memory m)) (reg PC (registers m)) ->
            holds (inv Q R) ((executeInstruction ;; count_instruction) m1)).
  { intros m1 H1 Hir.
    apply holds_bind; [|intro; apply inv_count_instruction; exact Rc].
    unfold executeInstruction, bind, get_reg, gets. rewrite Hir.
    destruct (decode _) as [i|] eqn:Hd.
    - apply inv_execute_no_return; [exact Qe | | exact H1].
      intros ->. apply decode_opcode in Hd. congruence.
    - now apply inv_endProcess. }
  destruct Hinv as (Hr & Hw & Hq & Ht).
  unfold instruction_phase, fetchInstruction.
  unfold bind at 1. unfold bind at 1. unfold bind at 1.
  change (get_reg PC m) with (Returns (reg PC (registers m)) m).
  cbv beta iota. unfold bind at 1.
  destruct (permitted (kernelMode m) (reg PC (registers m))) eqn:Hp.
  - rewrite (readMemory_permitted _ _ Hr Hp). cbv beta iota.
    cbn [put_reg modify bind get_reg gets].
    apply Hrest; [|reflexivity].
    split; [now apply at_rest_after_read|]. split; [|split; assumption].
    cbn. apply in_range_requests_app; [exact Hw|].
    pose proof (permitted_in_memory _ _ Hp) as Hin.
    cbn in Hin |- *. now rewrite Hin.
  - destruct (readMemory_denied _ _ Hp) as (code & -> & Hc).
    cbn. split; [|exact Hc]. exact (conj Hr (conj Hw (conj Hq Ht))).
Qed.

(** In kernel mode the loop runs as if there were no timer, for as long as
    no SYSRETURN is executed. *)
Lemma kernel_stretch (N : Z) (n : nat) :
  0 < N ->
  forall m,
    inv (fun k _ => k = true) (fun t _ => t = N) m ->
    avoids_sysreturn n m ->
    run_execution_cycle n m = run_without_timer n m.
Proof.
  intros HN. induction n as [|n IH]; intros m Hinv Hav; [reflexivity|].
  destruct Hav as [Hop Hnext].
  rewrite run_without_timer_phases.
  cbn [run_execution_cycle]. unfold bind at 1.
  rewrite execution_cycle_phases.
  pose proof (inv_turn_no_return (fun k _ => k = true) (fun t _ => t = N) m
                (fun _ => eq_refl) (fun _ _ _ H => H) Hinv Hop) as Hturn.
  rewrite !(bind_apply (instruction_phase ;; count_instruction)).
  destruct ((instruction_phase ;; count_instruction) m) as [[] m'| | |] eqn:E;
    try reflexivity.
  destruct Hturn as (Hr & Hw & Hk & Ht). cbn beta in Hk, Ht.
  rewrite checkInterrupt_kernel by (rewrite ?Ht; assumption).
  apply IH.
  - exact (conj Hr (conj Hw (conj Hk Ht))).
  - now apply Hnext.
Qed.

(** C4. With a positive timer value N, the timer interrupt is taken exactly
    after an instruction whose completion makes the instruction counter a
    positive multiple of N while the machine is in user mode: the turn then
    ends with the switch to kernel mode and PC = 1000.  After any other
    instruction the turn ends with nothing but the counter incremented.
    From kernel mode on, and until a SYSRETURN is executed, the loop runs as
    if the timer check were not there, whatever multiples of N the counter
    crosses. *)
Theorem timer_interrupt_firing (N : Z) (m : Machine) :
  0 < N ->
  interrupt_timer m = N ->
  0 <= instruction_counter m < INT_MAX ->
  inv flags_paired (fun _ _ => True) m ->
  let c := instruction_counter m + 1 in
  ((c mod N =? 0) = true <-> exists k, 0 < k /\ c = k * N)
  /\ match instruction_phase m with
     | Returns _ m1 =>
         let m2 := with_instruction_counter c m1 in
         execution_cycle m
         = (if (c mod N =? 0) && negb (kernelMode m1)
            then (pushRegistersOnStack ;; put_reg PC SYS_INDEX)
                   (mode_switched m2)
            else Returns tt m2)
         /\ holds (fun m' => kernelMode m' = true)
              ((pushRegistersOnStack ;; put_reg PC SYS_INDEX)
                 (mode_switched m2))
     | Exits code m1 => execution_cycle m = Exits code m1
     | Blocks m1 => execution_cycle m = Blocks m1
     | Traps m1 => execution_cycle m = Traps m1
     end
  /\ forall n,
       kernelMode m = true -> avoids_sysreturn n m ->
       run_execution_cycle n m = run_without_timer n m.
Proof.
  intros HN Ht Hc (Hr & Hw & Hq & _) c.
  split; [apply multiple_spec; unfold c; lia|]. split.
  - assert (Hinv : inv flags_paired
                     (fun t k => t = N /\ k = instruction_counter m) m)
      by exact (conj Hr (conj Hw (conj Hq (conj Ht eq_refl)))).
    pose proof (inv_instruction_phase _ _ (fun _ => eq_refl) eq_refl m Hinv)
      as Hph.
    rewrite execution_cycle_phases, bind_apply, (bind_apply instruction_phase).
    destruct (instruction_phase m) as [[] m1| | |]; try reflexivity.
    destruct Hph as (Hr1 & Hw1 & Hq1 & Ht1 & Hc1). cbv zeta.
    assert (Ecount : count_instruction m1
                     = Returns tt (with_instruction_counter c m1)).
    { unfold count_instruction, bind, gets, modify. rewrite Hc1.
      rewrite int32_small by (unfold INT_MIN, INT_MAX in *; lia).
      reflexivity. }
    rewrite Ecount. split.
    + rewrite checkInterrupt_timer
        by (cbn [interrupt_timer instruction_counter with_instruction_counter];
            unfold c; lia).
      cbn [interrupt_timer instruction_counter with_instruction_counter].
      rewrite Ht1.
      destruct (c mod N =? 0); [|reflexivity].
      destruct (kernelMode m1) eqn:Hk; cbn [andb negb].
      * now apply syscall_dropped.
      * apply syscall_switches; [exact Hk|].
        exact Hq1.
    + apply (holds_weaken (inv (fun k _ => k = true) (fun _ _ => True))).
      { now intros m' (_ & _ & H & _). }
      apply holds_bind; [|intro; apply inv_put_reg].
      apply inv_pushRegistersOnStack.
      exact (conj Hr1 (conj Hw1 (conj eq_refl I))).
  - intros n Hk Hav. apply (kernel_stretch N n HN); [|exact Hav].
    exact (conj Hr (conj Hw (conj Hk Ht))).
Qed.

Lemma timer_interrupt_firing_witness :
  let m := timer_example in
  let c := instruction_counter m + 1 in
  ((c mod 2 =? 0) = true <-> exists k, 0 < k /\ c = k * 2)
  /\ match instruction_phase m with
     | Returns _ m1 =>
         let m2 := with_instruction_counter c m1 in
         execution_cycle m
         = (if (c mod 2 =? 0) && negb (kernelMode m1)
            then (pushRegistersOnStack ;; put_reg PC SYS_INDEX)
                   (mode_switched m2)
            else Returns tt m2)
         /\ holds (fun m' => kernelMode m' = true)
              ((pushRegistersOnStack ;; put_reg PC SYS_INDEX)
                 (mode_switched m2))
     | Exits code m1 => execution_cycle m = Exits code m1
     | Blocks m1 => execution_cycle m = Blocks m1
     | Traps m1 => execution_cycle m = Traps m1
     end
  /\ forall n,
       kernelMode m = true -> avoids_sysreturn n m ->
       run_execution_cycle n m = run_without_timer n m.
Proof.
  apply (timer_interrupt_firing 2 timer_example).
  - lia.
  - reflexivity.
  - split; [discriminate | reflexivity].
  - split; [|split; [|split]]; [repeat split | reflexivity | reflexivity | exact I].
Defined.

(** ** The end-to-end scenario *)

Lemma cycle_before_timer (m m' : Machine) :
  turn m = Returns tt m' ->
  0 < instruction_counter m' < interrupt_timer m' ->
  execution_cycle m = Returns tt m'.
Proof.
  intros E H. rewrite execution_cycle_phases, bind_apply.
  fold turn. rewrite E.
  rewrite checkInterrupt_timer by lia.
  rewrite Z.mod_small by lia.
  replace (instruction_counter m' =? 0) with false by lia. reflexivity.
Qed.

Lemma cycle_exit (m m' : Machine) (code : Z) :
  turn m = Exits code m' -> execution_cycle m = Exits code m'.
Proof.
  intros E. rewrite execution_cycle_phases, bind_apply.
  fold turn. now rewrite E.
Qed.

Lemma run_next (n : nat) (m m' : Machine) :
  execution_cycle m = Returns tt m' ->
  run_execution_cycle (S n) m = run_execution_cycle n m'.
Proof. intros E. cbn [run_execution_cycle]. now rewrite bind_apply, E. Qed.

Lemma run_exit (n : nat) (m m' : Machine) (code : Z) :
  execution_cycle m = Exits code m' ->
  run_execution_cycle (S n) m = Exits code m'.
Proof. intros E. cbn [run_execution_cycle]. now rewrite bind_apply, E. Qed.

(** The five instructions of the scenario, one turn each, before any timer
    check. *)
Lemma scenario_turns (N : Z) (rest : list Z) (rnd : nat -> Z) :
  length rest = 1991%nat ->
  exists m0 m1 m2 m3 m4 m5,
    initialize N (power_on (scenario ++ rest) rnd) = Returns tt m0
    /\ turn m0 = Returns tt m1
    /\ turn m1 = Returns tt m2
    /\ turn m2 = Returns tt m3
    /\ turn m3 = Returns tt m4
    /\ turn m4 = Exits SUCCESS m5
    /\ (interrupt_timer m1 = N /\ instruction_counter m1 = 1)
    /\ (interrupt_timer m2 = N /\ instruction_counter m2 = 2)
    /\ (interrupt_timer m3 = N /\ instruction_counter m3 = 3)
    /\ (interrupt_timer m4 = N /\ instruction_counter m4 = 4)
    /\ reg AC (registers m1) = 5
    /\ cell (memory (main_memory m2)) 10 = 5
    /\ reg AC (registers m3) = 5
    /\ console m4 = "5"%string
    /\ console m5
       = String.append "5EXIT CODE: SUCCESS" (String.append endl endl)
    /\ mode_of m5 = User.
Proof.
  intros Hlen.
  destruct rest as [|c9 [|c10 rest]]; try discriminate. clear Hlen.
  do 6 eexists.
  do 6 (split; [vm_compute; reflexivity|]).
  do 4 (split; [split; vm_compute; reflexivity|]).
  do 5 (split; [vm_compute; reflexivity|]).
  vm_compute; reflexivity.
Qed.

(** C8 (amended). With a timer value above 4, from the state set up by
    [run_processor] and a memory whose cells 0..8 hold the scenario and whose
    other cells are arbitrary, the machine executes LOAD_VAL 5 (AC = 5),
    STORE 10 (cell 10 = 5), LOAD_ADDR 10 (AC = 5), PUT 1 (prints 5) and END:
    after five turns or more the process has exited with SUCCESS. *)
Theorem scenario_runs (N : Z) (rest : list Z) (rnd : nat -> Z) (more : nat) :
  4 < N ->
  length rest = 1991%nat ->
  let start := power_on (scenario ++ rest) rnd in
  exists m1 m2 m3 m4 m5,
    run_processor N 1 start = Returns tt m1 /\ reg AC (registers m1) = 5
    /\ run_processor N 2 start = Returns tt m2
    /\ cell (memory (main_memory m2)) 10 = 5
    /\ run_processor N 3 start = Returns tt m3 /\ reg AC (registers m3) = 5
    /\ run_processor N 4 start = Returns tt m4 /\ console m4 = "5"%string
    /\ run_processor N (5 + more) start = Exits SUCCESS m5
    /\ console m5
       = String.append "5EXIT CODE: SUCCESS" (String.append endl endl)
    /\ mode_of m5 = User.
Proof.
  intros HN Hlen start.
  destruct (scenario_turns N rest rnd Hlen)
    as (m0 & m1 & m2 & m3 & m4 & m5 & E0 & T1 & T2 & T3 & T4 & T5
        & [Ht1 Hc1] & [Ht2 Hc2] & [Ht3 Hc3] & [Ht4 Hc4]
        & A1 & A2 & A3 & A4 & A5 & A6).
  pose proof (cycle_before_timer _ _ T1 ltac:(lia)) as C1.
  pose proof (cycle_before_timer _ _ T2 ltac:(lia)) as C2.
  pose proof (cycle_before_timer _ _ T3 ltac:(lia)) as C3.
  pose proof (cycle_before_timer _ _ T4 ltac:(lia)) as C4.
  pose proof (cycle_exit _ _ _ T5) as C5.
  assert (R : forall n, run_processor N n start = run_execution_cycle n m0).
  { intros n. unfold run_processor. rewrite bind_apply.
    unfold start. now rewrite E0. }
  exists m1, m2, m3, m4, m5.
  rewrite !R.
  rewrite (run_next 0 _ _ C1).
  rewrite (run_next 1 _ _ C1), (run_next 0 _ _ C2).
  rewrite (run_next 2 _ _ C1), (run_next 1 _ _ C2), (run_next 0 _ _ C3).
  rewrite (run_next 3 _ _ C1), (run_next 2 _ _ C2), (run_next 1 _ _ C3),
          (run_next 0 _ _ C4).
  change (5 + more)%nat with (S (S (S (S (S more))))).
  rewrite (run_next _ _ _ C1), (run_next _ _ _ C2), (run_next _ _ _ C3),
          (run_next _ _ _ C4), (run_exit _ _ _ _ C5).
  cbn [run_execution_cycle ret].
  repeat split; assumption.
Qed.

Lemma scenario_runs_witness :
  let start := power_on (scenario ++ replicate 1991 0) (fun _ => 0) in
  exists m1 m2 m3 m4 m5,
    run_processor 5 1 start = Returns tt m1 /\ reg AC (registers m1) = 5
    /\ run_processor 5 2 start = Returns tt m2
    /\ cell (memory (main_memory m2)) 10 = 5
    /\ run_processor 5 3 start = Returns tt m3 /\ reg AC (registers m3) = 5
    /\ run_processor 5 4 start = Returns tt m4 /\ console m4 = "5"%string
    /\ run_processor 5 (5 + 0) start = Exits SUCCESS m5
    /\ console m5
       = String.append "5EXIT CODE: SUCCESS" (String.append endl endl)
    /\ mode_of m5 = User.
Proof.
  apply (scenario_runs 5 (replicate 1991 0) (fun _ => 0) 0).
  - reflexivity.
  - reflexivity.
Defined.

(** C8 (as stated). The scenario does not fix the timer: with the timer
    value 1 the timer interrupt is taken right after LOAD_VAL 5, the handler
    address 1000 holds no instruction, and the process exits with
    INVALID_OPCODE before anything is stored or printed. *)
Lemma scenario_with_timer_1 :
  let start := power_on (scenario ++ replicate 1991 0) (fun _ => 0) in
  (exists m',
     run_processor 1 5 start = Exits INVALID_OPCODE m'
     /\ cell (memory (main_memory m')) 10 = 0
     /\ console m'
        = String.append "EXIT CODE: INVALID OPCODE" (String.append endl endl))
  /\ forall m', run_processor 1 5 start <> Exits SUCCESS m'.
Proof.
  cbv zeta. split.
  - eexists.
    split; [vm_compute; reflexivity|].
    split; vm_compute; reflexivity.
  - intros m'. vm_compute. discriminate.
Qed.

(** ** The timer value on the command line *)

(** C2. The check of [main] lets the timer value 0 through although its own
    message asks for a value greater than zero (a negative value is turned
    away with that message); the processor then starts, executes LOAD_VAL 5
    and divides the instruction counter by zero in [checkInterrupt]. *)
Theorem zero_timer_accepted :
  let exists_ := fun _ : string => true in
  let image := scenario ++ replicate 1991 0 in
  command_line ["program1.exe"; "sample.txt"; "0"]%string exists_
  = Configured 0 false
  /\ command_line ["program1.exe"; "sample.txt"; "-1"]%string exists_
     = Terminated ["ERROR: Invalid options.";
                   "Timer value must be integer greater than zero.";
                   usage]%string
  /\ exists m',
       main ["program1.exe"; "sample.txt"; "0"]%string exists_ image
            (fun _ => 0) 1
       = inr (Traps m')
       /\ interrupt_timer m' = 0
       /\ instruction_counter m' = 1
       /\ reg AC (registers m') = 5.
Proof.
  cbv zeta. split; [reflexivity|]. split; [reflexivity|].
  eexists. split; [vm_compute; reflexivity|].
  split; [|split]; reflexivity.
Qed.


(** ** The fields of a request *)

Lemma signalhandler_WRITE_refused (mm : MainMemory) (a : Z) (rest : list Z) :
  in_memory a = false ->
  pending (readpipe mm) = WRITE :: a :: rest ->
  signalhandler mm
  = Some (mkMainMemory (memory mm)
            (mkPipe (stream (readpipe mm)) (S (S (consumed (readpipe mm)))))
            (pipe_write WRITE_FAILURE (writepipe mm))).
Proof.
  intros Ha H. unfold signalhandler.
  rewrite (pending_read _ _ _ H).
  rewrite (pending_read _ _ _ (pending_next _ _ _ H)).
  unfold in_memory in Ha. cbn. rewrite Ha. reflexivity.
Qed.

(** C5. Main memory reads the fields of a request before it acts and
    answers: the kind and the address of a READ, in the success and in the
    failure case, and the kind, the address and the value of a WRITE to a
    cell of the array.  For a WRITE to an address outside the array it
    reads the kind and the address only and answers WRITE_FAILURE; what
    follows the address stays on the pipe.  In a run of the processor no
    such request is sent: all requests name a cell of the array, and
    between two instructions and at the end nothing that was sent is left
    unread. *)
Theorem store_reads_fields :
  (forall (mm : MainMemory) (a : Z) (rest : list Z),
     pending (readpipe mm) = READ :: a :: rest ->
     exists mm',
       signalhandler mm = Some mm'
       /\ consumed (readpipe mm') = (2 + consumed (readpipe mm))%nat
       /\ pending (readpipe mm') = rest)
  /\
  (forall (mm : MainMemory) (a v : Z) (rest : list Z),
     0 <= a < 2000 ->
     pending (readpipe mm) = WRITE :: a :: v :: rest ->
     exists mm',
       signalhandler mm = Some mm'
       /\ consumed (readpipe mm') = (3 + consumed (readpipe mm))%nat
       /\ pending (readpipe mm') = rest
       /\ memory mm' = <[Z.to_nat a := v]> (memory mm))
  /\
  (forall (mm : MainMemory) (a : Z) (rest : list Z),
     a < 0 \/ 2000 <= a ->
     pending (readpipe mm) = WRITE :: a :: rest ->
     exists mm',
       signalhandler mm = Some mm'
       /\ consumed (readpipe mm') = (2 + consumed (readpipe mm))%nat
       /\ pending (readpipe mm') = rest
       /\ stream (writepipe mm') = stream (writepipe mm) ++ [WRITE_FAILURE]
       /\ memory mm' = memory mm)
  /\
  (forall (image : list Z) (rnd : nat -> Z) (timer : Z) (turns : nat),
     length image = 2000%nat ->
     holds (fun m =>
              in_range_requests (stream (readpipe (main_memory m))) = true
              /\ pending (readpipe (main_memory m)) = [])
           (run_processor timer turns (power_on image rnd))).
Proof.
  split; [|split; [|split]].
  - intros mm a rest H. rewrite (signalhandler_READ _ _ _ H).
    eexists. split; [reflexivity|]. split; [reflexivity|].
    exact (pending_next _ _ _ (pending_next _ _ _ H)).
  - intros mm a v rest Ha H. rewrite (signalhandler_WRITE _ _ _ _ H).
    apply in_memory_spec in Ha. rewrite Ha.
    eexists. split; [reflexivity|]. split; [reflexivity|].
    split; [|reflexivity].
    exact (pending_next _ _ _ (pending_next _ _ _ (pending_next _ _ _ H))).
  - intros mm a rest Ha H. apply in_memory_false in Ha.
    rewrite (signalhandler_WRITE_refused _ _ _ Ha H).
    eexists. split; [reflexivity|]. split; [reflexivity|].
    split; [exact (pending_next _ _ _ (pending_next _ _ _ H))|].
    split; reflexivity.
  - intros image rnd timer turns Hlen.
    apply (holds_weaken (inv (fun _ _ => True) (fun t _ => t = timer))).
    + intros m ((_ & H2 & _) & H & _). split; [exact H|].
      apply pending_idle. exact H2.
    + apply inv_run_processor; auto.
Qed.

Lemma store_reads_fields_witness :
  exists mm',
    signalhandler
      (mkMainMemory [4; 5; 6] (mkPipe [WRITE; 1; 9; READ; 1] 0) empty_pipe)
    = Some mm'
    /\ consumed (readpipe mm') = (3 + 0)%nat
    /\ pending (readpipe mm') = [READ; 1]
    /\ memory mm' = <[Z.to_nat 1 := 9]> [4; 5; 6].
Proof.
  apply (proj1 (proj2 store_reads_fields)
           (mkMainMemory [4; 5; 6] (mkPipe [WRITE; 1; 9; READ; 1] 0)
              empty_pipe)
           1 9 [READ; 1]).
  - lia.
  - reflexivity.
Defined.

(** C5 (as stated). A WRITE has three fields in every case for the
    specification; of the request WRITE, 2000, 7 main memory reads two,
    answers WRITE_FAILURE and leaves the 7 on the pipe. *)
Lemma write_failure_leaves_value :
  let mm := mkMainMemory (replicate 2000 0) (mkPipe [WRITE; 2000; 7] 0)
              empty_pipe in
  (exists mm',
     signalhandler mm = Some mm'
     /\ stream (writepipe mm') = [WRITE_FAILURE]
     /\ consumed (readpipe mm') = 2%nat
     /\ pending (readpipe mm') = [7])
  /\ fields_as_specified WRITE = 3%nat
  /\ ~ reads_fields_as_specified mm.
Proof.
  cbv zeta. split; [|split].
  - eexists. split; [reflexivity|]. repeat split.
  - reflexivity.
  - intros H.
    specialize (H WRITE [2000; 7] _ (or_intror eq_refl) eq_refl eq_refl).
    discriminate H.
Qed.

(** * Further properties of the processor *)

(** ** Single memory accesses *)

(** X1. A value written to a permitted address is the value read back from
    it, and the write changes no other cell. *)
Theorem write_then_read (a v : Z) (m : Machine) :
  at_rest (main_memory m) ->
  permitted (kernelMode m) a = true ->
  exists m',
    (writeMemory a v ;; readMemory a) m = Returns v m'
    /\ registers m' = registers m
    /\ cell (memory (main_memory m')) a = v
    /\ (forall b, 0 <= b -> b <> a ->
        cell (memory (main_memory m')) b = cell (memory (main_memory m)) b)
    /\ at_rest (main_memory m').
Proof.
  intros Hr Hp.
  pose proof (permitted_range _ _ Hp) as [Ha _].
  assert (Hlen : (Z.to_nat a < length (memory (main_memory m)))%nat).
  { destruct Hr as (Hlen & _). rewrite Hlen. unfold MEMORY_SIZE. lia. }
  exists (after_read a (after_write a v m)).
  split.
  { rewrite bind_apply, (writeMemory_permitted _ v _ Hr Hp).
    rewrite readMemory_permitted
      by (auto using at_rest_after_write). 
    f_equal. cbn. now apply cell_insert_eq. }
  split; [reflexivity|]. split; [cbn; now apply cell_insert_eq|].
  split.
  - intros b Hb Hne. cbn. apply cell_insert_ne. lia.
  - now apply at_rest_after_read, at_rest_after_write.
Qed.

Lemma write_then_read_witness :
  exists m',
    (writeMemory 10 1337 ;; readMemory 10)
      (power_on (replicate 2000 0) (fun _ => 0)) = Returns 1337 m'
    /\ registers m' = registers (power_on (replicate 2000 0) (fun _ => 0))
    /\ cell (memory (main_memory m')) 10 = 1337
    /\ (forall b, 0 <= b -> b <> 10 ->
        cell (memory (main_memory m')) b = cell (replicate 2000 0) b)
    /\ at_rest (main_memory m').
Proof.
  apply (write_then_read 10 1337 (power_on (replicate 2000 0) (fun _ => 0))).
  - repeat split.
  - reflexivity.
Defined.

(** ** The stack *)

Lemma pushStack_permitted (v : Z) (m : Machine) :
  at_rest (main_memory m) ->
  permitted (kernelMode m) (reg SP (registers m) - 1) = true ->
  pushStack v m
  = Returns tt
      (after_write (reg SP (registers m) - 1) v
         (with_registers
            (set_reg SP (reg SP (registers m) - 1) (registers m)) m)).
Proof.
  intros Hr Hp. pose proof (permitted_range _ _ Hp) as [Ha _].
  unfold pushStack, bind, get_reg, gets, put_reg, modify.
  rewrite int32_small by (unfold INT_MIN, INT_MAX; lia).
  cbn [registers with_registers reg set_reg SP r_sp].
  now rewrite writeMemory_permitted.
Qed.

Lemma popStack_permitted (m : Machine) :
  at_rest (main_memory m) ->
  permitted (kernelMode m) (reg SP (registers m)) = true ->
  popStack m
  = Returns (cell (memory (main_memory m)) (reg SP (registers m)))
      (after_read (reg SP (registers m))
         (with_registers
            (set_reg SP (reg SP (registers m) + 1) (registers m)) m)).
Proof.
  intros Hr Hp. pose proof (permitted_range _ _ Hp) as [Ha _].
  unfold popStack, bind, get_reg, gets, put_reg, modify.
  rewrite int32_small by (unfold INT_MIN, INT_MAX; lia).
  now rewrite readMemory_permitted.
Qed.

(** X2. [pushStack] followed by [popStack] gives back the value pushed and
    leaves every register, the stack pointer included, as it was; the value
    is in the cell just below the old stack pointer. *)
Theorem push_then_pop (v : Z) (m : Machine) :
  at_rest (main_memory m) ->
  permitted (kernelMode m) (reg SP (registers m) - 1) = true ->
  exists m',
    (pushStack v ;; popStack) m = Returns v m'
    /\ registers m' = registers m
    /\ cell (memory (main_memory m')) (reg SP (registers m) - 1) = v
    /\ at_rest (main_memory m').
Proof.
  intros Hr Hp. pose proof (permitted_range _ _ Hp) as [Ha _].
  assert (Hlen : (Z.to_nat (reg SP (registers m) - 1)
                  < length (memory (main_memory m)))%nat).
  { destruct Hr as (Hlen & _). rewrite Hlen. unfold MEMORY_SIZE. lia. }
  rewrite bind_apply, (pushStack_permitted _ _ Hr Hp).
  rewrite popStack_permitted;
    [| now apply at_rest_after_write | exact Hp].
  eexists. split; [|split; [|split]].
  - f_equal. cbn. now apply cell_insert_eq.
  - destruct m as [[pc ir ac x y sp] ? ? ? ? ? ? ? ? ? ?]. cbn.
    f_equal. lia.
  - cbn. now apply cell_insert_eq.
  - now apply at_rest_after_read, at_rest_after_write.
Qed.

Lemma push_then_pop_witness :
  exists m',
    (pushStack 42 ;; popStack)
      (with_registers (mkRegisters 0 0 0 0 0 1000)
         (power_on (replicate 2000 0) (fun _ => 0))) = Returns 42 m'
    /\ registers m' = mkRegisters 0 0 0 0 0 1000
    /\ cell (memory (main_memory m')) (1000 - 1) = 42
    /\ at_rest (main_memory m').
Proof.
  apply (push_then_pop 42
           (with_registers (mkRegisters 0 0 0 0 0 1000)
              (power_on (replicate 2000 0) (fun _ => 0)))).
  - repeat split.
  - reflexivity.
Defined.

(** X3. JUMP_RETURN followed at once by RETURN comes back to the cell after
    the operand of JUMP_RETURN with the stack pointer where it was: the
    register file differs from the one before only in PC, which has
    advanced by one. *)
Theorem call_then_return (m : Machine) :
  at_rest (main_memory m) ->
  permitted (kernelMode m) (reg SP (registers m) - 1) = true ->
  permitted (kernelMode m) (reg PC (registers m)) = true ->
  exists m',
    (execute JUMP_RETURN ;; execute RETURN) m = Returns tt m'
    /\ registers m' = set_reg PC (reg PC (registers m) + 1) (registers m)
    /\ at_rest (main_memory m').
Proof.
  intros Hr Hs Hp.
  pose proof (permitted_range _ _ Hs) as [Ha _].
  pose proof (permitted_range _ _ Hp) as [Hb _].
  assert (Hlen : (Z.to_nat (reg SP (registers m) - 1)
                  < length (memory (main_memory m)))%nat).
  { destruct Hr as (Hlen & _). rewrite Hlen. unfold MEMORY_SIZE. lia. }
  rewrite bind_apply. unfold execute.
  rewrite bind_apply. change (get_reg PC m) with (Returns (reg PC (registers m)) m).
  cbv beta iota. rewrite bind_apply.
  rewrite int32_small by (unfold INT_MIN, INT_MAX; lia).
  rewrite (pushStack_permitted _ _ Hr Hs). cbv beta iota.
  rewrite bind_apply. unfold get_reg at 1, gets at 1. cbv beta iota.
  rewrite bind_apply.
  rewrite readMemory_permitted; [| now apply at_rest_after_write | exact Hp].
  cbv beta iota. unfold put_reg at 1, modify at 1. cbv beta iota.
  rewrite bind_apply.
  rewrite popStack_permitted;
    [| now apply at_rest_after_read, at_rest_after_write | exact Hs].
  cbv beta iota. unfold put_reg, modify.
  eexists. split; [reflexivity|]. split.
  - destruct m as [[pc ir ac x y sp] ? ? ? ? ? ? ? ? ? ?]. cbn in *.
    rewrite cell_insert_eq by exact Hlen. f_equal. lia.
  - now apply at_rest_after_read, at_rest_after_read, at_rest_after_write.
Qed.

Lemma call_then_return_witness :
  exists m',
    (execute JUMP_RETURN ;; execute RETURN)
      (with_registers (mkRegisters 7 23 0 0 0 1000)
         (power_on (replicate 2000 0) (fun _ => 0))) = Returns tt m'
    /\ registers m' = set_reg PC (7 + 1) (mkRegisters 7 23 0 0 0 1000)
    /\ at_rest (main_memory m').
Proof.
  apply (call_then_return
           (with_registers (mkRegisters 7 23 0 0 0 1000)
              (power_on (replicate 2000 0) (fun _ => 0)))).
  - repeat split.
  - reflexivity.
  - reflexivity.
Defined.

(** ** Interrupt entry and return *)

(** X4. An interrupt entered from user mode and left at once by
    [return_syscall] is transparent: every register (PC and the user stack
    pointer included) is as before, the machine is back in user mode with
    interrupts enabled, the kernel stack pointer is back at its old value
    and no user cell has changed. *)
Theorem interrupt_round_trip (h : Z) (m : Machine) :
  kernelMode m = false ->
  interruptEnabledFlag m = true ->
  at_rest (main_memory m) ->
  permitted true (inactive_sys_stack m - 1) = true ->
  permitted true (inactive_sys_stack m - 5) = true ->
  exists m',
    (syscall h ;; return_syscall) m = Returns tt m'
    /\ registers m' = registers m
    /\ kernelMode m' = false /\ interruptEnabledFlag m' = true
    /\ inactive_sys_stack m' = inactive_sys_stack m
    /\ (forall b, 0 <= b < 1000 ->
        cell (memory (main_memory m')) b = cell (memory (main_memory m)) b)
    /\ at_rest (main_memory m').
Proof.
  intros Hk He Hr P1 P5.
  pose proof (permitted_range _ _ P1) as [R1 K1].
  pose proof (permitted_range _ _ P5) as [R5 K5].
  set (ms := mode_switched m).
  assert (Hpush : pushRegistersOnStack ms = Returns tt (frame_pushed ms))
    by (apply pushRegistersOnStack_permitted; assumption).
  set (m1 := with_registers (set_reg PC h (registers (frame_pushed ms)))
               (frame_pushed ms)).
  assert (E1 : syscall h m = Returns tt m1).
  { rewrite (syscall_switches _ _ Hk He), bind_apply. fold ms.
    now rewrite Hpush. }
  assert (Hr1 : at_rest (main_memory m1))
    by (apply at_rest_with_registers, at_rest_frame_pushed; exact Hr).
  assert (Hpop : popRegistersOnStack m1 = Returns tt (frame_popped m1)).
  { apply popRegistersOnStack_permitted; [exact Hr1 | exact P5 |].
    change (r_sp (registers m1)) with (inactive_sys_stack m - 5).
    change (kernelMode m1) with true.
    now replace (inactive_sys_stack m - 5 + 4)
      with (inactive_sys_stack m - 1) by lia. }
  rewrite bind_apply, E1. unfold return_syscall.
  rewrite bind_apply, Hpop.
  eexists. split; [reflexivity|].
  assert (Hlen : length (memory (main_memory m)) = 2000%nat)
    by (destruct Hr as (Hlen & _); exact Hlen).
  split; [|split; [reflexivity|split; [reflexivity|split; [|split]]]].
  - destruct m as [[pc ir ac x y sp] t c iss ips ie k [mem rp wp] con rs rc].
    cbn in Hlen, R1, R5 |- *.
    replace (iss - 5 + 4) with (iss - 1) by lia.
    replace (iss - 5 + 3) with (iss - 2) by lia.
    replace (iss - 5 + 2) with (iss - 3) by lia.
    replace (iss - 5 + 1) with (iss - 4) by lia.
    f_equal;
      repeat (rewrite cell_insert_ne by lia);
      rewrite cell_insert_eq by (rewrite ?length_insert; lia);
      reflexivity.
  - destruct m as [[pc ir ac x y sp] t c iss ips ie k [mem rp wp] con rs rc].
    cbn. lia.
  - intros b Hb.
    destruct m as [[pc ir ac x y sp] t c iss ips ie k [mem rp wp] con rs rc].
    cbn in K1, K5 |- *. now repeat (rewrite cell_insert_ne by lia).
  - repeat apply at_rest_after_read. exact Hr1.
Qed.

Lemma interrupt_round_trip_witness :
  exists m',
    (syscall INT_INDEX ;; return_syscall) timer_example = Returns tt m'
    /\ registers m' = registers timer_example
    /\ kernelMode m' = false /\ interruptEnabledFlag m' = true
    /\ inactive_sys_stack m' = inactive_sys_stack timer_example
    /\ (forall b, 0 <= b < 1000 ->
        cell (memory (main_memory m')) b
        = cell (memory (main_memory timer_example)) b)
    /\ at_rest (main_memory m').
Proof.
  apply (interrupt_round_trip INT_INDEX timer_example).
  - reflexivity.
  - reflexivity.
  - repeat split.
  - reflexivity.
  - reflexivity.
Defined.

(** ** Single instructions *)

(** X5. GET leaves a value between 1 and 100 in AC, whatever non-negative
    number [rand()] returns, and touches neither main memory nor any other
    register. *)
Theorem get_between_1_and_100 (m : Machine) :
  0 <= rand_source m (rand_calls m) ->
  exists m',
    execute GET m = Returns tt m'
    /\ 1 <= reg AC (registers m') <= 100
    /\ registers m' = set_reg AC (reg AC (registers m')) (registers m)
    /\ rand_calls m' = S (rand_calls m)
    /\ main_memory m' = main_memory m.
Proof.
  intros H. eexists. split; [reflexivity|].
  pose proof (Z.rem_bound_pos (rand_source m (rand_calls m)) 100 H
                ltac:(lia)) as Hb.
  cbn. rewrite int32_small by (unfold INT_MIN, INT_MAX; lia).
  repeat split; lia.
Qed.

Lemma get_between_1_and_100_witness :
  exists m',
    execute GET (power_on [] (fun n => 1804289383)) = Returns tt m'
    /\ 1 <= reg AC (registers m') <= 100
    /\ registers m'
       = set_reg AC (reg AC (registers m'))
           (registers (power_on [] (fun n => 1804289383)))
    /\ rand_calls m' = 1%nat
    /\ main_memory m' = main_memory (power_on [] (fun n => 1804289383)).
Proof.
  apply (get_between_1_and_100 (power_on [] (fun n => 1804289383))).
  discriminate.
Defined.

Lemma readNext_permitted (m : Machine) :
  at_rest (main_memory m) ->
  permitted (kernelMode m) (reg PC (registers m)) = true ->
  readNext m
  = Returns (cell (memory (main_memory m)) (reg PC (registers m)))
      (after_read (reg PC (registers m))
         (with_registers
            (set_reg PC (reg PC (registers m) + 1) (registers m)) m)).
Proof.
  intros Hr Hp. pose proof (permitted_range _ _ Hp) as [Ha _].
  unfold readNext, bind, get_reg, gets, put_reg, modify.
  rewrite int32_small by (unfold INT_MIN, INT_MAX; lia).
  now rewrite readMemory_permitted.
Qed.

(** X6. PUT reads its port from the cell at PC: port 1 appends AC as a
    decimal number to the output, port 2 appends the character with the code
    of AC, and any other port ends the process with INVALID_PORT_CALL,
    nothing but the exit message being printed. *)
Theorem put_ports (m : Machine) :
  at_rest (main_memory m) ->
  permitted (kernelMode m) (reg PC (registers m)) = true ->
  let port := cell (memory (main_memory m)) (reg PC (registers m)) in
  let ac := reg AC (registers m) in
  exists m',
    reg PC (registers m') = reg PC (registers m) + 1
    /\ memory (main_memory m') = memory (main_memory m)
    /\ (port = 1 ->
        execute PUT m = Returns tt m'
        /\ console m' = String.append (console m) (string_of_Z ac))
    /\ (port = 2 ->
        execute PUT m = Returns tt m'
        /\ console m'
           = String.append (console m) (String (char_of_Z ac) EmptyString))
    /\ (port <> 1 -> port <> 2 ->
        execute PUT m = Exits INVALID_PORT_CALL m'
        /\ console m'
           = String.append
               (String.append
                  (String.append
                     (String.append (console m) "EXIT CODE: ")
                     "INVALID PORT CALL") endl) endl).
Proof.
  intros Hr Hp port ac.
  assert (E : execute PUT m
              = (if port =? 1 then print (string_of_Z ac)
                 else if port =? 2
                      then print (String (char_of_Z ac) EmptyString)
                      else endProcess INVALID_PORT_CALL)
                  (after_read (reg PC (registers m))
                     (with_registers
                        (set_reg PC (reg PC (registers m) + 1) (registers m))
                        m))).
  { unfold execute. rewrite bind_apply, (readNext_permitted _ Hr Hp).
    reflexivity. }
  rewrite E. clear E.
  set (mr := after_read (reg PC (registers m))
               (with_registers
                  (set_reg PC (reg PC (registers m) + 1) (registers m)) m)).
  destruct (port =? 1) eqn:E1; [|destruct (port =? 2) eqn:E2].
  - exists (with_console (String.append (console mr) (string_of_Z ac)) mr).
    split; [reflexivity|]. split; [reflexivity|].
    split; [intros _; split; reflexivity|]. split; [lia|lia].
  - exists (with_console
              (String.append (console mr) (String (char_of_Z ac) EmptyString))
              mr).
    split; [reflexivity|]. split; [reflexivity|].
    split; [lia|]. split; [intros _; split; reflexivity | lia].
  - exists (with_console
              (String.append
                 (String.append
                    (String.append
                       (String.append (console mr) "EXIT CODE: ")
                       "INVALID PORT CALL") endl) endl) mr).
    split; [reflexivity|]. split; [reflexivity|].
    split; [lia|]. split; [lia|]. intros _ _. split; reflexivity.
Qed.

Lemma put_ports_witness :
  let m := with_registers (mkRegisters 1 9 65 0 0 1000)
             (power_on ([9; 2] ++ replicate 1998 0) (fun _ => 0)) in
  let port := cell (memory (main_memory m)) (reg PC (registers m)) in
  let ac := reg AC (registers m) in
  exists m',
    reg PC (registers m') = reg PC (registers m) + 1
    /\ memory (main_memory m') = memory (main_memory m)
    /\ (port = 1 ->
        execute PUT m = Returns tt m'
        /\ console m' = String.append (console m) (string_of_Z ac))
    /\ (port = 2 ->
        execute PUT m = Returns tt m'
        /\ console m'
           = String.append (console m) (String (char_of_Z ac) EmptyString))
    /\ (port <> 1 -> port <> 2 ->
        execute PUT m = Exits INVALID_PORT_CALL m'
        /\ console m'
           = String.append
               (String.append
                  (String.append
                     (String.append (console m) "EXIT CODE: ")
                     "INVALID PORT CALL") endl) endl).
Proof.
  apply (put_ports (with_registers (mkRegisters 1 9 65 0 0 1000)
           (power_on ([9; 2] ++ replicate 1998 0) (fun _ => 0)))).
  - repeat split.
  - reflexivity.
Defined.

(** The values of IR for which [executeInstruction] has a case. *)
Lemma decode_None (v : Z) :
  decode v = None <-> ~ (1 <= v <= 30 \/ v = 50).
Proof.
  split.
  - intros H Hv.
    assert (Hc : exists i, opcode i = v).
    { assert (Hv' : v = 1 \/ v = 2 \/ v = 3 \/ v = 4 \/ v = 5 \/ v = 6
                    \/ v = 7 \/ v = 8 \/ v = 9 \/ v = 10 \/ v = 11 \/ v = 12
                    \/ v = 13 \/ v = 14 \/ v = 15 \/ v = 16 \/ v = 17
                    \/ v = 18 \/ v = 19 \/ v = 20 \/ v = 21 \/ v = 22
                    \/ v = 23 \/ v = 24 \/ v = 25 \/ v = 26 \/ v = 27
                    \/ v = 28 \/ v = 29 \/ v = 30 \/ v = 50) by lia.
      repeat (destruct Hv' as [->|Hv']); try subst v;
        match goal with
        | |- exists i, opcode i = ?n =>
            let rec go l :=
              match l with
              | ?i :: ?l' => first [exists i; reflexivity | go l']
              end in
            let l := eval unfold instruction_set in instruction_set in go l
        end. }
    destruct Hc as [i Hi].
    unfold decode in H.
    assert (Hf : (opcode i =? v) = false).
    { apply (find_none _ _ H i).
      unfold instruction_set. destruct i; simpl; tauto. }
    lia.
  - intros H. destruct (decode v) as [i|] eqn:E; [|reflexivity].
    apply decode_opcode in E. destruct i; simpl in E; lia.
Qed.

(** X7. A value in the cell at PC that is no opcode (anything but 1..30 and
    50) ends the process with INVALID_OPCODE as soon as it is fetched: main
    memory and the instruction counter are left as they were, and however
    many turns the loop is given nothing more is executed. *)
Theorem invalid_opcode_halts (m : Machine) :
  at_rest (main_memory m) ->
  permitted (kernelMode m) (reg PC (registers m)) = true ->
  let v := cell (memory (main_memory m)) (reg PC (registers m)) in
  ~ (1 <= v <= 30 \/ v = 50) ->
  exists m',
    execution_cycle m = Exits INVALID_OPCODE m'
    /\ (forall n, run_execution_cycle (S n) m = Exits INVALID_OPCODE m')
    /\ memory (main_memory m') = memory (main_memory m)
    /\ instruction_counter m' = instruction_counter m
    /\ registers m'
       = set_reg IR v (set_reg PC (reg PC (registers m) + 1) (registers m))
    /\ console m'
       = String.append
           (String.append
              (String.append (String.append (console m) "EXIT CODE: ")
                 "INVALID OPCODE") endl) endl.
Proof.
  intros Hr Hp v Hv. apply decode_None in Hv.
  pose proof (permitted_range _ _ Hp) as [Ha _].
  assert (E : exists m',
             execution_cycle m = Exits INVALID_OPCODE m'
             /\ memory (main_memory m') = memory (main_memory m)
             /\ instruction_counter m' = instruction_counter m
             /\ registers m'
                = set_reg IR v
                    (set_reg PC (reg PC (registers m) + 1) (registers m))
             /\ console m'
                = String.append
                    (String.append
                       (String.append
                          (String.append (console m) "EXIT CODE: ")
                          "INVALID OPCODE") endl) endl).
  { unfold execution_cycle, fetchInstruction.
    rewrite bind_apply, bind_apply.
    change (get_reg PC m) with (Returns (reg PC (registers m)) m).
    cbv beta iota. rewrite bind_apply, (readMemory_permitted _ _ Hr Hp).
    cbv beta iota. unfold put_reg at 1, modify at 1. cbv beta iota.
    rewrite bind_apply. unfold get_reg at 1, gets at 1. cbv beta iota.
    rewrite bind_apply. unfold put_reg at 1, modify at 1. cbv beta iota.
    rewrite bind_apply. unfold executeInstruction.
    rewrite bind_apply. unfold get_reg at 1, gets at 1. cbv beta iota.
    cbn [registers with_registers reg set_reg IR PC r_ir r_pc].
    change (cell (memory (main_memory m)) (r_pc (registers m))) with v.
    rewrite Hv, !registers_after_read.
    rewrite int32_small by (unfold INT_MIN, INT_MAX; cbn in Ha; lia).
    eexists. split; [reflexivity|].
    destruct m as [[pc ir ac x y sp] ? ? ? ? ? ? [mem rp wp] ? ? ?].
    repeat split. }
  destruct E as (m' & E & H).
  exists m'. split; [exact E|]. split; [|exact H].
  intros n. now apply run_exit.
Qed.

Lemma invalid_opcode_halts_witness :
  let m := with_registers (mkRegisters 2 0 0 0 0 1000)
             (power_on ([1; 5; 99] ++ replicate 1997 0) (fun _ => 0)) in
  let v := cell (memory (main_memory m)) (reg PC (registers m)) in
  exists m',
    execution_cycle m = Exits INVALID_OPCODE m'
    /\ (forall n, run_execution_cycle (S n) m = Exits INVALID_OPCODE m')
    /\ memory (main_memory m') = memory (main_memory m)
    /\ instruction_counter m' = instruction_counter m
    /\ registers m'
       = set_reg IR v (set_reg PC (reg PC (registers m) + 1) (registers m))
    /\ console m'
       = String.append
           (String.append
              (String.append (String.append (console m) "EXIT CODE: ")
                 "INVALID OPCODE") endl) endl.
Proof.
  apply (invalid_opcode_halts
           (with_registers (mkRegisters 2 0 0 0 0 1000)
              (power_on ([1; 5; 99] ++ replicate 1997 0) (fun _ => 0)))).
  - repeat split.
  - reflexivity.
  - change (~ (1 <= 99 <= 30 \/ 99 = 50)). lia.
Defined.

(** X8. When the cell at PC may not be accessed in the current mode, the
    turn ends in the fetch with the exit code of the access rule that
    applies (a user program running on to address 1000 ends with
    KERNEL_MEM_ACCESS_DENIED); no request is sent and no register changes. *)
Theorem fetch_fault (m : Machine) :
  Check (reg PC (registers m)) (mode_of m) <> Ok ->
  execution_cycle m = enforce (Check (reg PC (registers m)) (mode_of m)) m
  /\ exists code m',
       execution_cycle m = Exits code m'
       /\ main_memory m' = main_memory m
       /\ registers m' = registers m
       /\ instruction_counter m' = instruction_counter m
       /\ (kernelMode m = false -> reg PC (registers m) = 1000 ->
           code = KERNEL_MEM_ACCESS_DENIED).
Proof.
  intros H.
  assert (E : execution_cycle m
              = enforce (Check (reg PC (registers m)) (mode_of m)) m).
  { unfold execution_cycle, fetchInstruction.
    rewrite bind_apply, bind_apply.
    change (get_reg PC m) with (Returns (reg PC (registers m)) m).
    cbv beta iota. rewrite bind_apply. unfold readMemory.
    rewrite bind_apply, verifyAccess_Check.
    destruct (Check _ _); [congruence | reflexivity..]. }
  split; [exact E|]. rewrite E.
  destruct (Check (reg PC (registers m)) (mode_of m)) eqn:C; [congruence|..];
    (eexists; eexists; split; [reflexivity|]; repeat split;
     intros Hk Hpc; unfold Check, mode_of in C; rewrite Hk, Hpc in C;
     cbn in C; congruence).
Qed.

Lemma fetch_fault_witness :
  let m := with_registers (mkRegisters 1000 0 0 0 0 1000)
             (power_on [] (fun _ => 0)) in
  execution_cycle m = enforce (Check (reg PC (registers m)) (mode_of m)) m
  /\ exists code m',
       execution_cycle m = Exits code m'
       /\ main_memory m' = main_memory m
       /\ registers m' = registers m
       /\ instruction_counter m' = instruction_counter m
       /\ (kernelMode m = false -> reg PC (registers m) = 1000 ->
           code = KERNEL_MEM_ACCESS_DENIED).
Proof.
  apply (fetch_fault (with_registers (mkRegisters 1000 0 0 0 0 1000)
                        (power_on [] (fun _ => 0)))).
  discriminate.
Defined.

(** ** What a mode can write *)

Section Confinement.
(** The mode and a property of the array that no write permitted in that
    mode can break. *)
Variable k : bool.
Variable M : list Z -> Prop.
Hypothesis M_write :
  forall mem a v, permitted k a = true -> M mem -> M (<[Z.to_nat a := v]> mem).

Lemma conf_get_reg (i : nat) : preserves (confined k M) (get_reg i).
Proof. apply preserves_gets. Qed.

Lemma conf_put_reg (i : nat) (v : Z) : preserves (confined k M) (put_reg i v).
Proof. apply preserves_modify. intros m H. exact H. Qed.

Lemma conf_print (s : string) : preserves (confined k M) (print s).
Proof. apply preserves_modify. intros m H. exact H. Qed.

Lemma conf_endProcess {A} (code : Z) :
  processor_exit code = true -> preserves (confined k M) (@endProcess A code).
Proof. intros Hc m H. split; [exact H | exact Hc]. Qed.

Lemma conf_rand : preserves (confined k M) rand.
Proof. intros m H. exact H. Qed.

Lemma conf_set_inactive_sys (v : Z) :
  preserves (confined k M) (modify (with_inactive_sys_stack v)).
Proof. apply preserves_modify. intros m H. exact H. Qed.

Lemma conf_set_inactive_proc (v : Z) :
  preserves (confined k M) (modify (with_inactive_proc_stack v)).
Proof. apply preserves_modify. intros m H. exact H. Qed.

Lemma conf_set_counter (c : Z) :
  preserves (confined k M) (modify (with_instruction_counter c)).
Proof. apply preserves_modify. intros m H. exact H. Qed.

Lemma conf_readMemory (a : Z) : preserves (confined k M) (readMemory a).
Proof.
  intros m (Hr & Hk & Hm).
  destruct (permitted (kernelMode m) a) eqn:Hp.
  - rewrite (readMemory_permitted _ _ Hr Hp).
    split; [now apply at_rest_after_read | split; assumption].
  - destruct (readMemory_denied _ _ Hp) as (code & -> & Hc).
    split; [exact (conj Hr (conj Hk Hm)) | exact Hc].
Qed.

Lemma conf_writeMemory (a v : Z) : preserves (confined k M) (writeMemory a v).
Proof.
  intros m (Hr & Hk & Hm).
  destruct (permitted (kernelMode m) a) eqn:Hp.
  - rewrite (writeMemory_permitted _ v _ Hr Hp).
    split; [now apply at_rest_after_write | split; [exact Hk|]].
    cbn. apply M_write; [now rewrite <- Hk | exact Hm].
  - destruct (writeMemory_denied _ v _ Hp) as (code & -> & Hc).
    split; [exact (conj Hr (conj Hk Hm)) | exact Hc].
Qed.

Hint Resolve preserves_ret preserves_gets preserves_when preserves_if
  conf_get_reg conf_put_reg conf_print conf_rand conf_set_inactive_sys
  conf_set_inactive_proc conf_set_counter conf_readMemory conf_writeMemory
  : core.

Ltac conf_step :=
  first [ solve [auto]
        | apply conf_endProcess; reflexivity
        | apply preserves_if
        | apply preserves_for_each; intro
        | apply preserves_bind; [|intro] ].

Lemma conf_pushStack (v : Z) : preserves (confined k M) (pushStack v).
Proof. unfold pushStack. repeat conf_step. Qed.

Lemma conf_popStack : preserves (confined k M) popStack.
Proof. unfold popStack. repeat conf_step. Qed.

Lemma conf_readNext : preserves (confined k M) readNext.
Proof. unfold readNext. repeat conf_step. Qed.

Lemma conf_pushRegistersOnStack :
  preserves (confined k M) pushRegistersOnStack.
Proof. unfold pushRegistersOnStack. repeat conf_step. Qed.

Lemma conf_popRegistersOnStack :
  preserves (confined k M) popRegistersOnStack.
Proof. unfold popRegistersOnStack. repeat conf_step. Qed.

Lemma conf_fetchInstruction : preserves (confined k M) fetchInstruction.
Proof. unfold fetchInstruction. repeat conf_step. Qed.

Hint Resolve conf_pushStack conf_popStack conf_readNext
  conf_pushRegistersOnStack conf_popRegistersOnStack : core.

Lemma conf_execute_plain (i : instruction) :
  i <> SYSCALL -> i <> SYSRETURN -> preserves (confined k M) (execute i).
Proof.
  intros H1 H2. destruct i; try congruence; unfold execute; repeat conf_step.
Qed.

Lemma conf_count_instruction : preserves (confined k M) count_instruction.
Proof. unfold count_instruction. repeat conf_step. Qed.

(** The phase up to the end of [executeInstruction], given that the
    instruction in the cell at PC keeps the property. *)
Lemma conf_instruction_phase (m : Machine) :
  confined k M m ->
  (forall i,
     decode (cell (memory (main_memory m)) (reg PC (registers m))) = Some i ->
     preserves (confined k M) (execute i)) ->
  holds (confined k M) (instruction_phase m).
Proof.
  intros (Hr & Hk & Hm) Hex.
  unfold instruction_phase, fetchInstruction.
  rewrite bind_apply, bind_apply.
  change (get_reg PC m) with (Returns (reg PC (registers m)) m).
  cbv beta iota. rewrite bind_apply.
  destruct (permitted (kernelMode m) (reg PC (registers m))) eqn:Hp.
  - rewrite (readMemory_permitted _ _ Hr Hp). cbv beta iota.
    cbn [put_reg modify bind get_reg gets].
    unfold executeInstruction, bind, get_reg, gets.
    cbn [registers with_registers reg set_reg IR r_ir].
    change (r_pc (registers m)) with (reg PC (registers m)).
    destruct (decode _) as [i|] eqn:Hd.
    + apply (Hex i eq_refl).
      split; [now apply at_rest_after_read | split; assumption].
    + apply conf_endProcess; [reflexivity|].
      split; [now apply at_rest_after_read | split; assumption].
  - destruct (readMemory_denied _ _ Hp) as (code & -> & Hc).
    cbn. split; [exact (conj Hr (conj Hk Hm)) | exact Hc].
Qed.
End Confinement.

Lemma holds_then {A B} (P P' : Machine -> Prop) (c : Proc A)
    (k : A -> Proc B) (m : Machine) :
  (forall m', P m' -> P' m') ->
  holds P (c m) ->
  (forall a m', P m' -> holds P' (k a m')) ->
  holds P' (bind c k m).
Proof.
  intros Hw Hc Hk. rewrite bind_apply.
  destruct (c m); simpl in *; auto. destruct Hc. auto.
Qed.

Lemma kernel_write_keeps_user (mem0 mem : list Z) (a v : Z) :
  permitted true a = true ->
  same_cells 0 1000 mem0 mem ->
  same_cells 0 1000 mem0 (<[Z.to_nat a := v]> mem).
Proof.
  intros Hp H b Hb. apply permitted_range in Hp as [Ha Hk].
  rewrite cell_insert_ne by lia. now apply H.
Qed.

Lemma user_write_keeps_kernel (mem0 mem : list Z) (a v : Z) :
  permitted false a = true ->
  same_cells 1000 2000 mem0 mem ->
  same_cells 1000 2000 mem0 (<[Z.to_nat a := v]> mem).
Proof.
  intros Hp H b Hb. apply permitted_range in Hp as [Ha Hk].
  rewrite cell_insert_ne by lia. now apply H.
Qed.

(** In kernel mode a call of [syscall] does nothing. *)
Lemma conf_syscall_kernel (M : list Z -> Prop) (h : Z) :
  preserves (confined true M) (syscall h).
Proof.
  intros m (Hr & Hk & Hm). rewrite (syscall_dropped _ _ Hk).
  exact (conj Hr (conj Hk Hm)).
Qed.

(** In user mode [return_syscall] stays in user mode. *)
Lemma conf_return_user (M : list Z -> Prop) :
  preserves (confined false M) return_syscall.
Proof.
  unfold return_syscall.
  apply preserves_bind; [apply conf_popRegistersOnStack | intro].
  apply preserves_bind; [apply conf_get_reg | intro].
  apply preserves_bind; [apply conf_set_inactive_sys | intro].
  apply preserves_bind; [apply preserves_gets | intro].
  apply preserves_bind; [apply conf_put_reg | intro].
  intros m (Hr & Hk & Hm). exact (conj Hr (conj eq_refl Hm)).
Qed.

(** Whatever the mode, entering an interrupt writes kernel cells only. *)
Lemma syscall_keeps_user (mem0 : list Z) (h : Z) :
  preserves (fun m => at_rest (main_memory m)
                      /\ same_cells 0 1000 mem0 (memory (main_memory m)))
            (syscall h).
Proof.
  intros m (Hr & Hm).
  destruct (kernelMode m) eqn:Hk.
  - rewrite (syscall_dropped _ _ Hk). now split.
  - destruct (interruptEnabledFlag m) eqn:He.
    + rewrite (syscall_switches _ _ Hk He).
      apply (holds_weaken (confined true (same_cells 0 1000 mem0))).
      { intros m' (H1 & _ & H2). now split. }
      apply holds_bind; [|intro; apply conf_put_reg].
      apply conf_pushRegistersOnStack.
      * apply kernel_write_keeps_user.
      * exact (conj Hr (conj eq_refl Hm)).
    + rewrite (syscall_disabled _ _ He). now split.
Qed.

Lemma checkInterrupt_keeps_user (mem0 : list Z) :
  preserves (fun m => at_rest (main_memory m)
                      /\ same_cells 0 1000 mem0 (memory (main_memory m)))
            checkInterrupt.
Proof.
  unfold checkInterrupt.
  apply preserves_bind; [apply preserves_gets | intro counter].
  apply preserves_bind; [apply preserves_gets | intro timer].
  apply preserves_bind; [|intro r].
  - unfold int_rem.
    apply preserves_if; [intros m H; exact H | apply preserves_ret].
  - apply preserves_when, syscall_keeps_user.
Qed.

(** X9. A turn of the loop that starts in kernel mode changes no user cell
    (addresses 0..999), whatever the instruction is, an interrupt return
    followed at once by the timer interrupt included. *)
Theorem kernel_turn_keeps_user_memory (m : Machine) :
  at_rest (main_memory m) ->
  kernelMode m = true ->
  holds (fun m' => same_cells 0 1000 (memory (main_memory m))
                     (memory (main_memory m')))
        (execution_cycle m).
Proof.
  intros Hr Hk.
  set (mem0 := memory (main_memory m)).
  set (Pw := fun m' => at_rest (main_memory m')
                       /\ same_cells 0 1000 mem0 (memory (main_memory m'))).
  apply (holds_weaken Pw); [now intros m' [_ H]|].
  assert (Hw : forall m', confined true (same_cells 0 1000 mem0) m' -> Pw m')
    by (intros m' (H1 & _ & H2); now split).
  assert (H0 : confined true (same_cells 0 1000 mem0) m).
  { split; [exact Hr | split; [exact Hk|]]. intros a _. reflexivity. }
  rewrite execution_cycle_phases.
  apply holds_bind; [|intro; apply checkInterrupt_keeps_user].
  apply holds_bind.
  2:{ intro. unfold count_instruction.
      apply preserves_bind; [apply preserves_gets | intro].
      apply preserves_modify. intros m' H. exact H. }
  unfold instruction_phase.
  apply (holds_then (confined true (same_cells 0 1000 mem0))); [exact Hw | |].
  { apply conf_fetchInstruction. exact H0. }
  intros _ m1 H1. rewrite bind_apply.
  change (get_reg PC m1) with (Returns (reg PC (registers m1)) m1).
  cbv beta iota. rewrite bind_apply. unfold put_reg at 1, modify at 1.
  cbv beta iota. unfold executeInstruction. rewrite bind_apply.
  unfold get_reg at 1, gets at 1. cbv beta iota.
  match goal with |- holds _ (_ ?m') =>
    assert (H2 : confined true (same_cells 0 1000 mem0) m') by exact H1;
    revert H2; generalize m'; intros m2 H2
  end.
  destruct (decode _) as [i|].
  - destruct (decide (i = SYSRETURN)) as [->|Hi].
    + unfold execute, return_syscall.
      apply (holds_then (confined true (same_cells 0 1000 mem0)));
        [exact Hw | |].
      { apply conf_popRegistersOnStack. exact H2. }
      intros _ m3 (H3 & _ & H4). split; [exact H3 | exact H4].
    + apply (holds_weaken (confined true (same_cells 0 1000 mem0)));
        [exact Hw|].
      destruct (decide (i = SYSCALL)) as [->|Hs].
      * now apply conf_syscall_kernel.
      * apply conf_execute_plain;
          [apply kernel_write_keeps_user | exact Hs | exact Hi | exact H2].
  - apply (holds_weaken (confined true (same_cells 0 1000 mem0)));
      [exact Hw|].
    now apply conf_endProcess.
Qed.

Lemma kernel_turn_keeps_user_memory_witness :
  let m := with_kernelMode true
             (with_registers (mkRegisters 1000 0 7 0 0 2000)
                (power_on (replicate 1000 0 ++ [27; 30] ++ replicate 998 0)
                          (fun _ => 0))) in
  holds (fun m' => same_cells 0 1000 (memory (main_memory m))
                     (memory (main_memory m')))
        (execution_cycle m).
Proof.
  apply (kernel_turn_keeps_user_memory
           (with_kernelMode true
             (with_registers (mkRegisters 1000 0 7 0 0 2000)
                (power_on (replicate 1000 0 ++ [27; 30] ++ replicate 998 0)
                          (fun _ => 0))))).
  - repeat split.
  - reflexivity.
Defined.

(** X10. In user mode an instruction other than SYSCALL changes no kernel
    cell (addresses 1000..1999) and leaves the machine in user mode. *)
Theorem user_instruction_keeps_kernel_memory (m : Machine) :
  at_rest (main_memory m) ->
  kernelMode m = false ->
  cell (memory (main_memory m)) (reg PC (registers m)) <> opcode SYSCALL ->
  holds (fun m' => kernelMode m' = false
                   /\ same_cells 1000 2000 (memory (main_memory m))
                        (memory (main_memory m')))
        (instruction_phase m).
Proof.
  intros Hr Hk Hop.
  set (mem0 := memory (main_memory m)).
  apply (holds_weaken (confined false (same_cells 1000 2000 mem0))).
  { intros m' (_ & H1 & H2). now split. }
  apply conf_instruction_phase.
  - split; [exact Hr | split; [exact Hk|]]. intros a _. reflexivity.
  - intros i Hd. apply decode_opcode in Hd.
    destruct (decide (i = SYSRETURN)) as [->|Hi].
    + apply conf_return_user.
    + apply conf_execute_plain.
      * apply user_write_keeps_kernel.
      * intros ->. apply Hop. symmetry. exact Hd.
      * exact Hi.
Qed.

Lemma user_instruction_keeps_kernel_memory_witness :
  let m := with_registers (mkRegisters 0 0 7 0 0 1000)
             (power_on ([7; 1500] ++ replicate 1998 0) (fun _ => 0)) in
  holds (fun m' => kernelMode m' = false
                   /\ same_cells 1000 2000 (memory (main_memory m))
                        (memory (main_memory m')))
        (instruction_phase m).
Proof.
  apply (user_instruction_keeps_kernel_memory
           (with_registers (mkRegisters 0 0 7 0 0 1000)
              (power_on ([7; 1500] ++ replicate 1998 0) (fun _ => 0)))).
  - repeat split.
  - reflexivity.
  - discriminate.
Defined.

(** ** The counter, the timer value and the pipes over a run *)

Lemma cycle_counts (Q : bool -> bool -> Prop) (N c0 : Z) (m m' : Machine) :
  (Q false true -> Q true false) -> Q false true ->
  inv Q (fun t c => t = N /\ c = c0) m ->
  execution_cycle m = Returns tt m' ->
  inv Q (fun t c => t = N /\ c = int32 (c0 + 1)) m'.
Proof.
  intros Qe Ql Hinv E.
  rewrite execution_cycle_phases, bind_apply, bind_apply in E.
  pose proof (inv_instruction_phase _ _ Qe Ql m Hinv) as Hph.
  destruct (instruction_phase m) as [[] ma| | |]; try discriminate.
  destruct Hph as (Hr & Hw & Hq & Ht & Hc).
  unfold count_instruction, bind, gets, modify in E. rewrite Hc in E.
  assert (Hb : inv Q (fun t c => t = N /\ c = int32 (c0 + 1))
                 (with_instruction_counter (int32 (c0 + 1)) ma))
    by exact (conj Hr (conj Hw (conj Hq (conj Ht eq_refl)))).
  pose proof (inv_checkInterrupt _ _ Qe _ Hb) as Hci.
  rewrite E in Hci. exact Hci.
Qed.

Lemma run_counts (Q : bool -> bool -> Prop) (N : Z) (n : nat) :
  (Q false true -> Q true false) -> Q false true ->
  forall c0 m m',
    0 <= c0 -> c0 + Z.of_nat n <= INT_MAX ->
    inv Q (fun t c => t = N /\ c = c0) m ->
    run_execution_cycle n m = Returns tt m' ->
    inv Q (fun t c => t = N /\ c = c0 + Z.of_nat n) m'.
Proof.
  intros Qe Ql. induction n as [|n IH]; intros c0 m m' H0 Hmax Hinv E.
  - cbn in E. injection E as <-. now rewrite Z.add_0_r.
  - cbn [run_execution_cycle] in E. rewrite bind_apply in E.
    destruct (execution_cycle m) as [[] m1| | |] eqn:E1; try discriminate.
    pose proof (cycle_counts Q N c0 m m1 Qe Ql Hinv E1) as H1.
    rewrite int32_small in H1 by (unfold INT_MIN, INT_MAX in *; lia).
    replace (c0 + Z.of_nat (S n)) with (c0 + 1 + Z.of_nat n) by lia.
    apply (IH (c0 + 1) m1 m'); [lia | lia | exact H1 | exact E].
Qed.

(** X11. While the loop is running, [instruction_counter] is the number of
    turns completed since [run_processor] started (up to INT_MAX), and
    [interrupt_timer] still is the value given on the command line. *)
Theorem counter_counts_turns (image : list Z) (rnd : nat -> Z) (N : Z)
    (n : nat) (m' : Machine) :
  length image = 2000%nat ->
  Z.of_nat n <= INT_MAX ->
  run_processor N n (power_on image rnd) = Returns tt m' ->
  instruction_counter m' = Z.of_nat n /\ interrupt_timer m' = N.
Proof.
  intros Hlen Hn E.
  unfold run_processor in E. rewrite bind_apply in E.
  assert (H0 : inv (fun _ _ => True) (fun t c => t = N /\ c = 0)
                 (with_kernelMode false
                    (with_interruptEnabledFlag true
                       (with_instruction_counter 0
                          (with_registers
                             (set_reg SP SYS_INDEX
                                (set_reg PC 0
                                   (registers (power_on image rnd))))
                             (with_inactive_proc_stack SYS_INDEX
                                (with_inactive_sys_stack MEMORY_SIZE
                                   (with_interrupt_timer N
                                      (power_on image rnd))))))))).
  { repeat split. exact Hlen. }
  pose proof (run_counts (fun _ _ => True) N n (fun _ => I) I 0 _ m'
                ltac:(lia) ltac:(lia) H0 E) as (_ & _ & _ & Ht & Hc).
  split; [lia | exact Ht].
Qed.

Lemma counter_counts_turns_witness :
  exists m',
    run_processor 9 3 (power_on (scenario ++ replicate 1991 0) (fun _ => 0))
    = Returns tt m'
    /\ instruction_counter m' = Z.of_nat 3 /\ interrupt_timer m' = 9.
Proof.
  eexists. split; [vm_compute; reflexivity|].
  apply (counter_counts_turns (scenario ++ replicate 1991 0) (fun _ => 0) 9 3).
  - reflexivity.
  - discriminate.
  - vm_compute. reflexivity.
Defined.

(** X12. Between two instructions, and when the process ends, nothing is
    in flight: every request the processor wrote has been read by main
    memory, every answer has been read by the processor, and the array
    still has 2000 cells.  The processor never waits for an answer that
    does not come. *)
Theorem requests_and_answers_alternate (image : list Z) (rnd : nat -> Z)
    (N : Z) (n : nat) :
  length image = 2000%nat ->
  holds (fun m =>
           length (memory (main_memory m)) = 2000%nat
           /\ pending (readpipe (main_memory m)) = []
           /\ pending (writepipe (main_memory m)) = [])
        (run_processor N n (power_on image rnd)).
Proof.
  intros Hlen.
  apply (holds_weaken (inv (fun _ _ => True) (fun t _ => t = N))).
  - intros m ((H1 & H2 & H3) & _). auto using pending_idle.
  - apply inv_run_processor; auto.
Qed.

Lemma requests_and_answers_alternate_witness :
  holds (fun m =>
           length (memory (main_memory m)) = 2000%nat
           /\ pending (readpipe (main_memory m)) = []
           /\ pending (writepipe (main_memory m)) = [])
        (run_processor 2 9
           (power_on (scenario ++ replicate 1991 30) (fun _ => 0))).
Proof.
  apply (requests_and_answers_alternate (scenario ++ replicate 1991 30)).
  reflexivity.
Defined.

(** * Further properties of main memory *)

Lemma pending_empty_read (p : Pipe) : pending p = [] -> pipe_read p = None.
Proof.
  unfold pending, pipe_read. intros H.
  assert (Hl : (length (stream p) <= consumed p)%nat).
  { pose proof (length_drop (stream p) (consumed p)) as E.
    rewrite H in E. simpl in E. lia. }
  now rewrite (lookup_ge_None_2 _ _ Hl).
Qed.

(** X13. A request whose kind is neither READ nor WRITE is answered with
    the single field INVALID_MEM_ACTION; two fields are taken from the pipe
    and the array is left as it was. *)
Theorem signalhandler_unknown_kind (mm : MainMemory) (kind a : Z)
    (rest : list Z) :
  pending (readpipe mm) = kind :: a :: rest ->
  kind <> READ -> kind <> WRITE ->
  exists mm',
    signalhandler mm = Some mm'
    /\ memory mm' = memory mm
    /\ stream (writepipe mm')
       = stream (writepipe mm) ++ [INVALID_MEM_ACTION]
    /\ pending (readpipe mm') = rest.
Proof.
  intros H Hr Hw. unfold signalhandler.
  rewrite (pending_read _ _ _ H).
  pose proof (pending_next _ _ _ H) as H1.
  rewrite (pending_read _ _ _ H1).
  pose proof (pending_next _ _ _ H1) as H2.
  replace (kind =? READ) with false by lia.
  replace (kind =? WRITE) with false by lia.
  eexists. split; [reflexivity|]. repeat split. exact H2.
Qed.

Lemma signalhandler_unknown_kind_witness :
  exists mm',
    signalhandler (mkMainMemory [4; 5] (mkPipe [7; 0; 3] 0) empty_pipe)
    = Some mm'
    /\ memory mm' = [4; 5]
    /\ stream (writepipe mm') = [] ++ [INVALID_MEM_ACTION]
    /\ pending (readpipe mm') = [3].
Proof.
  apply (signalhandler_unknown_kind
           (mkMainMemory [4; 5] (mkPipe [7; 0; 3] 0) empty_pipe) 7 0 [3]).
  - reflexivity.
  - discriminate.
  - discriminate.
Defined.

(** X14. The handler does not act on a partial message: with no field or
    only the kind on the pipe it stays in [read], and so it does for a
    WRITE to a cell of the array whose value has not arrived; nothing is
    answered and nothing is stored. *)
Theorem signalhandler_partial_request (mm : MainMemory) (kind a : Z) :
  (pending (readpipe mm) = [] -> signalhandler mm = None)
  /\ (pending (readpipe mm) = [kind] -> signalhandler mm = None)
  /\ (pending (readpipe mm) = [WRITE; a] -> 0 <= a < 2000 ->
      signalhandler mm = None).
Proof.
  unfold signalhandler. repeat split.
  - intros H. now rewrite (pending_empty_read _ H).
  - intros H. rewrite (pending_read _ _ _ H).
    now rewrite (pending_empty_read _ (pending_next _ _ _ H)).
  - intros H Ha. rewrite (pending_read _ _ _ H).
    pose proof (pending_next _ _ _ H) as H1.
    rewrite (pending_read _ _ _ H1).
    pose proof (pending_next _ _ _ H1) as H2.
    change (WRITE =? READ) with false. change (WRITE =? WRITE) with true.
    cbv iota. fold (in_memory a).
    rewrite (proj2 (in_memory_spec a) Ha).
    cbn [readpipe]. now rewrite (pending_empty_read _ H2).
Qed.

Lemma signalhandler_partial_request_witness :
  signalhandler (mkMainMemory [4; 5] (mkPipe [WRITE; 1] 0) empty_pipe) = None.
Proof.
  apply (signalhandler_partial_request
           (mkMainMemory [4; 5] (mkPipe [WRITE; 1] 0) empty_pipe) 0 1).
  - reflexivity.
  - lia.
Defined.

(** X15. Whenever the handler returns, the array has the size it had, the
    inbound pipe has been read only (two or three fields), and the answer
    is one status field, followed by one value field exactly when the
    status is SUCCESS for a READ. *)
Theorem signalhandler_answers_once (mm mm' : MainMemory) :
  signalhandler mm = Some mm' ->
  length (memory mm') = length (memory mm)
  /\ stream (readpipe mm') = stream (readpipe mm)
  /\ (consumed (readpipe mm') = (2 + consumed (readpipe mm))%nat
      \/ consumed (readpipe mm') = (3 + consumed (readpipe mm))%nat)
  /\ consumed (writepipe mm') = consumed (writepipe mm)
  /\ exists status,
       (stream (writepipe mm') = stream (writepipe mm) ++ [status]
        \/ exists value,
             status = SUCCESS
             /\ stream (writepipe mm')
                = stream (writepipe mm) ++ [status; value]).
Proof.
  unfold signalhandler, pipe_read. intros H.
  destruct (stream (readpipe mm) !! consumed (readpipe mm)) as [action|];
    [|discriminate].
  cbn [stream consumed] in H.
  destruct (stream (readpipe mm) !! S (consumed (readpipe mm)))
    as [address|]; [|discriminate].
  cbn [memory readpipe writepipe stream consumed] in H.
  destruct (action =? READ).
  - destruct (_ && _); injection H as <-; cbn;
      (split; [reflexivity|]); (split; [reflexivity|]);
      (split; [now left|]); (split; [reflexivity|]).
    + exists SUCCESS. right. eexists. split; [reflexivity|].
      now rewrite <- app_assoc.
    + exists READ_FAILURE. now left.
  - destruct (action =? WRITE).
    + destruct (_ && _).
      * destruct (stream (readpipe mm) !! S (S (consumed (readpipe mm))))
          as [value|]; [|discriminate].
        injection H as <-. cbn. rewrite length_insert.
        split; [reflexivity|]. split; [reflexivity|].
        split; [now right|]. split; [reflexivity|].
        exists SUCCESS. now left.
      * injection H as <-. cbn.
        split; [reflexivity|]. split; [reflexivity|].
        split; [now left|]. split; [reflexivity|].
        exists WRITE_FAILURE. now left.
    + injection H as <-. cbn.
      split; [reflexivity|]. split; [reflexivity|].
      split; [now left|]. split; [reflexivity|].
      exists INVALID_MEM_ACTION. now left.
Qed.

Lemma signalhandler_answers_once_witness :
  let mm := mkMainMemory [4; 5] (mkPipe [READ; 1] 0) empty_pipe in
  let mm' := mkMainMemory [4; 5] (mkPipe [READ; 1] 2) (mkPipe [SUCCESS; 5] 0) in
  length (memory mm') = length (memory mm)
  /\ stream (readpipe mm') = stream (readpipe mm)
  /\ (consumed (readpipe mm') = (2 + consumed (readpipe mm))%nat
      \/ consumed (readpipe mm') = (3 + consumed (readpipe mm))%nat)
  /\ consumed (writepipe mm') = consumed (writepipe mm)
  /\ exists status,
       (stream (writepipe mm') = stream (writepipe mm) ++ [status]
        \/ exists value,
             status = SUCCESS
             /\ stream (writepipe mm')
                = stream (writepipe mm) ++ [status; value]).
Proof.
  apply (signalhandler_answers_once
           (mkMainMemory [4; 5] (mkPipe [READ; 1] 0) empty_pipe)).
  reflexivity.
Defined.

(** * Further properties of the loader and the command line *)

(** ** Decimal numerals *)

Ltac digit_step :=
  cbn [NilEmpty.string_of_uint read_digits leading_digits];
  repeat match goal with
  | |- context [digit_value ?c] =>
      let v := eval vm_compute in (digit_value c) in
      change (digit_value c) with v
  | |- context [isdigit ?c] =>
      let v := eval vm_compute in (isdigit c) in
      change (isdigit c) with v
  end;
  cbv iota beta.

Ltac digit_below :=
  match goal with
  | |- context [if ?b then _ else _] => change b with true; cbv iota
  end.

Lemma read_digits_acc (d : Decimal.uint) (p : positive) :
  read_digits 10 (NilEmpty.string_of_uint d) (Some (Z.pos p))
  = Some (Z.pos (Pos.of_uint_acc d p)).
Proof.
  revert p. induction d; intros p; digit_step; try reflexivity.
  all: digit_below; cbn [Pos.of_uint_acc].
  all: rewrite <- IHd; f_equal; f_equal; cbn; lia.
Qed.

Lemma read_digits_zero (d : Decimal.uint) :
  read_digits 10 (NilEmpty.string_of_uint d) (Some 0)
  = Some (Z.of_N (Pos.of_uint d)).
Proof.
  induction d; digit_step; try reflexivity.
  all: digit_below.
  1: exact IHd.
  all: cbn [default Z.mul Z.add Pos.of_uint Z.of_N]; apply read_digits_acc.
Qed.

Lemma read_digits_uint (d : Decimal.uint) :
  d <> Decimal.Nil ->
  read_digits 10 (NilEmpty.string_of_uint d) None
  = Some (Z.of_N (Pos.of_uint d)).
Proof.
  intros Hd. rewrite <- read_digits_zero.
  destruct d; try congruence; digit_step; reflexivity.
Qed.

Lemma nzhead_head (d : Decimal.uint) :
  Decimal.nzhead d = Decimal.Nil \/ nonzero_head (Decimal.nzhead d).
Proof.
  induction d; cbn; auto.
Qed.

Lemma to_uint_head (p : positive) : nonzero_head (Pos.to_uint p).
Proof.
  assert (E : Pos.to_uint p = Decimal.unorm (Pos.to_uint p)).
  { rewrite <- DecimalPos.Unsigned.to_of, DecimalPos.Unsigned.of_to.
    reflexivity. }
  pose proof (DecimalPos.Unsigned.to_uint_nonzero p) as Hz.
  rewrite E in Hz |- *. unfold Decimal.unorm in *.
  destruct (nzhead_head (Pos.to_uint p)) as [H|H].
  - rewrite H in Hz. congruence.
  - destruct (Decimal.nzhead (Pos.to_uint p)); cbn in H |- *; tauto.
Qed.

Lemma string_of_Z_pos (p : positive) :
  string_of_Z (Z.pos p) = NilEmpty.string_of_uint (Pos.to_uint p).
Proof.
  unfold string_of_Z. cbn. pose proof (to_uint_head p) as H.
  destruct (Pos.to_uint p); cbn in H; try tauto; reflexivity.
Qed.

(** The conversion of [strtol] in base 10 on a string that starts with a
    digit. *)
Lemma strtol_10_uint (d : Decimal.uint) :
  d <> Decimal.Nil ->
  strtol (NilEmpty.string_of_uint d) 10
  = Some (Z.of_N (Pos.of_uint d)).
Proof.
  intros Hd. rewrite <- (read_digits_uint d Hd).
  destruct d; try congruence; cbn [NilEmpty.string_of_uint].
  all: unfold strtol; cbn [skip_spaces];
    match goal with
    | |- context [isspace ?c] => change (isspace c) with false; cbv iota
    end.
  2-10: cbv beta iota zeta; change (10 =? 0)%Z with false; cbv beta iota;
    destruct (read_digits _ _ _); reflexivity.
  destruct (NilEmpty.string_of_uint d) as [|x [|h t]];
    cbv beta iota zeta; change (10 =? 0)%Z with false;
    change (10 =? 16)%Z with false; cbv beta iota;
    cbn [orb andb]; cbv beta iota;
    destruct (read_digits _ _ _); reflexivity.
Qed.

Lemma strtol_0_pos (p : positive) :
  strtol (string_of_Z (Z.pos p)) 0 = Some (Z.pos p).
Proof.
  rewrite string_of_Z_pos.
  change (Some (Z.pos p)) with (Some (Z.of_N (N.pos p))).
  rewrite <- (DecimalPos.Unsigned.of_to p).
  rewrite <- read_digits_uint by apply DecimalPos.Unsigned.to_uint_nonnil.
  pose proof (to_uint_head p) as H.
  destruct (Pos.to_uint p); cbn in H; try tauto;
    cbn [NilEmpty.string_of_uint]; unfold strtol; cbn [skip_spaces];
    match goal with
    | |- context [isspace ?c] => change (isspace c) with false; cbv iota
    end;
    cbv beta iota zeta; change (0 =? 0)%Z with true; cbv beta iota;
    destruct (read_digits _ _ _); reflexivity.
Qed.

Lemma strtol_10_nonneg (v : Z) :
  0 <= v -> strtol (string_of_Z v) 10 = Some v.
Proof.
  intros Hv. destruct v as [|p|p]; try lia.
  - reflexivity.
  - rewrite string_of_Z_pos, strtol_10_uint
      by apply DecimalPos.Unsigned.to_uint_nonnil.
    rewrite DecimalPos.Unsigned.of_to. reflexivity.
Qed.

Lemma strtol_0_nonneg (v : Z) :
  0 <= v -> strtol (string_of_Z v) 0 = Some v.
Proof.
  intros Hv. destruct v as [|p|p]; try lia.
  - reflexivity.
  - apply strtol_0_pos.
Qed.

Lemma strtol_10_neg (p : positive) :
  strtol (string_of_Z (Z.neg p)) 10 = Some (Z.neg p).
Proof.
  assert (R : read_digits 10 (NilEmpty.string_of_uint (Pos.to_uint p)) None
              = Some (Z.pos p)).
  { rewrite read_digits_uint by apply DecimalPos.Unsigned.to_uint_nonnil.
    rewrite DecimalPos.Unsigned.of_to. reflexivity. }
  pose proof (to_uint_head p) as Hh.
  unfold string_of_Z. cbn [Z.to_int NilZero.string_of_int].
  revert R.
  destruct (Pos.to_uint p); cbn in Hh; try tauto;
    cbn [NilZero.string_of_uint NilEmpty.string_of_uint];
    intros R; unfold strtol; cbn [skip_spaces];
    match goal with
    | |- context [isspace ?c] => change (isspace c) with false; cbv iota
    end;
    cbv beta iota zeta; change (10 =? 0)%Z with false; cbv beta iota;
    rewrite R; reflexivity.
Qed.

Lemma stoi_10_nonneg (v : Z) :
  0 <= v ->
  stoi (string_of_Z v) 10
  = if v <=? INT_MAX then stoi_value v else out_of_range.
Proof.
  intros Hv. unfold stoi. rewrite strtol_10_nonneg by exact Hv.
  unfold INT_MIN, INT_MAX.
  destruct (v <? -2147483648) eqn:A; [lia|].
  destruct (2147483647 <? v) eqn:B, (v <=? 2147483647) eqn:C;
    try lia; reflexivity.
Qed.

(** ** Loading the program file *)

Lemma numeral_string (v : Z) :
  0 <= v ->
  exists d, d <> Decimal.Nil /\ string_of_Z v = NilEmpty.string_of_uint d.
Proof.
  intros Hv. destruct v as [|p|p]; try lia.
  - exists (Decimal.D0 Decimal.Nil). split; [discriminate | reflexivity].
  - exists (Pos.to_uint p). split.
    + apply DecimalPos.Unsigned.to_uint_nonnil.
    + apply string_of_Z_pos.
Qed.

Lemma leading_digits_uint (d : Decimal.uint) (rest : string) :
  ends_number rest ->
  leading_digits (NilEmpty.string_of_uint d ++ rest)
  = NilEmpty.string_of_uint d.
Proof.
  intros Hr. induction d; cbn [NilEmpty.string_of_uint String.append].
  1: { destruct rest as [|c t]; [reflexivity|].
       cbn in Hr |- *. rewrite Hr. reflexivity. }
  all: digit_step; rewrite IHd; reflexivity.
Qed.

Lemma select_operation_indented (indent : nat) (text : string) :
  select_operation (indented indent text) = select_operation text.
Proof.
  induction indent; [reflexivity|]. cbn. exact IHindent.
Qed.

Lemma select_operation_uint (d : Decimal.uint) (rest : string) :
  d <> Decimal.Nil ->
  select_operation (NilEmpty.string_of_uint d ++ rest)
  = Some (LOAD, (NilEmpty.string_of_uint d ++ rest)%string).
Proof.
  intros Hd. destruct d; try congruence; reflexivity.
Qed.

Lemma indented_nonempty (indent : nat) (text : string) :
  text <> EmptyString -> indented indent text <> EmptyString.
Proof.
  intros Ht. destruct indent; [exact Ht | discriminate].
Qed.

Lemma load_line_nonempty (line : string) (st : list Z * Z) :
  line <> EmptyString ->
  load_line line st
  = match select_operation line with
    | None => Undefined
    | Some (JUMP_AHEAD, rest) =>
        match stoi (leading_digits rest) 10 with
        | stoi_value v => Loaded (st.1, v)
        | _ => Thrown st
        end
    | Some (LOAD, rest) =>
        match stoi (leading_digits rest) 10 with
        | stoi_value v =>
            if (0 <=? st.2) && (st.2 <? MEMORY_SIZE)
            then Loaded (<[Z.to_nat st.2 := v]> st.1, st.2 + 1)
            else Undefined
        | _ => Thrown st
        end
    | Some (SKIP, _) => Loaded st
    end.
Proof.
  intros Hl. destruct st as [mem address].
  destruct line; [congruence | reflexivity].
Qed.

Lemma uint_string_nonempty (d : Decimal.uint) (rest : string) :
  d <> Decimal.Nil -> (NilEmpty.string_of_uint d ++ rest)%string <> EmptyString.
Proof.
  intros Hd. destruct d; try congruence; discriminate.
Qed.

(** A line that holds a number, whatever stands before and after it. *)
Lemma load_line_number (indent : nat) (v : Z) (rest : string)
    (st : list Z * Z) :
  0 <= v -> ends_number rest ->
  load_line (indented indent (string_of_Z v ++ rest)) st
  = if v <=? INT_MAX
    then if (0 <=? st.2) && (st.2 <? MEMORY_SIZE)
         then Loaded (<[Z.to_nat st.2 := v]> st.1, st.2 + 1)
         else Undefined
    else Thrown st.
Proof.
  intros Hv Hr. destruct (numeral_string v Hv) as (d & Hd & E).
  rewrite load_line_nonempty
    by (apply indented_nonempty; rewrite E; apply uint_string_nonempty, Hd).
  rewrite select_operation_indented, E, select_operation_uint by exact Hd.
  rewrite leading_digits_uint by exact Hr.
  rewrite <- E, stoi_10_nonneg by exact Hv.
  destruct (v <=? INT_MAX); reflexivity.
Qed.

Lemma load_line_address (indent : nat) (v : Z) (rest : string)
    (st : list Z * Z) :
  0 <= v -> ends_number rest ->
  load_line (indented indent (String "." (string_of_Z v ++ rest))) st
  = if v <=? INT_MAX then Loaded (st.1, v) else Thrown st.
Proof.
  intros Hv Hr. destruct (numeral_string v Hv) as (d & Hd & E).
  rewrite load_line_nonempty by (apply indented_nonempty; discriminate).
  rewrite select_operation_indented.
  cbn [select_operation]. change (Ascii.eqb "." " ") with false.
  change (Ascii.eqb "." ".") with true. cbv iota.
  rewrite E, leading_digits_uint by exact Hr.
  rewrite <- E, stoi_10_nonneg by exact Hv.
  destruct (v <=? INT_MAX); reflexivity.
Qed.

Lemma load_line_no_address (indent : nat) (rest : string) (st : list Z * Z) :
  ends_number rest ->
  load_line (indented indent (String "." rest)) st = Thrown st.
Proof.
  intros Hr.
  rewrite load_line_nonempty by (apply indented_nonempty; discriminate).
  rewrite select_operation_indented.
  cbn [select_operation]. change (Ascii.eqb "." " ") with false.
  change (Ascii.eqb "." ".") with true. cbv iota.
  destruct rest as [|c t]; [reflexivity|].
  cbn in Hr. cbn [leading_digits]. rewrite Hr. reflexivity.
Qed.

Lemma load_lines_app (l1 l2 : list string) (st : list Z * Z) :
  load_lines (l1 ++ l2) st
  = match load_lines l1 st with
    | Loaded st' => load_lines l2 st'
    | Thrown st' => Thrown st'
    | Undefined => Undefined
    end.
Proof.
  revert st. induction l1 as [|line l1 IH]; intros st; [reflexivity|].
  cbn [app load_lines]. destruct (load_line line st); auto.
Qed.

Lemma append_empty (s : string) : (s ++ "")%string = s.
Proof.
  induction s; cbn; [reflexivity | rewrite IHs; reflexivity].
Qed.

Lemma place_cons (n : nat) (v : Z) (vs mem : list Z) :
  (n < length mem)%nat ->
  place (Z.of_nat (S n)) vs (<[n := v]> mem) = place (Z.of_nat n) (v :: vs) mem.
Proof.
  intros Hn. unfold place. rewrite !Nat2Z.id.
  destruct (lookup_lt_is_Some_2 (<[n := v]> mem) n) as [x Hx];
    [rewrite length_insert; exact Hn|].
  rewrite (take_S_r _ _ _ Hx).
  rewrite list_lookup_insert_eq in Hx by exact Hn. injection Hx as <-.
  rewrite take_insert_ge by lia.
  rewrite drop_insert_lt by lia.
  rewrite <- app_assoc. cbn [app length].
  replace (S n + length vs)%nat with (n + S (length vs))%nat by lia.
  reflexivity.
Qed.

Lemma load_lines_values (vs : list Z) :
  forall (mem : list Z) (n : nat),
  Forall (fun v => 0 <= v <= INT_MAX) vs ->
  (n + length vs <= length mem)%nat ->
  length mem = 2000%nat ->
  load_lines (map string_of_Z vs) (mem, Z.of_nat n)
  = Loaded (place (Z.of_nat n) vs mem, Z.of_nat (n + length vs)).
Proof.
  induction vs as [|v vs IH]; intros mem n Hvs Hn Hlen.
  - cbn [map load_lines length]. unfold place. rewrite Nat2Z.id.
    cbn [app length]. rewrite Nat.add_0_r, take_drop. reflexivity.
  - cbn [map load_lines length] in *.
    apply Forall_cons in Hvs as [Hv Hvs].
    pose proof (load_line_number 0 v EmptyString (mem, Z.of_nat n)
                  ltac:(lia) I) as L.
    cbn [indented] in L. rewrite append_empty in L. rewrite L. clear L.
    cbn [fst snd].
    destruct (v <=? INT_MAX) eqn:A; [|lia].
    unfold MEMORY_SIZE.
    destruct ((0 <=? Z.of_nat n) && (Z.of_nat n <? 2000)) eqn:B; [|lia].
    rewrite Nat2Z.id.
    replace (Z.of_nat n + 1) with (Z.of_nat (S n)) by lia.
    rewrite IH by (rewrite ?length_insert; auto; lia).
    rewrite place_cons by lia.
    do 2 f_equal. lia.
Qed.

Lemma digit_value_nonneg (c : ascii) (d : Z) :
  digit_value c = Some d -> 0 <= d.
Proof.
  unfold digit_value.
  repeat match goal with
  | |- context [if ?b then _ else _] => destruct b eqn:?
  end; intros [= <-]; lia.
Qed.

Lemma read_digits_nonneg (base : Z) (s : string) :
  0 <= base ->
  forall (acc : option Z) (v : Z),
  0 <= default 0 acc ->
  read_digits base s acc = Some v -> 0 <= v.
Proof.
  intros Hb. induction s as [|c t IH]; intros acc v Ha; cbn [read_digits].
  - intros ->. exact Ha.
  - destruct (digit_value c) as [d|] eqn:D.
    + pose proof (digit_value_nonneg c d D).
      destruct (d <? base).
      * apply IH. change (0 <= default 0 acc * base + d). nia.
      * intros ->. exact Ha.
    + intros ->. exact Ha.
Qed.

Lemma strtol_digit_first (c : ascii) (t : string) :
  isdigit c = true ->
  strtol (String c t) 10 = read_digits 10 (String c t) None.
Proof.
  intros Hc.
  destruct c as [[] [] [] [] [] [] [] []]; try discriminate Hc; clear Hc.
  all: unfold strtol; cbn [skip_spaces];
    match goal with
    | |- context [isspace ?c] => change (isspace c) with false; cbv iota
    end.
  all: try (cbv beta iota zeta; change (10 =? 0) with false; cbv beta iota;
            destruct (read_digits _ _ _); reflexivity).
  destruct t as [|x [|h t]];
    cbv beta iota zeta; change (10 =? 0) with false;
    change (10 =? 16) with false; cbv beta iota;
    cbn [orb andb]; cbv beta iota;
    destruct (read_digits _ _ _); reflexivity.
Qed.

Lemma stoi_leading_digits (s : string) (v : Z) :
  stoi (leading_digits s) 10 = stoi_value v -> 0 <= v <= INT_MAX.
Proof.
  unfold stoi.
  destruct (strtol (leading_digits s) 10) as [w|] eqn:E; [|discriminate].
  destruct ((w <? INT_MIN) || (INT_MAX <? w)) eqn:R; [discriminate|].
  intros [= <-]. split; [|lia].
  destruct s as [|c t]; [discriminate E|].
  cbn [leading_digits] in E. destruct (isdigit c) eqn:Hc; [|discriminate E].
  rewrite strtol_digit_first in E by exact Hc.
  refine (read_digits_nonneg 10 _ _ None w _ E); cbn; lia.
Qed.

Lemma loaded_from_refl (mem : list Z) : loaded_from mem mem.
Proof. split; auto. Qed.

Lemma loaded_from_insert (mem0 mem : list Z) (address v : Z) :
  loaded_from mem0 mem -> 0 <= v <= INT_MAX ->
  loaded_from mem0 (<[Z.to_nat address := v]> mem).
Proof.
  intros [Hl Hc] Hv. split; [rewrite length_insert; exact Hl|].
  intros a. destruct (decide (Z.to_nat address = Z.to_nat a)) as [E|N].
  - unfold cell. rewrite <- E.
    destruct (decide (Z.to_nat address < length mem)%nat) as [L|L].
    + rewrite list_lookup_insert_eq by exact L. right. exact Hv.
    + rewrite list_insert_ge by lia. rewrite E. apply Hc.
  - rewrite cell_insert_ne by exact N. apply Hc.
Qed.

Lemma load_line_from (mem0 : list Z) (line : string) (st st' : list Z * Z) :
  loaded_from mem0 st.1 ->
  load_line line st = Loaded st' \/ load_line line st = Thrown st' ->
  loaded_from mem0 st'.1.
Proof.
  intros H0. destruct st as [mem address]. unfold load_line.
  destruct line as [|c t]; [intros [[= <-]|[=]]; exact H0|].
  destruct (select_operation (String c t)) as [[[] rest]|];
    [| |intros [[= <-]|[=]]; exact H0|intros [[=]|[=]]].
  - destruct (stoi (leading_digits rest) 10) eqn:E;
      intros [[= <-]|[= <-]]; exact H0.
  - destruct (stoi (leading_digits rest) 10) eqn:E.
    + apply stoi_leading_digits in E.
      destruct ((0 <=? address) && (address <? MEMORY_SIZE));
        intros [[= <-]|[=]].
      apply loaded_from_insert; assumption.
    + intros [[=]|[= <-]]; exact H0.
    + intros [[=]|[= <-]]; exact H0.
Qed.

Lemma load_lines_from (mem0 : list Z) (lines : list string) :
  forall st st' : list Z * Z,
  loaded_from mem0 st.1 ->
  load_lines lines st = Loaded st' \/ load_lines lines st = Thrown st' ->
  loaded_from mem0 st'.1.
Proof.
  induction lines as [|line lines IH]; intros st st' H0; cbn [load_lines].
  - intros [[= <-]|[=]]. exact H0.
  - destruct (load_line line st) as [st1|st1|] eqn:E.
    + apply IH. apply (load_line_from mem0 line st st1 H0). left. exact E.
    + intros [[=]|[= <-]].
      apply (load_line_from mem0 line st st1 H0). right. exact E.
    + intros [[=]|[=]].
Qed.

Lemma cell_replicate (n : nat) (a : Z) : cell (replicate n 0) a = 0.
Proof.
  unfold cell. destruct (replicate n 0 !! Z.to_nat a) eqn:E; [|reflexivity].
  apply lookup_replicate in E as [-> _]. reflexivity.
Qed.

(** The answer of [strtol] in base 10 to any rendered integer. *)
Lemma strtol_10_string_of_Z (v : Z) : strtol (string_of_Z v) 10 = Some v.
Proof.
  destruct v as [|p|p].
  - reflexivity.
  - apply strtol_10_nonneg. lia.
  - apply strtol_10_neg.
Qed.

(** X16. A line that holds the decimal numeral of a natural number [v] that
    fits an [int], after any number of spaces and before nothing or text
    that does not start with a digit, stores [v] at the current address of
    the loader and moves the address one cell on. *)
Theorem load_value_line (indent : nat) (v : Z) (rest : string)
    (mem : list Z) (address : Z) :
  0 <= v <= INT_MAX -> ends_number rest ->
  0 <= address < MEMORY_SIZE ->
  load_line (indented indent (string_of_Z v ++ rest)) (mem, address)
  = Loaded (<[Z.to_nat address := v]> mem, address + 1).
Proof.
  intros Hv Hr Ha.
  rewrite load_line_number by (try exact Hr; lia). cbn [fst snd].
  unfold MEMORY_SIZE in *.
  destruct (v <=? INT_MAX) eqn:A; [|lia].
  destruct ((0 <=? address) && (address <? 2000)) eqn:B; [reflexivity|lia].
Qed.

Lemma load_value_line_witness :
  load_line "   42 ; the answer" ([7; 8; 9], 1)
  = Loaded ([7; 42; 9], 2).
Proof.
  apply (load_value_line 3 42 " ; the answer" [7; 8; 9] 1).
  - unfold INT_MAX. lia.
  - reflexivity.
  - unfold MEMORY_SIZE. lia.
Defined.

(** X17. A line whose first character after the spaces is a full stop
    followed by the decimal numeral of a natural number [a] that fits an
    [int] sets the address of the loader to [a] and leaves memory as it is,
    whatever the address was and also when [a] is not an address of
    memory. *)
Theorem load_address_line (indent : nat) (a : Z) (rest : string)
    (mem : list Z) (address : Z) :
  0 <= a <= INT_MAX -> ends_number rest ->
  load_line (indented indent (String "." (string_of_Z a ++ rest)))
            (mem, address)
  = Loaded (mem, a).
Proof.
  intros Ha Hr. rewrite load_line_address by (try exact Hr; lia).
  cbn [fst]. destruct (a <=? INT_MAX) eqn:A; [reflexivity|lia].
Qed.

Lemma load_address_line_witness :
  load_line ".1000 system code" ([7; 8; 9], 2) = Loaded ([7; 8; 9], 1000).
Proof.
  apply (load_address_line 0 1000 " system code" [7; 8; 9] 2).
  - unfold INT_MAX. lia.
  - reflexivity.
Defined.

(** X18. Loading is the inverse of listing: a file that gives an address
    [a] and then the numerals of [values], one to a line, leaves memory
    with [values] in the cells from [a] on and every other cell as it
    was. *)
Theorem load_program_file (a : Z) (values mem : list Z) (address : Z) :
  Forall (fun v => 0 <= v <= INT_MAX) values ->
  0 <= a -> a + Z.of_nat (length values) <= MEMORY_SIZE ->
  length mem = 2000%nat ->
  load_lines (String "." (string_of_Z a) :: map string_of_Z values)
             (mem, address)
  = Loaded (place a values mem, a + Z.of_nat (length values)).
Proof.
  intros Hv Ha Hn Hlen. unfold MEMORY_SIZE in Hn.
  cbn [load_lines].
  pose proof (load_line_address 0 a EmptyString (mem, address) Ha I) as L.
  cbn [indented fst] in L. rewrite append_empty in L. rewrite L. clear L.
  destruct (a <=? INT_MAX) eqn:A; [|unfold INT_MAX in A; lia].
  rewrite <- (Z2Nat.id a) by exact Ha.
  rewrite load_lines_values by (try assumption; lia).
  do 2 f_equal. lia.
Qed.

Lemma load_program_file_witness :
  load_lines [".1995"; "1"; "7"; "50"]%string (replicate 2000 0, 0)
  = Loaded (replicate 1995 0 ++ [1; 7; 50] ++ [0; 0], 1998).
Proof.
  apply (load_program_file 1995 [1; 7; 50] (replicate 2000 0) 0).
  - repeat constructor; unfold INT_MAX; lia.
  - lia.
  - unfold MEMORY_SIZE. cbn. lia.
  - reflexivity.
Defined.

(** ** Lines that leave the variables of the loop unset *)

Lemma string_from_length (s : string) :
  string_from (String.length s) s = EmptyString.
Proof. induction s; [reflexivity | exact IHs]. Qed.

(** The two accounts of the [for] loop agree on the lines that assign the
    variables. *)
Lemma select_raw_spec (line : string) (unset : Z * Z) :
  forall i : Z,
  match select_operation line with
  | None => select_raw line i unset = unset
  | Some (SKIP, _) => select_raw line i unset = (parse_op_value SKIP, unset.2)
  | Some (op, rest) =>
      exists k : nat,
        select_raw line i unset = (parse_op_value op, i + Z.of_nat k)
        /\ (k <= String.length line)%nat
        /\ string_from k line = rest
  end.
Proof.
  induction line as [|c t IH]; intros i; cbn [select_operation select_raw].
  - reflexivity.
  - destruct (Ascii.eqb c " ") eqn:Es.
    + specialize (IH (i + 1)).
      destruct (select_operation t) as [[[] rest]|]; try exact IH.
      * destruct IH as (k & E & Hk & Hs). exists (S k).
        rewrite E. cbn [String.length string_from].
        repeat split; [f_equal; lia | lia | exact Hs].
      * destruct IH as (k & E & Hk & Hs). exists (S k).
        rewrite E. cbn [String.length string_from].
        repeat split; [f_equal; lia | lia | exact Hs].
    + destruct (Ascii.eqb c ".") eqn:Ed.
      * exists 1%nat. cbn [String.length string_from].
        repeat split; lia.
      * destruct (isdigit c) eqn:Ec.
        -- exists 0%nat. cbn [String.length string_from].
           repeat split; [f_equal; lia | lia].
        -- reflexivity.
Qed.

Lemma digits_from_index (k : nat) (line : string) :
  (k <= String.length line)%nat ->
  digits_from (Z.of_nat k) line = leading_digits (string_from k line).
Proof.
  intros Hk. unfold digits_from, to_unsigned.
  destruct (Z.of_nat k <? 0) eqn:E; [lia|]. rewrite Nat2Z.id.
  destruct (Z.of_nat k <? Z.of_nat (String.length line)) eqn:L;
    [reflexivity|].
  assert (k = String.length line) as -> by lia.
  rewrite string_from_length. reflexivity.
Qed.

(** Where [load_line] gives the loader a defined behaviour, the loader on
    unset variables does the same, whatever they hold. *)
Lemma load_line_raw_defined (unset : Z * Z) (line : string)
    (st st' : list Z * Z) (o : list (Z * Z)) :
  (load_line line st = Loaded st' ->
   load_line_raw unset line (mkLoader st.1 st.2 o)
   = Next (mkLoader st'.1 st'.2 o))
  /\ (load_line line st = Thrown st' ->
      load_line_raw unset line (mkLoader st.1 st.2 o)
      = Caught (mkLoader st'.1 st'.2 o)).
Proof.
  destruct st as [mem address].
  destruct line as [|c t]; [split; [intros [= <-]|intros [=]]; reflexivity|].
  unfold load_line, load_line_raw.
  pose proof (select_raw_spec (String c t) unset 0) as S.
  destruct (select_operation (String c t)) as [[[] rest]|].
  - destruct S as (k & -> & Hk & <-). rewrite Z.add_0_l.
    rewrite digits_from_index by exact Hk.
    change (parse_op_value JUMP_AHEAD =? parse_op_value JUMP_AHEAD)
      with true. cbv iota.
    destruct (stoi _ 10); split; intros [= <-]; reflexivity.
  - destruct S as (k & -> & Hk & <-). rewrite Z.add_0_l.
    rewrite digits_from_index by exact Hk.
    change (parse_op_value LOAD =? parse_op_value JUMP_AHEAD) with false.
    change (parse_op_value LOAD =? parse_op_value LOAD) with true.
    cbv iota. cbn [array next_address outside fst snd].
    destruct (stoi _ 10); try (split; intros [= <-]; reflexivity).
    destruct ((0 <=? address) && (address <? MEMORY_SIZE)) eqn:R;
      split; intros [= <-].
    cbn [fst snd]. unfold MEMORY_SIZE in R.
    rewrite int32_small by (unfold INT_MIN, INT_MAX; lia). reflexivity.
  - rewrite S. split; intros [= <-]; reflexivity.
  - split; intros [=].
Qed.

Lemma load_lines_raw_defined (lines : list string) (o : list (Z * Z)) :
  forall (unset : nat -> Z * Z) (st st' : list Z * Z),
  (load_lines lines st = Loaded st' ->
   load_lines_raw unset lines (mkLoader st.1 st.2 o)
   = Next (mkLoader st'.1 st'.2 o))
  /\ (load_lines lines st = Thrown st' ->
      load_lines_raw unset lines (mkLoader st.1 st.2 o)
      = Caught (mkLoader st'.1 st'.2 o)).
Proof.
  induction lines as [|line lines IH]; intros unset st st';
    cbn [load_lines load_lines_raw].
  - split; [intros [= <-]; reflexivity | intros [=]].
  - pose proof (load_line_raw_defined (unset O) line st) as D.
    destruct (load_line line st) as [st1|st1|].
    + rewrite (proj1 (D st1 o) eq_refl). apply IH.
    + rewrite (proj2 (D st1 o) eq_refl).
      split; [intros [=] | intros [= <-]; reflexivity].
    + split; intros [=].
Qed.

Lemma stoi_digits_from (i : Z) (line : string) (v : Z) :
  stoi (digits_from i line) 10 = stoi_value v -> 0 <= v <= INT_MAX.
Proof.
  unfold digits_from.
  destruct (to_unsigned i <? Z.of_nat (String.length line)).
  - apply stoi_leading_digits.
  - discriminate.
Qed.

Lemma load_line_raw_from (mem0 : list Z) (unset : Z * Z) (line : string)
    (l : Loader) :
  loaded_from mem0 (array l) ->
  loaded_from mem0 (array (raw_loader (load_line_raw unset line l))).
Proof.
  intros H0. unfold load_line_raw.
  destruct line as [|c t]; [exact H0|].
  destruct (select_raw (String c t) 0 unset) as [operation startIndex].
  destruct (operation =? parse_op_value JUMP_AHEAD).
  { destruct (stoi _ 10); exact H0. }
  destruct (operation =? parse_op_value LOAD).
  { destruct (stoi _ 10) eqn:E; try exact H0.
    apply stoi_digits_from in E.
    destruct ((0 <=? next_address l) && (next_address l <? MEMORY_SIZE));
      [|exact H0].
    cbn [raw_loader array]. apply loaded_from_insert; assumption. }
  destruct (operation =? parse_op_value SKIP); exact H0.
Qed.

Lemma load_lines_raw_from (mem0 : list Z) (lines : list string) :
  forall (unset : nat -> Z * Z) (l : Loader),
  loaded_from mem0 (array l) ->
  loaded_from mem0 (array (raw_loader (load_lines_raw unset lines l))).
Proof.
  induction lines as [|line lines IH]; intros unset l H0;
    cbn [load_lines_raw]; [exact H0|].
  pose proof (load_line_raw_from mem0 (unset O) line l H0) as H1.
  destruct (load_line_raw (unset O) line l) as [l'|l'|l'];
    [apply IH; exact H1 | exact H1 | exact H1].
Qed.

(** X19. Whatever the file holds, and whatever [operation] and [startIndex]
    hold on a line of spaces, which leaves them unset: when main memory
    stops reading, at the end of the file, at an exception of [stoi] or at
    the bare [throw;], [memory] has its 2000 cells and each of them holds a
    natural number that fits an [int]; no line can give a cell a negative
    value.  A store whose address is no cell is taken to leave the cells
    alone.  Where the loader has a defined behaviour this is the array that
    [run_main_memory] leaves, and no store fell outside it. *)
Theorem loaded_image_natural (lines : list string) (unset : nat -> Z * Z) :
  let l := raw_loader
             (load_lines_raw unset lines (mkLoader (replicate 2000 0) 0 [])) in
  (length (array l) = 2000%nat /\ forall a, 0 <= cell (array l) a <= INT_MAX)
  /\ (forall printed mm,
        run_main_memory lines = Some (printed, mm) ->
        memory mm = array l /\ outside l = []).
Proof.
  cbv zeta. split.
  - pose proof (load_lines_raw_from (replicate 2000 0) lines unset
                  (mkLoader (replicate 2000 0) 0 []) (loaded_from_refl _))
      as [Hl Hc].
    split.
    + rewrite Hl. apply length_replicate.
    + intros a. destruct (Hc a) as [E|R]; [|exact R].
      rewrite E, cell_replicate. unfold INT_MAX. lia.
  - intros printed mm. unfold run_main_memory.
    pose proof (load_lines_raw_defined lines [] unset (replicate 2000 0, 0))
      as D. cbn [fst snd] in D.
    destruct (load_lines lines (replicate 2000 0, 0)) as [st|st|];
      [| |discriminate].
    + rewrite (proj1 (D st) eq_refl). destruct st as [mem a].
      intros [= _ <-]. split; reflexivity.
    + rewrite (proj2 (D st) eq_refl). destruct st as [mem a].
      intros [= _ <-]. split; reflexivity.
Qed.

(** A file with a line of spaces, read with [operation] and [startIndex] as
    the line before left them: the line is taken for a value without
    digits, [stoi] throws, and cell 0 holds the 5 of the first line. *)
Example line_of_spaces :
  load_lines_raw (fun _ => (parse_op_value LOAD, 0))
    ["5"; "   "; "6"]%string (mkLoader (replicate 2000 0) 0 [])
  = Caught (mkLoader (<[0%nat := 5]> (replicate 2000 0)) 1 []).
Proof. vm_compute. reflexivity. Qed.

(** A file that stores at address 2000: the store is recorded as one
    outside the array, and the cells are as the other lines left them. *)
Example store_outside :
  load_lines_raw (fun _ => (0, 0))
    [".2000"; "5"; ".0"; "7"]%string (mkLoader (replicate 2000 0) 0 [])
  = Next (mkLoader (<[0%nat := 7]> (replicate 2000 0)) 1 [(2000, 5)]).
Proof. vm_compute. reflexivity. Qed.

(** X20. A line whose first character after the spaces is a full stop that
    no digit follows ends the loading, also when lines that load stand
    before it: main memory prints its error message, the processor is never
    started and [main] returns [FILE_PARSE_FAILURE]. *)
Theorem address_without_number_fails (argv : list string)
    (existingFile : string -> bool) (timer : Z)
    (before after : list string) (indent : nat) (rest : string)
    (st : list Z * Z) (rnd : nat -> Z) (turns : nat) :
  command_line argv existingFile = Configured timer false ->
  load_lines before (replicate 2000 0, 0) = Loaded st ->
  ends_number rest ->
  program argv existingFile
    (before ++ indented indent (String "." rest) :: after) rnd turns
  = Main_returns FILE_PARSE_FAILURE ("ERROR PARSING FILE!!!!" ++ endl).
Proof.
  intros Hc Hb Hr. unfold program, run_main_memory. rewrite Hc.
  rewrite load_lines_app, Hb. cbn [load_lines].
  rewrite load_line_no_address by exact Hr.
  destruct st as [mem a]. reflexivity.
Qed.

Lemma address_without_number_fails_witness :
  program ["program1.exe"; "sample.txt"; "5"]%string (fun _ => true)
    ["1"; "5"; "  .next"; "50"]%string (fun _ => 0) 3
  = Main_returns FILE_PARSE_FAILURE ("ERROR PARSING FILE!!!!" ++ endl).
Proof.
  apply (address_without_number_fails
           ["program1.exe"; "sample.txt"; "5"]%string (fun _ => true) 5
           ["1"; "5"]%string ["50"]%string 2 "next"
           (<[1%nat := 5]> (<[0%nat := 1]> (replicate 2000 0)), 2)).
  - reflexivity.
  - vm_compute. reflexivity.
  - reflexivity.
Defined.

(** X21. A number above [INT_MAX] on a line ends the loading in the same
    way, whether the line gives a value or an address: [stoi] throws, and
    [main] returns [FILE_PARSE_FAILURE]. *)
Theorem number_out_of_range_fails (argv : list string)
    (existingFile : string -> bool) (timer : Z)
    (before after : list string) (indent : nat) (v : Z) (rest : string)
    (st : list Z * Z) (jump : bool) (rnd : nat -> Z) (turns : nat) :
  command_line argv existingFile = Configured timer false ->
  load_lines before (replicate 2000 0, 0) = Loaded st ->
  INT_MAX < v -> ends_number rest ->
  program argv existingFile
    (before
     ++ indented indent
          (if jump then String "." (string_of_Z v ++ rest)
           else string_of_Z v ++ rest)%string
     :: after) rnd turns
  = Main_returns FILE_PARSE_FAILURE ("ERROR PARSING FILE!!!!" ++ endl).
Proof.
  intros Hc Hb Hv Hr. unfold program, run_main_memory. rewrite Hc.
  rewrite load_lines_app, Hb. cbn [load_lines].
  assert (Hv0 : 0 <= v) by (unfold INT_MAX in Hv; lia).
  destruct jump.
  - rewrite load_line_address by assumption.
    destruct (v <=? INT_MAX) eqn:A; [lia|].
    destruct st as [mem a]. reflexivity.
  - rewrite load_line_number by assumption.
    destruct (v <=? INT_MAX) eqn:A; [lia|].
    destruct st as [mem a]. reflexivity.
Qed.

Lemma number_out_of_range_fails_witness :
  program ["program1.exe"; "sample.txt"; "5"]%string (fun _ => true)
    ["1"; "2147483648"; "50"]%string (fun _ => 0) 3
  = Main_returns FILE_PARSE_FAILURE ("ERROR PARSING FILE!!!!" ++ endl).
Proof.
  apply (number_out_of_range_fails
           ["program1.exe"; "sample.txt"; "5"]%string (fun _ => true) 5
           ["1"]%string ["50"]%string 0 2147483648 EmptyString
           (<[0%nat := 1]> (replicate 2000 0), 1) false).
  - reflexivity.
  - vm_compute. reflexivity.
  - unfold INT_MAX. lia.
  - exact I.
Defined.

(** X22. From the command line to the processor: with a command line that
    passes the checks and a file that lists [values] from address 0 on, the
    program is the processor started on the image that holds [values] in its
    first cells and 0 elsewhere, and main memory has printed nothing. *)
Theorem program_runs_file (argv : list string)
    (existingFile : string -> bool) (timer : Z) (values : list Z)
    (rnd : nat -> Z) (turns : nat) :
  command_line argv existingFile = Configured timer false ->
  Forall (fun v => 0 <= v <= INT_MAX) values ->
  (length values <= 2000)%nat ->
  program argv existingFile (map string_of_Z values) rnd turns
  = Processor EmptyString
      (run_processor timer turns
         (power_on (values ++ replicate (2000 - length values) 0) rnd)).
Proof.
  intros Hc Hv Hn. unfold program, run_main_memory. rewrite Hc.
  change (load_lines (map string_of_Z values) (replicate 2000 0, 0))
    with (load_lines (map string_of_Z values)
            (replicate 2000 0, Z.of_nat 0)).
  rewrite load_lines_values
    by (rewrite ?length_replicate; try assumption; lia).
  unfold place. cbn [Z.to_nat Nat2Z.id Z.of_nat take app Nat.add].
  rewrite drop_replicate. reflexivity.
Qed.

Lemma program_runs_file_witness :
  program ["program1.exe"; "sample.txt"; "5"]%string (fun _ => true)
    ["1"; "5"; "50"]%string (fun _ => 0) 2
  = Processor EmptyString
      (run_processor 5 2 (power_on ([1; 5; 50] ++ replicate 1997 0)
                            (fun _ => 0))).
Proof.
  apply (program_runs_file
           ["program1.exe"; "sample.txt"; "5"]%string (fun _ => true) 5
           [1; 5; 50] (fun _ => 0) 2).
  - reflexivity.
  - repeat constructor; unfold INT_MAX; lia.
  - cbn. lia.
Defined.

(** ** The timer value on the command line, in general *)

(** X23. What [main] makes of three arguments whose last is the decimal
    numeral of an integer [t]: outside the range of [int] it returns
    [CLI_FAILURE]; a negative [t] ends the program with the message about
    the timer; otherwise the file is looked for, and when it exists the
    timer is [t], zero included, and debugging is off. *)
Theorem decimal_timer (prog file : string) (t : Z)
    (existingFile : string -> bool) :
  command_line [prog; file; string_of_Z t] existingFile
  = if (t <? INT_MIN) || (INT_MAX <? t) then Returned CLI_FAILURE
    else if t <? 0 then
      Terminated ["ERROR: Invalid options.";
                  "Timer value must be integer greater than zero.";
                  usage]%string
    else if existingFile file then Configured t false
    else Terminated ["ERROR: Program file does not exist!"; usage]%string.
Proof.
  unfold command_line. cbn [length Nat.ltb Nat.leb orb List.nth].
  unfold stoi at 1. rewrite strtol_10_string_of_Z.
  destruct ((t <? INT_MIN) || (INT_MAX <? t)) eqn:R; [reflexivity|].
  destruct (t <? 0) eqn:N; [reflexivity|].
  destruct (existingFile file); [|reflexivity].
  cbn [negb Nat.eqb andb]. unfold stoi.
  rewrite strtol_0_nonneg by lia. rewrite R. reflexivity.
Qed.

(** X24. With a fourth argument, a natural timer that fits an [int] and a
    file that exists, the program goes on in debug mode exactly when the
    fourth argument is [--debug]; any other text ends it. *)
Theorem debug_flag (prog file flag : string) (t : Z)
    (existingFile : string -> bool) :
  0 <= t <= INT_MAX -> existingFile file = true ->
  command_line [prog; file; string_of_Z t; flag] existingFile
  = if String.eqb "--debug" flag then Configured t true
    else Terminated ["ERROR: Invalid options"; usage]%string.
Proof.
  intros Ht Hf.
  unfold command_line. cbn [length Nat.ltb Nat.leb orb List.nth].
  unfold stoi at 1. rewrite strtol_10_string_of_Z.
  assert (R : (t <? INT_MIN) || (INT_MAX <? t) = false)
    by (unfold INT_MIN, INT_MAX in *; lia).
  rewrite R. destruct (t <? 0) eqn:N; [lia|].
  rewrite Hf. cbn [negb Nat.eqb andb].
  destruct (String.eqb "--debug" flag); [|reflexivity].
  cbn [negb]. unfold stoi. rewrite strtol_0_nonneg by lia.
  rewrite R. reflexivity.
Qed.

Lemma debug_flag_witness :
  command_line ["program1.exe"; "sample.txt"; "30"; "--debug"]%string
    (fun _ => true)
  = Configured 30 true.
Proof.
  apply (debug_flag "program1.exe" "sample.txt" "--debug" 30 (fun _ => true)).
  - unfold INT_MAX. lia.
  - reflexivity.
Defined.

(** ** The test routine of debug mode *)

Lemma returns_bind {A B} (c : Proc A) (k : A -> Proc B)
    (Q : B -> Machine -> Prop) (m : Machine) :
  returns (fun a m' => returns Q (k a m')) (c m) ->
  returns Q (bind c k m).
Proof. rewrite bind_apply. destruct (c m); auto. Qed.

Lemma exits_bind {A B} (c : Proc A) (k : A -> Proc B) (code : Z)
    (P : Machine -> Prop) (m : Machine) :
  returns (fun a m' => exits code P (k a m')) (c m) ->
  exits code P (bind c k m).
Proof. rewrite bind_apply. destruct (c m); cbn; tauto. Qed.

Lemma exits_first {A B} (c : Proc A) (k : A -> Proc B) (code : Z)
    (P : Machine -> Prop) (m : Machine) :
  exits code P (c m) -> exits code P (bind c k m).
Proof. rewrite bind_apply. destruct (c m); cbn; tauto. Qed.

Lemma returns_weaken {A} (P Q : A -> Machine -> Prop) (o : Outcome A) :
  returns P o -> (forall a m, P a m -> Q a m) -> returns Q o.
Proof. destruct o; cbn; auto. Qed.

Section Snapshot.

Variables (r : RegisterFile) (k : bool) (s : Z) (mem : list Z) (m : Machine).
Hypothesis H : snapshot r k s mem m.

Lemma snap_print (text : string) :
  returns (fun v m' => v = tt /\ snapshot r k s mem m') (print text m).
Proof. split; [reflexivity | exact H]. Qed.

Lemma snap_get_reg (i : nat) :
  returns (fun v m' => v = reg i r /\ snapshot r k s mem m') (get_reg i m).
Proof.
  destruct H as (_ & <- & _). split; [reflexivity | exact H].
Qed.

Lemma snap_put_reg (i : nat) (v : Z) :
  returns (fun u m' => u = tt /\ snapshot (set_reg i v r) k s mem m')
          (put_reg i v m).
Proof.
  destruct H as (Hr & <- & Hk & Hs & Hm).
  split; [reflexivity|]. exact (conj Hr (conj eq_refl (conj Hk (conj Hs Hm)))).
Qed.

Lemma snap_kernelMode (k' : bool) :
  returns (fun u m' => u = tt /\ snapshot r k' s mem m')
          (modify (with_kernelMode k') m).
Proof.
  destruct H as (Hr & Hg & Hk & Hs & Hm).
  split; [reflexivity|]. exact (conj Hr (conj Hg (conj eq_refl (conj Hs Hm)))).
Qed.

Lemma snap_inactive_sys_stack :
  returns (fun v m' => v = s /\ snapshot r k s mem m')
          (gets inactive_sys_stack m).
Proof.
  destruct H as (_ & _ & _ & <- & _). split; [reflexivity | exact H].
Qed.

Lemma snap_readMemory (a : Z) :
  permitted k a = true ->
  returns (fun v m' => v = cell mem a /\ snapshot r k s mem m')
          (readMemory a m).
Proof.
  intros Hp. destruct H as (Hr & Hg & Hk & Hs & Hm).
  rewrite readMemory_permitted by (rewrite ?Hk; assumption).
  split; [rewrite Hm; reflexivity|].
  exact (conj (at_rest_after_read a m Hr) (conj Hg (conj Hk (conj Hs Hm)))).
Qed.

Lemma snap_writeMemory (a v : Z) :
  permitted k a = true ->
  returns (fun u m' =>
             u = tt /\ snapshot r k s (<[Z.to_nat a := v]> mem) m')
          (writeMemory a v m).
Proof.
  intros Hp. destruct H as (Hr & Hg & Hk & Hs & Hm).
  rewrite writeMemory_permitted by (rewrite ?Hk; assumption).
  split; [reflexivity|].
  refine (conj (at_rest_after_write a v m Hr)
            (conj Hg (conj Hk (conj Hs _)))).
  cbn. rewrite Hm. reflexivity.
Qed.

Lemma snap_pushRegistersOnStack :
  permitted k (r_sp r - 1) = true ->
  permitted k (r_sp r - 5) = true ->
  returns (fun u m' =>
             u = tt
             /\ snapshot (set_reg SP (r_sp r - 5) r) k s
                  (<[Z.to_nat (r_sp r - 5) := r_y r]>
                     (<[Z.to_nat (r_sp r - 4) := r_x r]>
                        (<[Z.to_nat (r_sp r - 3) := r_ac r]>
                           (<[Z.to_nat (r_sp r - 2) := r_ir r]>
                              (<[Z.to_nat (r_sp r - 1) := r_pc r]> mem)))))
                  m')
          (pushRegistersOnStack m).
Proof.
  intros P1 P5. destruct H as (Hr & Hg & Hk & Hs & Hm).
  rewrite pushRegistersOnStack_permitted
    by (rewrite ?Hk, ?Hg; assumption).
  split; [reflexivity|].
  refine (conj (at_rest_frame_pushed m Hr) _).
  subst r k s mem. repeat split.
Qed.

Lemma snap_popRegistersOnStack :
  permitted k (r_sp r) = true ->
  permitted k (r_sp r + 4) = true ->
  returns (fun u m' =>
             u = tt
             /\ snapshot
                  (mkRegisters (cell mem (r_sp r + 4)) (cell mem (r_sp r + 3))
                     (cell mem (r_sp r + 2)) (cell mem (r_sp r + 1))
                     (cell mem (r_sp r)) (r_sp r + 5))
                  k s mem m')
          (popRegistersOnStack m).
Proof.
  intros P0 P4. destruct H as (Hr & Hg & Hk & Hs & Hm).
  rewrite popRegistersOnStack_permitted
    by (rewrite ?Hk, ?Hg; assumption).
  split; [reflexivity|].
  assert (Hr' : at_rest (main_memory (frame_popped m))).
  { unfold frame_popped. apply at_rest_with_registers.
    repeat apply at_rest_after_read. exact Hr. }
  refine (conj Hr' _).
  subst r k s mem. repeat split.
Qed.

End Snapshot.

Ltac snap_with H :=
  lazymatch goal with
  | |- returns _ (print _ _) => apply (snap_print _ _ _ _ _ H)
  | |- returns _ (get_reg _ _) => apply (snap_get_reg _ _ _ _ _ H)
  | |- returns _ (put_reg _ _ _) => apply (snap_put_reg _ _ _ _ _ H)
  | |- returns _ (modify (with_kernelMode _) _) =>
      apply (snap_kernelMode _ _ _ _ _ H)
  | |- returns _ (gets inactive_sys_stack _) =>
      apply (snap_inactive_sys_stack _ _ _ _ _ H)
  | |- returns _ (readMemory _ _) =>
      apply (snap_readMemory _ _ _ _ _ H); reflexivity
  | |- returns _ (writeMemory _ _ _) =>
      apply (snap_writeMemory _ _ _ _ _ H); reflexivity
  end.

Ltac open_bind :=
  repeat lazymatch goal with
  | |- returns _ (bind _ _ _) => apply returns_bind
  | |- exits _ _ (bind _ _ _) => apply exits_bind
  end.

Ltac snap_step :=
  match goal with
  | H : snapshot _ _ _ _ _ |- _ =>
      open_bind;
      eapply returns_weaken; [snap_with H|];
      clear H; cbv beta;
      let a := fresh "a" in let m := fresh "m" in
      intros a m [-> H]
  end.

Lemma snap_printRegistersAndStack (r : RegisterFile) (s : Z) (mem : list Z)
    (m : Machine) :
  snapshot r true s mem m ->
  returns (fun u m' => u = tt /\ snapshot r true s mem m')
          (printRegistersAndStack m).
Proof.
  intros H. unfold printRegistersAndStack.
  cbn [seq for_each].
  do 43 snap_step.
  split; [reflexivity | exact H].
Qed.

Lemma snap_endProcess (r : RegisterFile) (k : bool) (s : Z) (mem : list Z)
    (m : Machine) (code : Z) :
  snapshot r k s mem m ->
  exits code (snapshot r k s mem) (endProcess (A := unit) code m).
Proof. intros H. split; [reflexivity | exact H]. Qed.

Lemma snap_initialize (timer : Z) (m : Machine) :
  at_rest (main_memory m) ->
  returns (fun u m' =>
             u = tt
             /\ snapshot (set_reg SP 1000 (set_reg PC 0 (registers m)))
                  false 2000 (memory (main_memory m)) m')
          (initialize timer m).
Proof.
  intros H. split; [reflexivity|].
  exact (conj H (conj eq_refl (conj eq_refl (conj eq_refl eq_refl)))).
Qed.

Ltac snap_call H :=
  lazymatch goal with
  | |- returns _ (printRegistersAndStack _) =>
      apply (snap_printRegistersAndStack _ _ _ _ H)
  | |- returns _ (pushRegistersOnStack _) =>
      apply (snap_pushRegistersOnStack _ _ _ _ _ H); reflexivity
  | |- returns _ (popRegistersOnStack _) =>
      apply (snap_popRegistersOnStack _ _ _ _ _ H); reflexivity
  | |- _ => snap_with H
  end.

Ltac snap_next :=
  match goal with
  | H : snapshot _ _ _ _ _ |- _ =>
      open_bind;
      eapply returns_weaken; [snap_call H|];
      clear H; cbv beta;
      let a := fresh "a" in let m := fresh "m" in
      intros a m [-> H]
  end.

Lemma snap_debugProgram (r : RegisterFile) (mem : list Z) (m : Machine) :
  snapshot r false 2000 mem m ->
  exits SUCCESS
    (snapshot (mkRegisters (r_pc r) 10 20 30 40 2000) true 2000
       (<[Z.to_nat 1995 := 40]>
          (<[Z.to_nat 1996 := 30]>
             (<[Z.to_nat 1997 := 20]>
                (<[Z.to_nat 1998 := 10]>
                   (<[Z.to_nat 1999 := r_pc r]>
                      (<[Z.to_nat 10 := 1337]> mem)))))))
    (debugProgram m).
Proof.
  intros H.
  assert (Hlen : length mem = 2000%nat).
  { destruct H as ((Hlen & _) & _ & _ & _ & <-). exact Hlen. }
  unfold debugProgram.
  do 32 snap_next.
  apply snap_endProcess.
  cbn [set_reg r_sp r_pc r_ir r_ac r_x r_y SP IR AC X Y PC] in H.
  change (2000 - 5 + 5) with 2000 in H.
  change (2000 - 5 + 4) with 1999 in H.
  change (2000 - 5 + 3) with 1998 in H.
  change (2000 - 5 + 2) with 1997 in H.
  change (2000 - 5 + 1) with 1996 in H.
  change (2000 - 5) with 1995 in H.
  change (2000 - 4) with 1996 in H.
  change (2000 - 3) with 1997 in H.
  change (2000 - 2) with 1998 in H.
  change (2000 - 1) with 1999 in H.
  set (c1 := <[Z.to_nat 10 := 1337]> mem) in *.
  assert (L1 : length c1 = 2000%nat)
    by (unfold c1; rewrite length_insert; exact Hlen).
  set (c2 := <[Z.to_nat 1999 := r_pc r]> c1) in *.
  assert (L2 : length c2 = 2000%nat)
    by (unfold c2; rewrite length_insert; exact L1).
  set (c3 := <[Z.to_nat 1998 := 10]> c2) in *.
  assert (L3 : length c3 = 2000%nat)
    by (unfold c3; rewrite length_insert; exact L2).
  set (c4 := <[Z.to_nat 1997 := 20]> c3) in *.
  assert (L4 : length c4 = 2000%nat)
    by (unfold c4; rewrite length_insert; exact L3).
  set (c5 := <[Z.to_nat 1996 := 30]> c4) in *.
  assert (L5 : length c5 = 2000%nat)
    by (unfold c5; rewrite length_insert; exact L4).
  set (c6 := <[Z.to_nat 1995 := 40]> c5) in *.
  assert (E9 : cell c6 1999 = r_pc r).
  { unfold c6, c5, c4, c3. rewrite !cell_insert_ne by lia.
    apply cell_insert_eq. lia. }
  assert (E8 : cell c6 1998 = 10).
  { unfold c6, c5, c4. rewrite !cell_insert_ne by lia.
    apply cell_insert_eq. lia. }
  assert (E7 : cell c6 1997 = 20).
  { unfold c6, c5. rewrite !cell_insert_ne by lia.
    apply cell_insert_eq. lia. }
  assert (E6 : cell c6 1996 = 30).
  { unfold c6. rewrite !cell_insert_ne by lia.
    apply cell_insert_eq. lia. }
  assert (E5 : cell c6 1995 = 40).
  { apply cell_insert_eq. lia. }
  rewrite E9, E8, E7, E6, E5 in H. exact H.
Qed.

(** X25. The self-test of debug mode passes on every image: whatever main
    memory holds, [run_processor] with [debugMode] on ends the process with
    [SUCCESS], and at that point IR, AC, X and Y hold 10, 20, 30 and 40
    again, the values that were pushed and then overwritten, the stack
    pointer is back at 2000, and the only cells that changed are cell 10,
    which holds 1337, and the five cells of the frame from 1995 to 1999. *)
Theorem debug_self_test (timer : Z) (m : Machine) :
  at_rest (main_memory m) ->
  exists m',
    run_processor_debug timer m = Exits SUCCESS m'
    /\ registers m' = mkRegisters 0 10 20 30 40 2000
    /\ kernelMode m' = true
    /\ memory (main_memory m')
       = <[Z.to_nat 1995 := 40]>
           (<[Z.to_nat 1996 := 30]>
              (<[Z.to_nat 1997 := 20]>
                 (<[Z.to_nat 1998 := 10]>
                    (<[Z.to_nat 1999 := 0]>
                       (<[Z.to_nat 10 := 1337]> (memory (main_memory m)))))))
    /\ at_rest (main_memory m').
Proof.
  intros Hr.
  assert (E : exits SUCCESS
                (snapshot (mkRegisters 0 10 20 30 40 2000) true 2000
                   (<[Z.to_nat 1995 := 40]>
                      (<[Z.to_nat 1996 := 30]>
                         (<[Z.to_nat 1997 := 20]>
                            (<[Z.to_nat 1998 := 10]>
                               (<[Z.to_nat 1999 := 0]>
                                  (<[Z.to_nat 10 := 1337]>
                                     (memory (main_memory m)))))))))
                (run_processor_debug timer m)).
  { unfold run_processor_debug. apply exits_bind.
    eapply returns_weaken; [apply snap_initialize; exact Hr|].
    cbv beta. intros a m0 [-> H]. apply exits_first.
    exact (snap_debugProgram _ _ _ H). }
  destruct (run_processor_debug timer m) as [a m'|code m'|m'|m'];
    try contradiction.
  destruct E as (-> & Ha & Hg & Hk & _ & Hm).
  exists m'. auto.
Qed.

Lemma debug_self_test_witness :
  exists m',
    run_processor_debug 5 (power_on (replicate 2000 7) (fun _ => 0))
    = Exits SUCCESS m'
    /\ registers m' = mkRegisters 0 10 20 30 40 2000
    /\ kernelMode m' = true
    /\ memory (main_memory m')
       = <[Z.to_nat 1995 := 40]>
           (<[Z.to_nat 1996 := 30]>
              (<[Z.to_nat 1997 := 20]>
                 (<[Z.to_nat 1998 := 10]>
                    (<[Z.to_nat 1999 := 0]>
                       (<[Z.to_nat 10 := 1337]> (replicate 2000 7))))))
    /\ at_rest (main_memory m').
Proof.
  apply (debug_self_test 5 (power_on (replicate 2000 7) (fun _ => 0))).
  repeat split.
Defined.

(** ** Arithmetic, conditional jumps and exit codes *)

Lemma int32_add_l (a b : Z) : int32 (int32 a + b) = int32 (a + b).
Proof.
  unfold int32. f_equal.
  replace ((a + 2147483648) mod 4294967296 - 2147483648 + b + 2147483648)
    with ((a + 2147483648) mod 4294967296 + b) by lia.
  rewrite Zplus_mod_idemp_l. f_equal. lia.
Qed.

(** X26. Subtracting what was added gives AC back: ADDX followed by SUBX,
    and ADDY followed by SUBY, leave the whole machine as it was, also when
    the sum does not fit an [int] and wraps around. *)
Theorem add_then_sub (m : Machine) :
  INT_MIN <= reg AC (registers m) <= INT_MAX ->
  (execute ADDX ;; execute SUBX) m = Returns tt m
  /\ (execute ADDY ;; execute SUBY) m = Returns tt m.
Proof.
  intros Ha.
  assert (E : forall v, int32 (int32 (reg AC (registers m) + v) - v)
                        = reg AC (registers m)).
  { intros v. unfold Z.sub. rewrite int32_add_l.
    replace (reg AC (registers m) + v + - v) with (reg AC (registers m))
      by lia.
    apply int32_small. exact Ha. }
  destruct m as [[pc ir ac x y sp] t c iss ips ie k mm con rs rc].
  cbn in E. split; cbn; unfold put_reg, modify; cbn; rewrite E; reflexivity.
Qed.

Lemma add_then_sub_witness :
  let m := with_registers (mkRegisters 0 0 INT_MAX 1 2 1000)
             (power_on [] (fun _ => 0)) in
  (execute ADDX ;; execute SUBX) m = Returns tt m
  /\ (execute ADDY ;; execute SUBY) m = Returns tt m.
Proof.
  apply (add_then_sub (with_registers (mkRegisters 0 0 INT_MAX 1 2 1000)
                         (power_on [] (fun _ => 0)))).
  vm_compute. split; discriminate.
Defined.

(** X27. The two conditional jumps are complementary: both read their
    target from the cell at PC, JUMP_IF_EQ goes there exactly when AC is 0
    and JUMP_IF_NEQ exactly when it is not, and the one that does not jump
    goes on behind the operand; no other register changes. *)
Theorem conditional_jumps (m : Machine) :
  at_rest (main_memory m) ->
  permitted (kernelMode m) (reg PC (registers m)) = true ->
  let pc := reg PC (registers m) in
  let target := cell (memory (main_memory m)) pc in
  let zero := reg AC (registers m) =? 0 in
  exists m1 m2,
    execute JUMP_IF_EQ m = Returns tt m1
    /\ execute JUMP_IF_NEQ m = Returns tt m2
    /\ registers m1
       = set_reg PC (if zero then target else pc + 1) (registers m)
    /\ registers m2
       = set_reg PC (if zero then pc + 1 else target) (registers m).
Proof.
  intros Hr Hp pc target zero.
  unfold execute. rewrite !bind_apply, readNext_permitted by assumption.
  fold pc target. unfold bind, get_reg, gets, when, put_reg, modify, ret.
  cbn [registers after_read with_registers with_main_memory reg set_reg
       AC PC r_ac].
  change (r_ac (registers m) =? 0) with zero.
  destruct zero; cbn [negb]; eexists; eexists;
    (split; [reflexivity|]); (split; [reflexivity|]);
    destruct m as [[p i a x y s] t c iss ips ie k mm con rs rc];
    split; reflexivity.
Qed.

Lemma conditional_jumps_witness :
  exists m1 m2,
    execute JUMP_IF_EQ timer_example = Returns tt m1
    /\ execute JUMP_IF_NEQ timer_example = Returns tt m2
    /\ registers m1
       = set_reg PC
           (if reg AC (registers timer_example) =? 0
            then cell (memory (main_memory timer_example))
                   (reg PC (registers timer_example))
            else reg PC (registers timer_example) + 1)
           (registers timer_example)
    /\ registers m2
       = set_reg PC
           (if reg AC (registers timer_example) =? 0
            then reg PC (registers timer_example) + 1
            else cell (memory (main_memory timer_example))
                   (reg PC (registers timer_example)))
           (registers timer_example).
Proof.
  apply (conditional_jumps timer_example).
  - repeat split.
  - reflexivity.
Defined.

(** X28. [endProcess] tells the exit codes apart: two different codes of
    [enum error_codes] never print the same name. *)
Theorem exit_code_names_distinct (c1 c2 : Z) :
  0 <= c1 < 14 -> 0 <= c2 < 14 -> c1 <> c2 ->
  exit_code_name c1 <> exit_code_name c2.
Proof.
  intros H1 H2 Hne.
  assert (E1 : In c1 [0; 1; 2; 3; 4; 5; 6; 7; 8; 9; 10; 11; 12; 13])
    by (cbn; lia).
  assert (E2 : In c2 [0; 1; 2; 3; 4; 5; 6; 7; 8; 9; 10; 11; 12; 13])
    by (cbn; lia).
  cbn in E1, E2.
  repeat (destruct E1 as [<-|E1]; [|]); try contradiction;
    repeat (destruct E2 as [<-|E2]; [|]); try contradiction;
    try congruence; vm_compute; discriminate.
Qed.

Lemma exit_code_names_distinct_witness :
  exit_code_name READ_FAILURE <> exit_code_name WRITE_FAILURE.
Proof.
  apply (exit_code_names_distinct READ_FAILURE WRITE_FAILURE);
    unfold READ_FAILURE, WRITE_FAILURE; lia.
Defined.
